(** * VideoMerger: a shallow embedding of [VideoMerger.py]

    The script scans a root directory for sub-folders of video parts, checks
    that the parts of a folder share one resolution, concatenates them with
    ffmpeg and compares the merged duration with the sum of the parts.

    Conventions of the embedding:
    - a [pathlib.Path] is the list of its components; paths are absolute and
      normalised, so [resolve] is the identity; paths are ordered as POSIX
      paths are, component by component and by code point;
    - file names are ASCII strings ([str.lower] acts on A-Z);
    - a Python [float] is a binary64 primitive float, with Python's
      comparison and arithmetic operators; widths and heights are integers;
    - the file system is a finite map from paths to nodes; the external
      tools (ffprobe, ffmpeg, tempfile, [shutil.which]) and the operating
      system's refusals (OSError) are oracles gathered in [Env], each a
      function of its arguments;
    - effects are threaded by a state-and-exception monad over [World]: the
      file system and the trace of tool invocations and log records
      ([logging.debug] records, which no handler shows, are left out; the
      opening records of [main] are one event, and so are those of its
      summary);
    - the blocks of [merge_video] and of [main] - the body of a loop, a
      [try] suite, its handlers, its [finally] clause - are definitions of
      their own, named after what they do;
    - the closing scan of the log directory is a definition of its own,
      [check_error_logs], whose result stands for the records it logs;
    - the tests of a path ([exists], [is_dir], [is_file]) answer and do not
      raise; a refused [mkdir] or write leaves the file system as it was:
      the directories that [mkdir(parents=True)] may have made before the
      refusal are not modelled;
    - a line of the list file is the path it names: the quoting of the line
      is not modelled;
    - [main] is modelled from the dependency check to the record of the
      summary; [setup_logging] and the prompt of the script are not
      modelled. *)

From Stdlib Require Import Floats Ascii.
From Stdlib Require OrdersEx.
From stdpp Require Import gmap strings list sorting.

Set Default Proof Using "Type".

(** ** Strings as [str] *)

Module Str.

Definition ascii_lower (a : ascii) : ascii :=
  let n := nat_of_ascii a in
  if (65 <=? n)%nat && (n <=? 90)%nat then ascii_of_nat (n + 32) else a.

(** [str.lower] *)
Fixpoint lower (s : string) : string :=
  match s with
  | EmptyString => EmptyString
  | String a r => String (ascii_lower a) (lower r)
  end.

(** [s[1:]] *)
Definition tail (s : string) : string :=
  match s with
  | EmptyString => EmptyString
  | String _ r => r
  end.

(** [s[i:]] *)
Definition from (i : nat) (s : string) : string :=
  String.substring i (String.length s - i) s.

Fixpoint rfind_from (c : ascii) (s : string) (i : nat) (acc : option nat)
  : option nat :=
  match s with
  | EmptyString => acc
  | String a r =>
      rfind_from c r (S i) (if Ascii.eqb a c then Some i else acc)
  end.

(** [s.rfind(c)], with [None] for Python's [-1] *)
Definition rfind (c : ascii) (s : string) : option nat :=
  rfind_from c s 0 None.

(** [s.startswith(tuple)] *)
Definition startswith (prefixes : list string) (s : string) : bool :=
  existsb (fun p => String.prefix p s) prefixes.

(** [s in list_of_str] *)
Definition mem (s : string) (l : list string) : bool :=
  existsb (String.eqb s) l.

End Str.

(** ** [pathlib.Path] *)

Definition Path : Type := list string.

(** [p / s] for a single component [s] *)
Definition joinpath (p : Path) (s : string) : Path := p ++ [s].

Notation "p // s" := (joinpath p s) (at level 40, left associativity).

(** [p.name] *)
Definition name (p : Path) : string := List.last p EmptyString.

(** [p.suffix]: the part of the name from its last dot, when that dot is
    neither the first nor the last character. *)
Definition suffix (p : Path) : string :=
  let n := name p in
  match Str.rfind "." n with
  | Some i =>
      if (0 <? i)%nat && (i <? String.length n - 1)%nat
      then Str.from i n else EmptyString
  | None => EmptyString
  end.

(** [p.resolve()] *)
Definition resolve (p : Path) : Path := p.

(** [q] is an entry of the directory [p] *)
Definition child_of (p q : Path) : bool :=
  bool_decide (take (length p) q = p ∧ length q = S (length p)).

(** Order of [Path] objects: component-wise, strings by code point. *)
Fixpoint path_leb (p q : Path) : bool :=
  match p, q with
  | [], _ => true
  | _ :: _, [] => false
  | a :: p', b :: q' =>
      match String.compare a b with
      | Lt => true
      | Gt => false
      | Eq => path_leb p' q'
      end
  end.

Definition path_le (p q : Path) : Prop := path_leb p q = true.

#[global] Instance path_le_dec : RelDecision path_le.
Proof. intros p q. unfold path_le. apply _. Defined.

(** [list.sort()] on a list of paths *)
Definition sort_paths (l : list Path) : list Path := merge_sort path_le l.

(** ** Constants *)

Definition VIDEO_EXTENSIONS : list string := ["mp4"; "mkv"]%string.

(** ** Metadata and external tools *)

Record Metadata := mkMetadata {
  duration : float;
  width : Z;
  height : Z;
}.

(** What running ffprobe on a file and reading its JSON output comes to in
    [_get_video_metadata_ffprobe]. *)
Inductive ProbeResult :=
  | ProbeOk (m : Metadata)
  | ProbeExecFailed          (* CalledProcessError *)
  | ProbeUnparseable         (* JSONDecodeError, KeyError, ValueError, TypeError *)
  | ProbeNoVideoStream
  | ProbeMissingFields
  | ProbeToolMissing         (* FileNotFoundError *)
  | ProbeCrash.              (* any other exception *)

(** What [_run_command(ffmpeg_command, check=True)] comes to; [partial]
    tells whether ffmpeg left an output file behind. *)
Inductive FfmpegResult :=
  | FfOk
  | FfExit (stderr : string) (partial : bool)   (* CalledProcessError *)
  | FfToolMissing                               (* FileNotFoundError *)
  | FfCrash (partial : bool).                   (* any other exception *)

(** What [tempfile.NamedTemporaryFile] and the writes to it come to: the
    file is made in [dir], with the characters [unique] between the prefix
    and the suffix asked for. *)
Inductive TempResult :=
  | TmpCreated (dir : Path) (unique : string) (written : bool)
  | TmpFileNotFound
  | TmpFailed.

(** ** File system *)

Inductive Content :=
  | Media
  | Merged (parts : list Path) (complete : bool)
  | ListFile (entries : list Path)
  | MetadataErrorLog (video : Path)
  | ResolutionMismatchLog (folder : Path) (ref_name : string) (ref : Z * Z)
      (mismatch_name : string) (res : Z * Z) (mismatch_path : Path)
  | Text (s : string).

Inductive Node :=
  | NDir
  | NFile (c : Content).

Abbreviation FS := (gmap Path Node).

Definition path_exists (fs : FS) (p : Path) : bool := bool_decide (is_Some (fs !! p)).

Definition is_dir (fs : FS) (p : Path) : bool :=
  match fs !! p with Some NDir => true | _ => false end.

Definition is_file (fs : FS) (p : Path) : bool :=
  match fs !! p with Some (NFile _) => true | _ => false end.

(** The non-empty prefixes of a path, shortest first. *)
Definition ancestors (d : Path) : list Path :=
  map (fun n => take n d) (seq 1 (length d)).

(** [d.mkdir(parents=True, exist_ok=True)] when it succeeds *)
Definition mkdir_p (d : Path) (fs : FS) : FS :=
  foldr (fun q acc => match acc !! q with
                      | None => <[q := NDir]> acc
                      | Some _ => acc
                      end) fs (ancestors d).

(** The entries of a directory, in the order the system happens to give. *)
Definition entries (fs : FS) (p : Path) : list Path :=
  filter (fun q => child_of p q = true) (map fst (map_to_list fs)).

Record Env := mkEnv {
  ffprobe : Path → ProbeResult;
  ffmpeg : list Path → Path → FfmpegResult;
  mktemp : string → TempResult;
  which : string → bool;       (* [shutil.which] finds the executable *)
  can_list : Path → bool;      (* [iterdir] raises no OSError *)
  can_mkdir : Path → bool;     (* [mkdir] of the output directory raises no OSError *)
  can_write : Path → bool;     (* [mkdir] and [write_text] raise no OSError *)
  can_unlink : Path → bool;    (* [unlink] raises no OSError *)
}.

(** ** Trace *)

Inductive Level := INFO | WARNING | ERROR | CRITICAL.

Inductive Msg :=
  (* _run_command *)
  | CommandNotFound (cmd : string)
  | CommandFailed (cmd : string)
  | CommandStderr (cmd : string)
  (* _get_video_metadata_ffprobe *)
  | NoVideoStream (n : string)
  | MissingFields (n : string)
  | FfprobeFailed (n : string)
  | ParseError (n : string)
  (* get_dirs, get_videos *)
  | MainPathNotDir (p : Path)
  | FoundFolders (n : nat) (p : Path)
  | ReadError (p : Path)
  | NotADirectory (p : Path)
  | FoundParts (n : nat) (dir : string)
  (* merge_video *)
  | NoVideosProvided (folder : string)
  | AlreadyExists (out : string)
  | CheckingResolution (n : nat) (folder : string)
  | MetadataFailed (n : string)
  | CouldNotWriteLog (p : Path)
  | SkippingZeroDuration (n : string)
  | ReferenceSet (n : string) (w h : Z)
  | ResolutionMismatch (folder : string)
  | ReferenceIs (n : string) (w h : Z)
  | MismatchIs (n : string) (w h : Z)
  | SkippingMerge
  | NoValidParts (folder : string)
  | PartsSkipped (valid initial : nat) (folder : string)
  | ResolutionPassed (folder : string) (w h : Z)
  | NoReference (folder : string)
  | FfprobeNotFound
  | UnexpectedMetadataError (folder : string)
  | StartingMerge (folder : string)
  | MergedSaved (out : string)
  | MergedProbeFailed (out : string)
  | DurationMismatch (folder : string) (total merged diff allowed : float)
  | DurationPassed (folder : string)
  | FfmpegFailed (folder : string)
  | FfmpegErrorSaved (p : Path)
  | DeletedIncomplete (out : string)
  | CouldNotDelete (out : string)
  | FfmpegNotFound
  | UnexpectedMergeError (folder : string)
  | CouldNotDeleteTemp (p : Path)
  (* main *)
  | FfmpegNotInPath
  | FfprobeNotInPath
  | SourceNotDir (p : Path)
  | CouldNotCreateOutput (p : Path)
  | Started
  | ProcessingFolder (n : string)
  | NoVideoFiles (n : string)
  | Halting (n : string)
  | UnhandledException (n : string)
  | FinishedFolder (n : string)
  | Finished (found attempted succeeded failed : nat).

Inductive Event :=
  | Probe (p : Path)                           (* ffprobe was run on [p] *)
  | Ffmpeg (list_file : Path) (out : Path)     (* ffmpeg was run *)
  | Log (lvl : Level) (m : Msg).

Record World := mkWorld {
  fs : FS;
  trace : list Event;
}.

(** ** The monad of effects: state and exceptions *)

Inductive Exn :=
  | FileNotFoundError
  | CalledProcessError (stderr : string)
  | ParseException     (* JSONDecodeError, KeyError, ValueError, TypeError *)
  | OtherException.

Inductive Outcome (A : Type) :=
  | Return (a : A)
  | Raise (e : Exn).
Arguments Return {A} a.
Arguments Raise {A} e.

Definition M (A : Type) : Type := World → Outcome A * World.

Definition ret {A} (a : A) : M A := fun w => (Return a, w).

Definition bind {A B} (m : M A) (k : A → M B) : M B :=
  fun w =>
    match m w with
    | (Return a, w') => k a w'
    | (Raise e, w') => (Raise e, w')
    end.

Definition raise {A} (e : Exn) : M A := fun w => (Raise e, w).

(** [try: m except: h] *)
Definition try_except {A} (m : M A) (h : Exn → M A) : M A :=
  fun w =>
    match m w with
    | (Return a, w') => (Return a, w')
    | (Raise e, w') => h e w'
    end.

(** [try: m finally: f] *)
Definition try_finally {A} (m : M A) (f : M unit) : M A :=
  fun w =>
    match m w with
    | (r, w') =>
        match f w' with
        | (Return _, w'') => (r, w'')
        | (Raise e, w'') => (Raise e, w'')
        end
    end.

#[global] Instance M_ret : MRet M := @ret.
#[global] Instance M_bind : MBind M := fun A B k m => bind m k.

Definition emit (e : Event) : M unit :=
  fun w => (Return tt, mkWorld (fs w) (trace w ++ [e])).

Definition log (lvl : Level) (m : Msg) : M unit := emit (Log lvl m).

Definition read_fs : M FS := fun w => (Return (fs w), w).

Definition set_fs (f : FS → FS) : M unit :=
  fun w => (Return tt, mkWorld (f (fs w)) (trace w)).

Definition when (b : bool) (m : M unit) : M unit := if b then m else ret tt.

(** ** The scans *)

Section Program.

Variable env : Env.

(** [for p in d.iterdir()]: the entries, or OSError *)
Definition iterdir (d : Path) : M (option (list Path)) :=
  fs ← read_fs;
  ret (if can_list env d then Some (entries fs d) else None).

Definition get_dirs (main_path : Path) : M (list Path) :=
  fs ← read_fs;
  if negb (is_dir fs main_path) then
    log ERROR (MainPathNotDir main_path);; ret []
  else
    listing ← iterdir main_path;
    match listing with
    | Some items =>
        let folder_list :=
          filter (fun p => is_dir fs p = true
                           ∧ Str.startswith ["_"; "."]%string (name p) = false)
                 items in
        log INFO (FoundFolders (length folder_list) main_path);;
        ret (sort_paths folder_list)
    | None =>
        log ERROR (ReadError main_path);; ret []
    end.

Definition get_videos (directory : Path) : M (list Path) :=
  fs ← read_fs;
  if negb (is_dir fs directory) then
    log WARNING (NotADirectory directory);; ret []
  else
    listing ← iterdir directory;
    match listing with
    | Some items =>
        let video_array :=
          filter (fun file =>
                    is_file fs file = true
                    ∧ Str.mem (Str.tail (Str.lower (suffix file)))
                              VIDEO_EXTENSIONS = true)
                 items in
        log INFO (FoundParts (length video_array) (name directory));;
        ret (sort_paths video_array)
    | None =>
        log ERROR (ReadError directory);; ret []
    end.

(** ** Running the external tools *)

(** How a subprocess ended, as [_run_command] sees it. *)
Inductive RunResult :=
  | RunOk
  | RunExit (stderr : string)
  | RunNotFound
  | RunCrash.

(** [_run_command], given how [subprocess.run] ended: what it logs and
    what it raises again. *)
Definition _run_command (cmd : string) (r : RunResult) : M unit :=
  match r with
  | RunOk => mret tt
  | RunNotFound =>
      log ERROR (CommandNotFound cmd);; raise FileNotFoundError
  | RunExit stderr =>
      log ERROR (CommandFailed cmd);;
      log ERROR (CommandStderr cmd);;
      raise (CalledProcessError stderr)
  | RunCrash => raise OtherException
  end.

Definition run_of_probe (r : ProbeResult) : RunResult :=
  match r with
  | ProbeExecFailed => RunExit EmptyString
  | ProbeToolMissing => RunNotFound
  | ProbeCrash => RunCrash
  | _ => RunOk
  end.

(** [None] when ffprobe fails or its output is of no use, an exception
    when ffprobe is not found. *)
Definition _get_video_metadata_ffprobe (video_path : Path)
  : M (option Metadata) :=
  let r := ffprobe env (resolve video_path) in
  try_except
    (emit (Probe (resolve video_path));;
     _run_command "ffprobe" (run_of_probe r);;
     match r with
     | ProbeNoVideoStream =>
         log WARNING (NoVideoStream (name video_path));; mret None
     | ProbeMissingFields =>
         log WARNING (MissingFields (name video_path));; mret None
     | ProbeOk m => mret (Some m)
     | _ => raise ParseException
     end)
    (fun e =>
       match e with
       | CalledProcessError _ =>
           log WARNING (FfprobeFailed (name video_path));; mret None
       | ParseException =>
           log WARNING (ParseError (name video_path));; mret None
       | FileNotFoundError => raise FileNotFoundError
       | OtherException => raise OtherException
       end).

Definition run_of_ffmpeg (r : FfmpegResult) : RunResult :=
  match r with
  | FfOk => RunOk
  | FfExit stderr _ => RunExit stderr
  | FfToolMissing => RunNotFound
  | FfCrash _ => RunCrash
  end.

(** The entries of the concat list file that ffmpeg reads. *)
Definition manifest_of (fs : FS) (list_file : Path) : list Path :=
  match fs !! list_file with
  | Some (NFile (ListFile l)) => l
  | _ => []
  end.

(** [_run_command(ffmpeg_command, check=True)] with what ffmpeg leaves on
    the disk. *)
Definition run_ffmpeg (list_file out : Path) : M unit :=
  emit (Ffmpeg (resolve list_file) (resolve out));;
  fs ← read_fs;
  let parts := manifest_of fs list_file in
  let r := ffmpeg env parts out in
  match r with
  | FfOk => set_fs (<[out := NFile (Merged parts true)]>)
  | FfExit _ true | FfCrash true =>
      set_fs (<[out := NFile (Merged parts false)]>)
  | _ => mret tt
  end;;
  _run_command "ffmpeg" (run_of_ffmpeg r).

(** ** [merge_video] *)

(** [try: log_dir.mkdir(...); p.write_text(c); then except OSError: log] *)
Definition write_error_log (log_dir p : Path) (c : Content) (then_ : M unit)
  : M unit :=
  if can_write env p then
    set_fs (fun fs => <[p := NFile c]> (mkdir_p log_dir fs));; then_
  else log ERROR (CouldNotWriteLog p).

(** The variables of the validation loop. *)
Record LoopState := mkLoop {
  total_duration : float;
  first_video_metadata : option Metadata;
  valid_videos_for_merge : list Path;
  resolutions_match : bool;
}.

Definition loop_init : LoopState := mkLoop 0%float None [] true.

Inductive Flow :=
  | Continue (st : LoopState)
  | Break (st : LoopState).

(** [resolutions_match = False] *)
Definition mismatch_found (st : LoopState) : LoopState :=
  mkLoop (total_duration st) (first_video_metadata st)
         (valid_videos_for_merge st) false.

(** [first_video_metadata = metadata] *)
Definition set_reference (m : Metadata) (st : LoopState) : LoopState :=
  mkLoop (total_duration st) (Some m)
         (valid_videos_for_merge st) (resolutions_match st).

(** [valid_videos_for_merge.append(v); total_duration += d] *)
Definition accept (v : Path) (d : float) (st : LoopState) : LoopState :=
  mkLoop (total_duration st + d)%float (first_video_metadata st)
         (valid_videos_for_merge st ++ [v]) (resolutions_match st).

(** [(w1, h1) != (w2, h2)] *)
Definition res_neq (a b : Z * Z) : bool :=
  negb ((fst a =? fst b)%Z && (snd a =? snd b)%Z).

(** The body of [for idx, video_path in enumerate(videos)]. *)
Definition check_part (videos : list Path) (source_path log_dir : Path)
    (video_path : Path) (st : LoopState) : M Flow :=
  let folder_name := name source_path in
  metadata ← _get_video_metadata_ffprobe video_path;
  match metadata with
  | None =>
      log ERROR (MetadataFailed (name video_path));;
      write_error_log log_dir
        (log_dir // (folder_name +:+ "_metadata_error.log"))
        (MetadataErrorLog (resolve video_path)) (mret tt);;
      mret (Break (mismatch_found st))
  | Some metadata =>
      let current_resolution := (width metadata, height metadata) in
      let current_duration := duration metadata in
      if (current_duration <=? 0)%float then
        log WARNING (SkippingZeroDuration (name video_path));;
        mret (Continue st)
      else
        match first_video_metadata st with
        | None =>
            log INFO (ReferenceSet (name video_path)
                        (fst current_resolution) (snd current_resolution));;
            mret (Continue (accept video_path current_duration
                              (set_reference metadata st)))
        | Some first =>
            if res_neq current_resolution (width first, height first) then
              log ERROR (ResolutionMismatch folder_name);;
              let ref_name :=
                match valid_videos_for_merge st with
                | v0 :: _ => name v0
                | [] => name (hd [] videos)
                end in
              log ERROR (ReferenceIs ref_name (width first) (height first));;
              log ERROR (MismatchIs (name video_path)
                           (width metadata) (height metadata));;
              log ERROR SkippingMerge;;
              write_error_log log_dir
                (log_dir // (folder_name +:+ "_resolution_mismatch.log"))
                (ResolutionMismatchLog (resolve source_path) ref_name
                   (width first, height first) (name video_path)
                   (width metadata, height metadata) (resolve video_path))
                (mret tt);;
              mret (Break (mismatch_found st))
            else
              mret (Continue (accept video_path current_duration st))
        end
  end.

(** The [for] loop, with its [break]. *)
Fixpoint check_parts (videos : list Path) (source_path log_dir : Path)
    (todo : list Path) (st : LoopState) : M LoopState :=
  match todo with
  | [] => mret st
  | video_path :: rest =>
      f ← check_part videos source_path log_dir video_path st;
      match f with
      | Continue st' => check_parts videos source_path log_dir rest st'
      | Break st' => mret st'
      end
  end.

(** The first [try] block of [merge_video]: [None] stands for
    [return False], [Some (valid_videos_for_merge, total_duration)] for
    falling through to the merge. *)
Definition metadata_check (videos : list Path) (source_path log_dir : Path)
  : M (option (list Path * float)) :=
  let folder_name := name source_path in
  log INFO (CheckingResolution (length videos) folder_name);;
  try_except
    (st ← check_parts videos source_path log_dir videos loop_init;
     if negb (resolutions_match st) then mret None
     else
       match valid_videos_for_merge st with
       | [] => log ERROR (NoValidParts folder_name);; mret None
       | v0 :: _ =>
           let num_initial_videos := length videos in
           let num_valid_parts := length (valid_videos_for_merge st) in
           when (num_valid_parts <? num_initial_videos)%nat
             (log WARNING (PartsSkipped num_valid_parts num_initial_videos
                             folder_name));;
           first ← match first_video_metadata st with
                   | None => _get_video_metadata_ffprobe v0
                   | Some m => mret (Some m)
                   end;
           match first with
           | Some m =>
               log INFO (ResolutionPassed folder_name (width m) (height m));;
               mret (Some (valid_videos_for_merge st, total_duration st))
           | None =>
               log ERROR (NoReference folder_name);; mret None
           end
       end)
    (fun e =>
       match e with
       | FileNotFoundError => log CRITICAL FfprobeNotFound;; mret None
       | _ => log ERROR (UnexpectedMetadataError folder_name);; mret None
       end).

(** Python's [max(a, b)] on floats *)
Definition py_max (a b : float) : float := if (a <? b)%float then b else a.

Definition duration_tolerance_abs : float := 5.0%float.
(** [0.02], the binary64 number nearest to it *)
Definition duration_tolerance_rel : float := 0x1.47ae147ae147bp-6%float.

(** The name prefix given to [tempfile.NamedTemporaryFile]. *)
Definition list_prefix (folder_name : string) : string :=
  folder_name +:+ "_ffmpeg_list_".

(** The name of a temporary file made with [suffix='.txt']. *)
Definition temp_path (dir : Path) (prefix unique : string) : Path :=
  dir // (prefix +:+ unique +:+ ".txt").

(** The value of [list_file_path] once the temporary file was made. *)
Definition list_file_path (folder_name : string) : option Path :=
  match mktemp env (list_prefix folder_name) with
  | TmpCreated dir unique _ =>
      Some (temp_path dir (list_prefix folder_name) unique)
  | _ => None
  end.

(** Creating the list file and writing one line per part into it. *)
Definition create_list_file (folder_name : string) (valid : list Path)
  : M Path :=
  match mktemp env (list_prefix folder_name) with
  | TmpCreated dir unique true =>
      let p := temp_path dir (list_prefix folder_name) unique in
      set_fs (<[p := NFile (ListFile (map resolve valid))]>);; mret p
  | TmpCreated dir unique false =>
      let p := temp_path dir (list_prefix folder_name) unique in
      set_fs (<[p := NFile (ListFile [])]>);; raise OtherException
  | TmpFileNotFound => raise FileNotFoundError
  | TmpFailed => raise OtherException
  end.

(** The check of the merged file's duration. *)
Definition verify_duration (folder_name : string) (video_output_path : Path)
    (total_duration : float) : M unit :=
  merged_metadata ← _get_video_metadata_ffprobe video_output_path;
  match merged_metadata with
  | None => log WARNING (MergedProbeFailed (name video_output_path))
  | Some merged =>
      let merged_duration := duration merged in
      let duration_diff := abs (total_duration - merged_duration)%float in
      let max_allowed_diff :=
        py_max duration_tolerance_abs
               (total_duration * duration_tolerance_rel)%float in
      if (max_allowed_diff <? duration_diff)%float then
        log WARNING (DurationMismatch folder_name total_duration
                       merged_duration duration_diff max_allowed_diff)
      else log INFO (DurationPassed folder_name)
  end.

(** [e.stderr or "No stderr captured from FFmpeg."] *)
Definition error_content (stderr : string) : string :=
  match stderr with
  | EmptyString => "No stderr captured from FFmpeg."
  | _ => stderr
  end.

(** The [except] clauses of the second [try] block. *)
Definition merge_handler (folder_name : string)
    (video_output_path log_dir : Path) (e : Exn) : M bool :=
  match e with
  | CalledProcessError stderr =>
      log ERROR (FfmpegFailed folder_name);;
      let error_log_path := log_dir // (folder_name +:+ "_ffmpeg_error.log") in
      write_error_log log_dir error_log_path (Text (error_content stderr))
        (log ERROR (FfmpegErrorSaved error_log_path));;
      fs ← read_fs;
      when (path_exists fs video_output_path)
        (if can_unlink env video_output_path then
           set_fs (delete video_output_path);;
           log INFO (DeletedIncomplete (name video_output_path))
         else log ERROR (CouldNotDelete (name video_output_path)));;
      mret false
  | FileNotFoundError =>
      log CRITICAL FfmpegNotFound;; mret false
  | _ =>
      log ERROR (UnexpectedMergeError folder_name);;
      fs ← read_fs;
      when (path_exists fs video_output_path)
        (when (can_unlink env video_output_path)
           (set_fs (delete video_output_path)));;
      mret false
  end.

(** The [finally] clause: the list file is removed. *)
Definition cleanup (folder_name : string) : M unit :=
  match list_file_path folder_name with
  | Some p =>
      fs ← read_fs;
      when (path_exists fs p)
        (if can_unlink env p then set_fs (delete p)
         else log WARNING (CouldNotDeleteTemp p))
  | None => mret tt
  end.

(** The suite of the second [try] block. *)
Definition merge_steps (valid_videos_for_merge : list Path)
    (total_duration : float) (folder_name : string)
    (video_output_path : Path) : M bool :=
  list_file ← create_list_file folder_name valid_videos_for_merge;
  log INFO (StartingMerge folder_name);;
  run_ffmpeg list_file video_output_path;;
  log INFO (MergedSaved (name video_output_path));;
  verify_duration folder_name video_output_path total_duration;;
  mret true.

(** The second [try] block of [merge_video]. *)
Definition merge_process (valid_videos_for_merge : list Path)
    (total_duration : float) (folder_name : string)
    (video_output_path log_dir : Path) : M bool :=
  try_finally
    (try_except
       (merge_steps valid_videos_for_merge total_duration folder_name
          video_output_path)
       (merge_handler folder_name video_output_path log_dir))
    (cleanup folder_name).

(** [output_dir / f"{folder_name}{file_extension}"] *)
Definition output_path_of (first_video source_path output_dir : Path) : Path :=
  output_dir // (name source_path +:+ suffix first_video).

Definition merge_video (videos : list Path)
    (source_path output_dir log_dir : Path) : M bool :=
  let folder_name := name source_path in
  match videos with
  | [] => log WARNING (NoVideosProvided folder_name);; mret false
  | first_video :: _ =>
      let video_output_path :=
        output_path_of first_video source_path output_dir in
      fs ← read_fs;
      if path_exists fs video_output_path then
        log INFO (AlreadyExists (name video_output_path));; mret true
      else
        checked ← metadata_check videos source_path log_dir;
        match checked with
        | None => mret false
        | Some (valid, total) =>
            merge_process valid total folder_name video_output_path log_dir
        end
  end.

(** ** [main] *)

Record Counters := mkCounters {
  processed_count : nat;
  success_count : nat;
  fail_count : nat;
}.

Definition processed (c : Counters) : Counters :=
  mkCounters (S (processed_count c)) (success_count c) (fail_count c).
Definition succeeded (c : Counters) : Counters :=
  mkCounters (processed_count c) (S (success_count c)) (fail_count c).
Definition failed (c : Counters) : Counters :=
  mkCounters (processed_count c) (success_count c) (S (fail_count c)).

(** Running [m] inside a [try]: its outcome becomes a value. *)
Definition attempt {A} (m : M A) : M (Outcome A) :=
  fun w => match m w with (r, w') => (Return r, w') end.

(** [for path in folder_paths], with its [continue] and [break]. *)
Fixpoint process_folders (folder_paths : list Path)
    (output_path log_dir : Path) (c : Counters) : M Counters :=
  match folder_paths with
  | [] => mret c
  | path :: rest =>
      if Str.startswith ["_"; "."]%string (name path) then
        process_folders rest output_path log_dir c
      else
        log INFO (ProcessingFolder (name path));;
        let c := processed c in
        videos_arr ← get_videos path;
        match videos_arr with
        | [] =>
            log WARNING (NoVideoFiles (name path));;
            process_folders rest output_path log_dir (failed c)
        | _ :: _ =>
            r ← attempt (merge_video videos_arr path output_path log_dir);
            match r : Outcome bool with
            | Return success =>
                log INFO (FinishedFolder (name path));;
                process_folders rest output_path log_dir
                  (if success then succeeded c else failed c)
            | Raise FileNotFoundError =>
                log CRITICAL (Halting (name path));;
                mret (failed c)
            | Raise _ =>
                log ERROR (UnhandledException (name path));;
                log INFO (FinishedFolder (name path));;
                process_folders rest output_path log_dir (failed c)
            end
        end
  end.

Definition counters_init : Counters := mkCounters 0 0 0.

(** [main], from the dependency check to the summary; the paths are given
    resolved, [log_dir] is the script's [video-merger-logs] directory. The
    closing scan of [log_dir], which only logs, is left out. [None] stands
    for an early [return]. *)
Definition main (main_path output_path log_dir : Path)
  : M (option Counters) :=
  if negb (which env "ffmpeg") then
    log CRITICAL FfmpegNotInPath;; mret None
  else if negb (which env "ffprobe") then
    log CRITICAL FfprobeNotInPath;; mret None
  else
    fs ← read_fs;
    if negb (is_dir fs main_path) then
      log CRITICAL (SourceNotDir main_path);; mret None
    else if negb (can_mkdir env output_path) then
      log CRITICAL (CouldNotCreateOutput output_path);; mret None
    else
      set_fs (mkdir_p output_path);;
      log INFO Started;;
      folder_paths ← get_dirs main_path;
      c ← process_folders folder_paths output_path log_dir counters_init;
      log INFO (Finished (length folder_paths) (processed_count c)
                  (success_count c) (fail_count c));;
      mret (Some c).

End Program.

(** * Vocabulary of the properties *)

(** The list a scan returned. *)
Definition returned {A} (r : Outcome (list A) * World) : list A :=
  match r.1 with
  | Return l => l
  | Raise _ => []
  end.

(** The files ffprobe was run on, in order. *)
Definition probe_calls (t : list Event) : list Path :=
  omap (fun e => match e with Probe p => Some p | _ => None end) t.

(** The ffmpeg runs, in order. *)
Definition ffmpeg_calls (t : list Event) : list (Path * Path) :=
  omap (fun e => match e with Ffmpeg l o => Some (l, o) | _ => None end) t.

(** An event that is no log record of level ERROR or CRITICAL. *)
Definition no_error (e : Event) : Prop :=
  match e with
  | Log ERROR _ | Log CRITICAL _ => False
  | _ => True
  end.

Definition resolution (m : Metadata) : Z * Z := (width m, height m).

(** The metadata of a part that the loop keeps: probed, and with a
    duration that is not [<= 0]. *)
Definition usable (env : Env) (p : Path) : option Metadata :=
  match ffprobe env (resolve p) with
  | ProbeOk m => if (duration m <=? 0)%float then None else Some m
  | _ => None
  end.

(** The parts of a list that the loop keeps. *)
Definition kept (env : Env) (ps : list Path) : list Path :=
  filter (fun p => is_Some (usable env p)) ps.

(** The durations of the kept parts added up from [acc], left to right,
    as [total_duration += current_duration] does. *)
Definition sum_durations (env : Env) (acc : float) (ps : list Path) : float :=
  fold_left (fun a m => (a + duration m)%float) (omap (usable env) ps) acc.

(** Every part is probed, and the kept ones have the resolution [res]. *)
Definition uniform (env : Env) (res : Z * Z) (ps : list Path) : Prop :=
  Forall (fun p => ∃ m, ffprobe env p = ProbeOk m ∧
                        ((duration m <=? 0)%float = false →
                         resolution m = res)) ps.

(** The loop variables after a run of parts none of which stops the loop. *)
Definition state_after (env : Env) (todo : list Path) (st : LoopState)
  : LoopState :=
  mkLoop (sum_durations env (total_duration st) todo)
         (match first_video_metadata st with
          | Some f => Some f
          | None => head (omap (usable env) todo)
          end)
         (valid_videos_for_merge st ++ kept env todo)
         (resolutions_match st).

(** What the loop leaves on a resolution mismatch. *)
Definition mismatch_log_path (source_path log_dir : Path) : Path :=
  log_dir // (name source_path +:+ "_resolution_mismatch.log").

Definition ref_name_of (videos : list Path) (st : LoopState) : string :=
  match valid_videos_for_merge st with
  | v0 :: _ => name v0
  | [] => name (hd [] videos)
  end.

Definition mismatch_log (videos : list Path) (source_path : Path)
    (v : Path) (m f : Metadata) (st : LoopState) : Content :=
  ResolutionMismatchLog source_path (ref_name_of videos st)
    (resolution f) (name v) (resolution m) v.

Definition mismatch_events (env : Env) (videos : list Path)
    (source_path log_dir : Path) (v : Path) (m f : Metadata) (st : LoopState)
  : list Event :=
  [Probe v;
   Log ERROR (ResolutionMismatch (name source_path));
   Log ERROR (ReferenceIs (ref_name_of videos st) (width f) (height f));
   Log ERROR (MismatchIs (name v) (width m) (height m));
   Log ERROR SkippingMerge]
  ++ (if can_write env (mismatch_log_path source_path log_dir) then []
      else [Log ERROR (CouldNotWriteLog (mismatch_log_path source_path log_dir))]).

Definition mismatch_fs (env : Env) (videos : list Path)
    (source_path log_dir : Path) (v : Path) (m f : Metadata) (st : LoopState)
    (fs : FS) : FS :=
  if can_write env (mismatch_log_path source_path log_dir) then
    <[mismatch_log_path source_path log_dir :=
        NFile (mismatch_log videos source_path v m f st)]>
      (mkdir_p log_dir fs)
  else fs.

(** The difference [abs(total_duration - merged_duration)] and the
    tolerance [max(5.0, total_duration * 0.02)] of the duration check. *)
Definition duration_diff (total merged : float) : float :=
  abs (total - merged)%float.

Definition max_allowed_diff (total : float) : float :=
  py_max duration_tolerance_abs (total * duration_tolerance_rel)%float.

(** The tolerance in the words of the specification, [max(5.0 seconds, 2%
    of expectedTotalDuration)], written without a maximum: a difference
    exceeds the larger of two bounds when it exceeds both of them, and is
    within it when it is within one of them. The factor is the binary64
    number nearest to [0.02]. *)
Definition exceeds_spec_tolerance (expected diff : float) : bool :=
  (5 <? diff)%float && (expected * 0x1.47ae147ae147bp-6 <? diff)%float.

Definition within_spec_tolerance (expected diff : float) : bool :=
  (diff <=? 5)%float || (diff <=? expected * 0x1.47ae147ae147bp-6)%float.

(** The file system once the list file is written. *)
Definition with_list_file (lf : Path) (valid : list Path) (f : FS) : FS :=
  <[lf := NFile (ListFile valid)]> f.

(** The path of the log that keeps ffmpeg's stderr. *)
Definition ffmpeg_error_log (folder_name : string) (log_dir : Path) : Path :=
  log_dir // (folder_name +:+ "_ffmpeg_error.log").

(** ** A sample tree *)

(** Folders [A] and [B] are those of the scenario: two parts of 30 s and
    45 s at 1920x1080, and a 1280x720 part followed by a 1920x1080 one.
    [C] starts with an empty part, [D] holds files whose names start with
    an underscore or a dot, and the output of [E] is there already. *)
Module Sample.

Definition root : Path := ["rec"]%string.
Definition out_dir : Path := ["out"]%string.
Definition logs : Path := ["logs"]%string.

Definition folder_A : Path := root // "A".
Definition folder_B : Path := root // "B".
Definition folder_C : Path := root // "C".
Definition folder_D : Path := root // "D".
Definition folder_E : Path := root // "E".

Definition parts_A : list Path := [folder_A // "1.mp4"; folder_A // "2.mp4"].
Definition parts_B : list Path := [folder_B // "1.mp4"; folder_B // "2.mp4"].
Definition parts_C : list Path := [folder_C // "0.mp4"; folder_C // "1.mp4"].
Definition parts_D : list Path :=
  [folder_D // ".hidden.mkv"; folder_D // "_intro.mp4"].
Definition parts_E : list Path := [folder_E // "1.mp4"].

Definition tree : FS :=
  list_to_map
    ((root, NDir) :: (out_dir, NDir) :: (out_dir // "E.mp4", NFile Media)
     :: (root // "_old", NDir) :: (root // ".cache", NDir)
     :: map (fun d => (d, NDir))
            [folder_A; folder_B; folder_C; folder_D; folder_E]
     ++ map (fun f => (f, NFile Media))
            (parts_A ++ parts_B ++ parts_C ++ parts_D ++ parts_E)).

Definition full_hd (d : float) : Metadata := mkMetadata d 1920 1080.

Definition table : gmap Path Metadata :=
  list_to_map
    [(folder_A // "1.mp4", full_hd 30); (folder_A // "2.mp4", full_hd 45);
     (folder_B // "1.mp4", mkMetadata 10 1280 720);
     (folder_B // "2.mp4", full_hd 10);
     (folder_C // "0.mp4", mkMetadata 0 640 480);
     (folder_C // "1.mp4", full_hd 12.5);
     (folder_D // ".hidden.mkv", full_hd 5);
     (folder_D // "_intro.mp4", full_hd 5);
     (folder_E // "1.mp4", full_hd 8);
     (out_dir // "A.mp4", full_hd 75);
     (out_dir // "C.mp4", full_hd 20)].

Definition probe (p : Path) : ProbeResult :=
  match table !! p with
  | Some m => ProbeOk m
  | None => ProbeNoVideoStream
  end.

Definition temp_file (prefix : string) : Path :=
  temp_path ["tmp"]%string prefix "k3x9".

(** ffmpeg ends as [ff] says, and the system carries out the writes of
    logs and the removals of files when [os_ok] holds, refusing them all
    otherwise. *)
Definition env (ff : FfmpegResult) (os_ok : bool) : Env :=
  mkEnv probe (fun _ _ => ff) (fun _ => TmpCreated ["tmp"]%string "k3x9" true)
        (fun _ => true) (fun _ => true) (fun _ => true) (fun _ => os_ok)
        (fun _ => os_ok).

Definition world : World := mkWorld tree [].

(** The worlds of a run in which ffmpeg is gone, when the loop of [main]
    has listed the parts of [A], and when it has validated them. *)
Definition world_A_listed : World :=
  (get_videos (env FfToolMissing true) folder_A
     (mkWorld tree [Log INFO (ProcessingFolder "A")])).2.

Definition world_A_checked : World :=
  (metadata_check (env FfToolMissing true) parts_A folder_A logs
     world_A_listed).2.

End Sample.

(** ** What the further properties speak of *)

(** The probe of a part gives no metadata: ffprobe ends with an error, or
    its output is of no use. *)
Definition unreadable (env : Env) (p : Path) : Prop :=
  match ffprobe env (resolve p) with
  | ProbeExecFailed | ProbeUnparseable | ProbeNoVideoStream
  | ProbeMissingFields => True
  | _ => False
  end.

(** What the loop leaves when a part gives no metadata. *)
Definition metadata_log_path (source_path log_dir : Path) : Path :=
  log_dir // (name source_path +:+ "_metadata_error.log").

Definition metadata_fs (env : Env) (source_path log_dir : Path) (v : Path)
    (fs : FS) : FS :=
  if can_write env (metadata_log_path source_path log_dir) then
    <[metadata_log_path source_path log_dir := NFile (MetadataErrorLog v)]>
      (mkdir_p log_dir fs)
  else fs.

(** A machine on which ffprobe ends as [probe] says. *)
Definition with_probe (probe : Path → ProbeResult) (e : Env) : Env :=
  mkEnv probe (ffmpeg e) (mktemp e) (which e) (can_list e) (can_mkdir e)
        (can_write e) (can_unlink e).

(** The sample machine, with ffprobe ending as [r] says on the file [q]. *)
Definition env_probe_fails (q : Path) (r : ProbeResult) : Env :=
  with_probe (fun p => if decide (p = q) then r else Sample.probe p)
             (Sample.env FfOk true).

(** ** Relations between the worlds before and after a run *)

(** [m] takes every world to one that [R] relates to it, however it ends. *)
Definition respects {A} (R : relation World) (m : M A) : Prop :=
  ∀ w r w', m w = (r, w') → R w w'.

(** Outside [X] the file system is as it was, but for directories made
    at paths of [Y] where nothing was. *)
Definition frame (X Y : Path → Prop) : relation World :=
  fun w w' =>
    ∀ p, ¬ X p →
         fs w' !! p = fs w !! p
         ∨ (Y p ∧ fs w !! p = None ∧ fs w' !! p = Some NDir).

(** What was there outside [X] is still there, with the same content. *)
Definition keeps (X : Path → Prop) : relation World :=
  fun w w' => ∀ p n, ¬ X p → fs w !! p = Some n → fs w' !! p = Some n.

(** The trace has grown, by events of [P] only. *)
Definition emits (P : Event → Prop) : relation World :=
  fun w w' => ∃ evs, trace w' = trace w ++ evs ∧ Forall P evs.

(** The three logs that [merge_video] writes for a folder. *)
Definition error_logs (source_path log_dir : Path) : list Path :=
  [metadata_log_path source_path log_dir;
   mismatch_log_path source_path log_dir;
   ffmpeg_error_log (name source_path) log_dir].

(** An entry of the log directory, or a file that [tempfile] names. *)
Definition log_or_temp (env : Env) (log_dir : Path) (p : Path) : Prop :=
  (∃ s, p = log_dir // s)
  ∨ (∃ prefix dir unique written,
       mktemp env prefix = TmpCreated dir unique written
       ∧ p = temp_path dir prefix unique).

(** The folders that the loop of [main] does not pass over. *)
Definition attempted (folder_paths : list Path) : list Path :=
  filter (fun p => Str.startswith ["_"; "."]%string (name p) = false)
         folder_paths.

(** An event that is no run of ffmpeg. *)
Definition not_ffmpeg (e : Event) : Prop :=
  match e with
  | Ffmpeg _ _ => False
  | _ => True
  end.

(** The reference of the loop is the metadata of the first part kept: it
    is set when, and only when, a part has been kept. *)
Definition reference_set (env : Env) (st : LoopState) : Prop :=
  match valid_videos_for_merge st with
  | [] => first_video_metadata st = None
  | v0 :: _ =>
      ∃ m, first_video_metadata st = Some m ∧ usable env v0 = Some m
  end.

(** ** The closing scan of [main] *)

(** What the last block of [main] reports, each case standing for the
    record or records that it logs: that there is no log directory, that
    the directory holds no error log, that it holds [n] of them, or that
    the directory could not be read. *)
Inductive LogReport :=
  | NoLogDirectory
  | NoErrorLogs
  | ErrorLogsFound (n : nat)
  | LogDirectoryUnreadable.

(** The block that follows the summary of [main]: the files of the log
    directory whose extension is [.log] and whose name does not start
    with that of the main log are counted. Listing what is no directory
    raises an OSError, as a refused listing does. *)
Definition check_error_logs (env : Env) (log_dir : Path) : M LogReport :=
  fs ← read_fs;
  if negb (path_exists fs log_dir) then mret NoLogDirectory
  else
    listing ← (if is_dir fs log_dir then iterdir env log_dir else mret None);
    match listing with
    | Some items =>
        let error_files :=
          filter (fun item =>
                    is_file fs item = true
                    ∧ Str.startswith ["video_merger_"]%string (name item)
                      = false
                    ∧ Str.lower (suffix item) = ".log"%string)
                 items in
        match length error_files with
        | 0 => mret NoErrorLogs
        | S n => mret (ErrorLogsFound (S n))
        end
    | None => mret LogDirectoryUnreadable
    end.

(** A machine on which [tempfile] ends as [t] says. *)
Definition with_mktemp (t : TempResult) (e : Env) : Env :=
  mkEnv (ffprobe e) (ffmpeg e) (fun _ => t) (which e) (can_list e)
        (can_mkdir e) (can_write e) (can_unlink e).

(** * Properties *)

(** ** Running the monad *)

Ltac mrun :=
  cbv beta iota zeta delta
    [mbind mret M_bind M_ret bind ret log emit raise set_fs read_fs
     try_except try_finally when attempt iterdir].

Lemma sort_paths_elem (l : list Path) (p : Path) : p ∈ sort_paths l ↔ p ∈ l.
Proof. unfold sort_paths. by rewrite merge_sort_Permutation. Qed.

(** ** The two scans *)

Section Scans.

Variable env : Env.

Lemma get_dirs_elem (main_path : Path) (w : World) (p : Path) :
  p ∈ returned (get_dirs env main_path w) ↔
  is_dir (fs w) main_path = true ∧ can_list env main_path = true ∧
  p ∈ entries (fs w) main_path ∧ is_dir (fs w) p = true ∧
  Str.startswith ["_"; "."]%string (name p) = false.
Proof.
  unfold returned, get_dirs. mrun.
  destruct (is_dir (fs w) main_path); simpl.
  - destruct (can_list env main_path); simpl.
    + rewrite sort_paths_elem, list_elem_of_filter. intuition.
    + rewrite elem_of_nil. intuition discriminate.
  - rewrite elem_of_nil. intuition discriminate.
Qed.

Lemma get_videos_elem (directory : Path) (w : World) (p : Path) :
  p ∈ returned (get_videos env directory w) ↔
  is_dir (fs w) directory = true ∧ can_list env directory = true ∧
  p ∈ entries (fs w) directory ∧ is_file (fs w) p = true ∧
  Str.mem (Str.tail (Str.lower (suffix p))) VIDEO_EXTENSIONS = true.
Proof.
  unfold returned, get_videos. mrun.
  destruct (is_dir (fs w) directory); simpl.
  - destruct (can_list env directory); simpl.
    + rewrite sort_paths_elem, list_elem_of_filter. intuition.
    + rewrite elem_of_nil. intuition discriminate.
  - rewrite elem_of_nil. intuition discriminate.
Qed.

End Scans.

(** ** Observations on a trace *)

Lemma probe_calls_app (t1 t2 : list Event) :
  probe_calls (t1 ++ t2) = probe_calls t1 ++ probe_calls t2.
Proof. apply omap_app. Qed.

Lemma ffmpeg_calls_app (t1 t2 : list Event) :
  ffmpeg_calls (t1 ++ t2) = ffmpeg_calls t1 ++ ffmpeg_calls t2.
Proof. apply omap_app. Qed.

(** ** Floats *)

Lemma positive_not_leb_zero (d : float) :
  (0 <? d)%float = true → (d <=? 0)%float = false.
Proof.
  rewrite ltb_spec, leb_spec.
  change (Prim2SF 0) with (S754_zero false).
  destruct (Prim2SF d) as [s|s| |s m e]; try destruct s; cbn; congruence.
Qed.

(** ** The validation loop *)

Section Validation.

Variable env : Env.
Variables (videos : list Path) (source_path log_dir : Path).

Lemma res_neq_false (a b : Z * Z) : res_neq a b = false ↔ a = b.
Proof.
  destruct a as [w1 h1], b as [w2 h2]. unfold res_neq. simpl.
  rewrite negb_false_iff, andb_true_iff, !Z.eqb_eq. split.
  - intros [-> ->]. done.
  - intros [= -> ->]. done.
Qed.

Lemma res_neq_true (a b : Z * Z) : res_neq a b = true ↔ a ≠ b.
Proof.
  rewrite <- res_neq_false. destruct (res_neq a b); split; congruence.
Qed.

Lemma probe_ok (p : Path) (m : Metadata) (w : World) :
  ffprobe env p = ProbeOk m →
  _get_video_metadata_ffprobe env p w
  = (Return (Some m), mkWorld (fs w) (trace w ++ [Probe p])).
Proof.
  intros H. unfold _get_video_metadata_ffprobe, resolve. mrun.
  rewrite H. reflexivity.
Qed.

(** A part with a duration [<= 0] leaves the loop variables as they are. *)
Lemma check_part_skip (v : Path) (m : Metadata) (st : LoopState) (w : World) :
  ffprobe env v = ProbeOk m →
  (duration m <=? 0)%float = true →
  check_part env videos source_path log_dir v st w
  = (Return (Continue st),
     mkWorld (fs w)
       (trace w ++ [Probe v; Log WARNING (SkippingZeroDuration (name v))])).
Proof.
  intros H Hd. unfold check_part. unfold mbind at 1, M_bind, bind.
  rewrite (probe_ok _ _ _ H). mrun. rewrite Hd. simpl.
  by rewrite <- app_assoc.
Qed.

Lemma check_part_first (v : Path) (m : Metadata) (st : LoopState) (w : World) :
  ffprobe env v = ProbeOk m →
  (duration m <=? 0)%float = false →
  first_video_metadata st = None →
  check_part env videos source_path log_dir v st w
  = (Return (Continue (accept v (duration m) (set_reference m st))),
     mkWorld (fs w)
       (trace w ++ [Probe v;
                    Log INFO (ReferenceSet (name v) (width m) (height m))])).
Proof.
  intros H Hd Hf. unfold check_part. unfold mbind at 1, M_bind, bind.
  rewrite (probe_ok _ _ _ H). mrun. rewrite Hd, Hf. simpl.
  by rewrite <- app_assoc.
Qed.

Lemma check_part_match (v : Path) (m f : Metadata) (st : LoopState) (w : World) :
  ffprobe env v = ProbeOk m →
  (duration m <=? 0)%float = false →
  first_video_metadata st = Some f →
  resolution m = resolution f →
  check_part env videos source_path log_dir v st w
  = (Return (Continue (accept v (duration m) st)),
     mkWorld (fs w) (trace w ++ [Probe v])).
Proof.
  intros H Hd Hf Hr. unfold check_part. unfold mbind at 1, M_bind, bind.
  rewrite (probe_ok _ _ _ H). mrun. rewrite Hd, Hf.
  apply res_neq_false in Hr. unfold resolution in Hr. rewrite Hr.
  reflexivity.
Qed.

Lemma check_part_mismatch (v : Path) (m f : Metadata) (st : LoopState)
    (w : World) :
  ffprobe env v = ProbeOk m →
  (duration m <=? 0)%float = false →
  first_video_metadata st = Some f →
  resolution m ≠ resolution f →
  check_part env videos source_path log_dir v st w
  = (Return (Break (mismatch_found st)),
     mkWorld (mismatch_fs env videos source_path log_dir v m f st (fs w))
             (trace w ++ mismatch_events env videos source_path log_dir v m f st)).
Proof.
  intros H Hd Hf Hr. unfold check_part. unfold mbind at 1, M_bind, bind.
  rewrite (probe_ok _ _ _ H). mrun. rewrite Hd, Hf.
  apply res_neq_true in Hr. unfold resolution in Hr. rewrite Hr.
  unfold write_error_log, mismatch_fs, mismatch_events, mismatch_log,
    mismatch_log_path, ref_name_of, resolution, resolve.
  destruct (can_write env _); mrun; simpl; by rewrite <- !app_assoc.
Qed.

Lemma check_parts_cons (v : Path) (rest : list Path) (st : LoopState)
    (w : World) :
  check_parts env videos source_path log_dir (v :: rest) st w
  = match check_part env videos source_path log_dir v st w with
    | (Return (Continue st'), w') =>
        check_parts env videos source_path log_dir rest st' w'
    | (Return (Break st'), w') => (Return st', w')
    | (Raise e, w') => (Raise e, w')
    end.
Proof.
  simpl. unfold mbind, M_bind, bind.
  destruct (check_part _ _ _ _ _ _ _) as [[[st'|st']|e] w']; reflexivity.
Qed.

Lemma world_app_nil (w : World) : mkWorld (fs w) (trace w ++ []) = w.
Proof. destruct w. simpl. by rewrite app_nil_r. Qed.

Lemma check_parts_uniform (res : Z * Z) (todo rest : list Path) :
  uniform env res todo →
  ∀ (st : LoopState) (w : World),
    (∀ f, first_video_metadata st = Some f → resolution f = res) →
    ∃ evs,
      check_parts env videos source_path log_dir (todo ++ rest) st w
      = check_parts env videos source_path log_dir rest
          (state_after env todo st) (mkWorld (fs w) (trace w ++ evs))
      ∧ probe_calls evs = todo ∧ ffmpeg_calls evs = []
      ∧ Forall no_error evs.
Proof.
  induction 1 as [|p todo (m & Hp & Hres) _ IH]; intros st w Hst.
  - exists []. rewrite world_app_nil. split; [|done].
    unfold state_after, sum_durations, kept. simpl. rewrite app_nil_r.
    destruct st as [t [f|] v r]; reflexivity.
  - simpl app. rewrite check_parts_cons.
    assert (Hu : usable env p = if (duration m <=? 0)%float then None else Some m)
      by (unfold usable, resolve; by rewrite Hp).
    destruct (duration m <=? 0)%float eqn:Hd.
    + rewrite (check_part_skip _ _ _ _ Hp Hd).
      destruct (IH st (mkWorld (fs w) (trace w ++
                  [Probe p; Log WARNING (SkippingZeroDuration (name p))]))
                  Hst) as (evs & Heq & Hpc & Hfc & Hne).
      exists ([Probe p; Log WARNING (SkippingZeroDuration (name p))] ++ evs).
      simpl in Heq. rewrite <- app_assoc in Heq. rewrite Heq.
      split; [|split; [|split]].
      * f_equal. unfold state_after, sum_durations, kept. simpl.
        rewrite Hu. rewrite filter_cons_False; [done|].
        rewrite Hu. by intros [? ?].
      * simpl. by rewrite Hpc.
      * simpl. done.
      * repeat constructor; done.
    + destruct (first_video_metadata st) as [f|] eqn:Hf.
      * rewrite (check_part_match _ _ f _ _ Hp Hd Hf)
          by (rewrite (Hres eq_refl); symmetry; by apply Hst).
        destruct (IH (accept p (duration m) st)
                    (mkWorld (fs w) (trace w ++ [Probe p])))
          as (evs & Heq & Hpc & Hfc & Hne); [simpl; by rewrite Hf|].
        exists ([Probe p] ++ evs).
        simpl in Heq. rewrite <- app_assoc in Heq. rewrite Heq.
        split; [|split; [|split]].
        -- f_equal. unfold state_after, sum_durations, kept. simpl.
           rewrite Hu, Hf. simpl. rewrite filter_cons_True by (by rewrite Hu).
           by rewrite <- app_assoc.
        -- simpl. by rewrite Hpc.
        -- simpl. done.
        -- repeat constructor; done.
      * rewrite (check_part_first _ _ _ _ Hp Hd Hf).
        destruct (IH (accept p (duration m) (set_reference m st))
                    (mkWorld (fs w) (trace w ++
                       [Probe p;
                        Log INFO (ReferenceSet (name p) (width m) (height m))])))
          as (evs & Heq & Hpc & Hfc & Hne).
        { simpl. intros f [= <-]. by apply Hres. }
        exists ([Probe p;
                 Log INFO (ReferenceSet (name p) (width m) (height m))] ++ evs).
        simpl in Heq. rewrite <- app_assoc in Heq. rewrite Heq.
        split; [|split; [|split]].
        -- f_equal. unfold state_after, sum_durations, kept. simpl.
           rewrite Hu, Hf. simpl. rewrite filter_cons_True by (by rewrite Hu).
           by rewrite <- app_assoc.
        -- simpl. by rewrite Hpc.
        -- simpl. done.
        -- repeat constructor; done.
Qed.

Lemma kept_head (ps : list Path) :
  kept env ps ≠ [] → ∃ m, head (omap (usable env) ps) = Some m.
Proof.
  induction ps as [|p ps IH]; [done|]. unfold kept in *. simpl.
  destruct (usable env p) as [m|] eqn:Hu.
  - intros _. by exists m.
  - rewrite filter_cons_False by (rewrite Hu; by intros [? ?]). exact IH.
Qed.

Lemma kept_not_skipped (ps : list Path) (p : Path) (m : Metadata) :
  ffprobe env p = ProbeOk m → (duration m <=? 0)%float = true → p ∉ kept env ps.
Proof.
  intros Hp Hd. unfold kept. rewrite list_elem_of_filter.
  unfold usable, resolve. rewrite Hp, Hd. by intros [[? ?] _].
Qed.

(** The first [try] block on a folder whose parts are all probed and
    whose kept parts have one resolution. *)
Lemma metadata_check_uniform (res : Z * Z) (w : World) :
  uniform env res videos →
  ∃ evs,
    metadata_check env videos source_path log_dir w
    = (Return (match kept env videos with
               | [] => None
               | _ :: _ => Some (kept env videos, sum_durations env 0 videos)
               end),
       mkWorld (fs w) (trace w ++ evs))
    ∧ probe_calls evs = videos ∧ ffmpeg_calls evs = []
    ∧ match kept env videos with
      | [] => last evs = Some (Log ERROR (NoValidParts (name source_path)))
      | _ :: _ => Forall no_error evs
      end.
Proof.
  intros Hu.
  destruct (check_parts_uniform res videos [] Hu loop_init
              (mkWorld (fs w)
                 (trace w ++ [Log INFO (CheckingResolution (length videos)
                                          (name source_path))])))
    as (evs & Heq & Hpc & Hfc & Hne); [simpl; congruence|].
  rewrite app_nil_r in Heq. simpl in Heq.
  unfold metadata_check. mrun. rewrite Heq. mrun. simpl.
  destruct (kept env videos) as [|v0 l] eqn:Hk.
  - mrun. simpl.
    exists ([Log INFO (CheckingResolution (length videos) (name source_path))]
            ++ evs ++ [Log ERROR (NoValidParts (name source_path))]).
    rewrite <- !app_assoc. simpl. split; [done|].
    rewrite probe_calls_app, ffmpeg_calls_app, Hpc, Hfc. simpl.
    rewrite app_nil_r. repeat split. rewrite app_comm_cons. apply last_snoc.
  - destruct (kept_head videos) as [m Hm]; [by rewrite Hk|]. rewrite Hm.
    destruct (_ <? _)%nat; mrun; simpl.
    + exists ([Log INFO (CheckingResolution (length videos) (name source_path))]
              ++ evs
              ++ [Log WARNING (PartsSkipped (S (length l)) (length videos)
                                 (name source_path));
                  Log INFO (ResolutionPassed (name source_path)
                              (width m) (height m))]).
      rewrite <- !app_assoc. simpl. split; [done|].
      rewrite probe_calls_app, ffmpeg_calls_app, Hpc, Hfc. simpl.
      rewrite app_nil_r. repeat split.
      constructor; [done|]. apply Forall_app. split; [done|].
      repeat constructor.
    + exists ([Log INFO (CheckingResolution (length videos) (name source_path))]
              ++ evs
              ++ [Log INFO (ResolutionPassed (name source_path)
                              (width m) (height m))]).
      rewrite <- !app_assoc. simpl. split; [done|].
      rewrite probe_calls_app, ffmpeg_calls_app, Hpc, Hfc. simpl.
      rewrite app_nil_r. repeat split.
      constructor; [done|]. apply Forall_app. split; [done|].
      repeat constructor.
Qed.

End Validation.

(** ** Skipped parts *)

Section Skipping.

Variable env : Env.
Variables (videos : list Path) (source_path log_dir : Path).

(** Which way an iteration goes depends on the oracles and on the loop
    variables only, not on the files or on the trace. *)
Lemma check_part_outcome (v : Path) (st : LoopState) (w1 w2 : World) :
  (check_part env videos source_path log_dir v st w1).1
  = (check_part env videos source_path log_dir v st w2).1.
Proof.
  unfold check_part, _get_video_metadata_ffprobe, _run_command, run_of_probe,
    write_error_log, resolve.
  mrun.
  destruct (ffprobe env v); cbn; try reflexivity;
    repeat (case_match; simplify_eq; cbn; try reflexivity).
Qed.

Lemma check_parts_outcome (todo : list Path) :
  ∀ (st : LoopState) (w1 w2 : World),
    (check_parts env videos source_path log_dir todo st w1).1
    = (check_parts env videos source_path log_dir todo st w2).1.
Proof.
  induction todo as [|p todo IH]; intros st w1 w2; [reflexivity|].
  rewrite !check_parts_cons.
  pose proof (check_part_outcome p st w1 w2) as H.
  destruct (check_part env videos source_path log_dir p st w1)
    as [[[st1|st1]|e1] w1'];
    destruct (check_part env videos source_path log_dir p st w2)
      as [[[st2|st2]|e2] w2']; simpl in H; try discriminate;
    injection H as ->; [apply IH | reflexivity | reflexivity].
Qed.

Lemma check_parts_insert_skipped (v : Path) (m : Metadata)
    (pre post : list Path) :
  ffprobe env v = ProbeOk m →
  (duration m <=? 0)%float = true →
  ∀ (st : LoopState) (w1 w2 : World),
    (check_parts env videos source_path log_dir (pre ++ v :: post) st w1).1
    = (check_parts env videos source_path log_dir (pre ++ post) st w2).1.
Proof.
  intros Hp Hd. induction pre as [|p pre IH]; intros st w1 w2; simpl app.
  - rewrite check_parts_cons, (check_part_skip _ _ _ _ _ _ _ _ Hp Hd).
    apply check_parts_outcome.
  - rewrite !check_parts_cons.
    pose proof (check_part_outcome p st w1 w2) as H.
    destruct (check_part env videos source_path log_dir p st w1)
      as [[[st1|st1]|e1] w1'];
      destruct (check_part env videos source_path log_dir p st w2)
        as [[[st2|st2]|e2] w2']; simpl in H; try discriminate;
      injection H as ->; [apply IH | reflexivity | reflexivity].
Qed.

End Skipping.

(** ** Claims on the scans and on the validation *)

(** C2, as amended. No folder whose name begins with an underscore or a dot
    is in the list of [get_dirs]. [get_videos] looks at the kind and at the
    extension of an entry only: it lists exactly the regular files of the
    folder whose lower-cased extension is [mp4] or [mkv], whatever their
    first character. *)
Theorem scans_filter_folders_by_prefix_files_by_extension
    (env : Env) (d : Path) (w : World) :
  Forall (fun p => Str.startswith ["_"; "."]%string (name p) = false)
         (returned (get_dirs env d w))
  ∧ ∀ p, p ∈ returned (get_videos env d w) ↔
         is_dir (fs w) d = true ∧ can_list env d = true ∧
         p ∈ entries (fs w) d ∧ is_file (fs w) p = true ∧
         Str.mem (Str.tail (Str.lower (suffix p))) VIDEO_EXTENSIONS = true.
Proof.
  split.
  - apply Forall_forall. intros p Hp. apply get_dirs_elem in Hp. tauto.
  - intros p. apply get_videos_elem.
Qed.

(** C2 as stated fails for files: [get_videos] lists [.hidden.mkv] and
    [_intro.mp4] of the sample folder [D]. *)
Lemma get_videos_lists_prefixed_files :
  ¬ Forall (fun p => Str.startswith ["_"; "."]%string (name p) = false)
           (returned (get_videos (Sample.env FfOk true) Sample.folder_D
                                 Sample.world)).
Proof.
  intros H.
  assert (Hin : Sample.folder_D // "_intro.mp4"
                ∈ returned (get_videos (Sample.env FfOk true) Sample.folder_D
                                       Sample.world)).
  { vm_compute. apply list_elem_of_further, list_elem_of_here. }
  rewrite Forall_forall in H. specialize (H _ Hin). vm_compute in H.
  discriminate.
Qed.

(** C3. When the output path [<outputDir>/<folderName><ext of first part>]
    exists, [merge_video] returns [True] at once: the file system is left
    as it is (nothing is overwritten), and the only event is the log record
    of the skip, so ffprobe and ffmpeg are not run. *)
Theorem existing_output_is_kept
    (env : Env) (v : Path) (rest : list Path)
    (source_path output_dir log_dir : Path) (w : World) :
  path_exists (fs w) (output_path_of v source_path output_dir) = true →
  ∃ w',
    merge_video env (v :: rest) source_path output_dir log_dir w
    = (Return true, w')
    ∧ fs w' = fs w
    ∧ trace w' = trace w ++
        [Log INFO (AlreadyExists
                     (name (output_path_of v source_path output_dir)))]
    ∧ probe_calls (trace w') = probe_calls (trace w)
    ∧ ffmpeg_calls (trace w') = ffmpeg_calls (trace w).
Proof.
  intros H. eexists. unfold merge_video. mrun. rewrite H. mrun.
  split; [reflexivity|]. simpl.
  rewrite probe_calls_app, ffmpeg_calls_app. simpl.
  by rewrite !app_nil_r.
Qed.

Lemma existing_output_is_kept_witness :
  ∃ w',
    merge_video (Sample.env FfOk true) Sample.parts_E Sample.folder_E
      Sample.out_dir Sample.logs Sample.world
    = (Return true, w')
    ∧ fs w' = fs Sample.world
    ∧ trace w' = trace Sample.world ++ [Log INFO (AlreadyExists "E.mp4")]
    ∧ probe_calls (trace w') = probe_calls (trace Sample.world)
    ∧ ffmpeg_calls (trace w') = ffmpeg_calls (trace Sample.world).
Proof.
  apply (existing_output_is_kept (Sample.env FfOk true)
           (Sample.folder_E // "1.mp4") [] Sample.folder_E Sample.out_dir
           Sample.logs Sample.world).
  vm_compute. reflexivity.
Defined.

Lemma all_positive_kept (env : Env) (res : Z * Z)
    (videos : list Path) (metas : list Metadata) :
  Forall2 (fun p m => ffprobe env p = ProbeOk m ∧
                      (0 <? duration m)%float = true ∧
                      resolution m = res) videos metas →
  uniform env res videos ∧ omap (usable env) videos = metas
  ∧ kept env videos = videos.
Proof.
  induction 1 as [|p m videos metas (Hp & Hd & Hr) _ (IH1 & IH2 & IH3)].
  - repeat split. constructor.
  - apply positive_not_leb_zero in Hd.
    assert (Hu : usable env p = Some m)
      by (unfold usable, resolve; by rewrite Hp, Hd).
    split; [|split].
    + constructor; [|done]. by exists m.
    + simpl. rewrite Hu. f_equal. exact IH2.
    + unfold kept in *. rewrite filter_cons_True by (by rewrite Hu).
      by rewrite IH3.
Qed.

(** C5. When every part of a folder [v0 :: rest] is probed with one
    resolution and a duration above zero, the validation hands all the
    parts to the merge, in the order it got them, with the sum of their
    durations, added up from [0.0] part by part in binary64 as Python
    does. No file is written and each part is probed once. *)
Theorem validation_keeps_all_positive_parts
    (env : Env) (v0 : Path) (rest : list Path) (metas : list Metadata)
    (res : Z * Z) (source_path log_dir : Path) (w : World) :
  Forall2 (fun p m => ffprobe env p = ProbeOk m ∧
                      (0 <? duration m)%float = true ∧
                      resolution m = res) (v0 :: rest) metas →
  ∃ w',
    metadata_check env (v0 :: rest) source_path log_dir w
    = (Return (Some (v0 :: rest,
                     fold_left (fun a m => (a + duration m)%float) metas
                               0%float)), w')
    ∧ fs w' = fs w
    ∧ probe_calls (trace w') = probe_calls (trace w) ++ v0 :: rest.
Proof.
  intros H.
  destruct (all_positive_kept env res _ metas H) as (Hu & Hm & Hk).
  destruct (metadata_check_uniform env _ source_path log_dir res w Hu)
    as (evs & Heq & Hpc & _).
  rewrite Hk in Heq. unfold sum_durations in Heq. rewrite Hm in Heq.
  eexists. split; [exact Heq|]. simpl. split; [done|].
  by rewrite probe_calls_app, Hpc.
Qed.

Lemma validation_keeps_all_positive_parts_witness :
  ∃ w',
    metadata_check (Sample.env FfOk true) Sample.parts_A Sample.folder_A
      Sample.logs Sample.world
    = (Return (Some (Sample.parts_A, 75%float)), w')
    ∧ fs w' = fs Sample.world
    ∧ probe_calls (trace w')
      = probe_calls (trace Sample.world) ++ Sample.parts_A.
Proof.
  apply (validation_keeps_all_positive_parts (Sample.env FfOk true)
           (Sample.folder_A // "1.mp4") [Sample.folder_A // "2.mp4"]
           [Sample.full_hd 30; Sample.full_hd 45] (1920, 1080)%Z
           Sample.folder_A Sample.logs Sample.world).
  repeat constructor.
Defined.

Lemma merge_video_fresh (env : Env) (v : Path) (rest : list Path)
    (source_path output_dir log_dir : Path) (w : World) :
  path_exists (fs w) (output_path_of v source_path output_dir) = false →
  merge_video env (v :: rest) source_path output_dir log_dir w
  = match metadata_check env (v :: rest) source_path log_dir w with
    | (Return None, w') => (Return false, w')
    | (Return (Some (valid, total)), w') =>
        merge_process env valid total (name source_path)
          (output_path_of v source_path output_dir) log_dir w'
    | (Raise e, w') => (Raise e, w')
    end.
Proof.
  intros H. unfold merge_video. mrun. rewrite H.
  destruct (metadata_check _ _ _ _ _) as [[[[valid total]|]|e] w'];
    reflexivity.
Qed.

(** C9. In a folder whose parts are all probed and whose kept parts share a
    resolution, a part of duration [<= 0] is left out of the merge set and
    the validation goes on: when a part is kept, the validation succeeds
    without any error record and [merge_video] goes on to merge the kept
    parts, with the sum of their durations; when none is kept, and only
    then, the validation fails, its last record being the one that says no
    valid part was found. *)
Theorem nonpositive_parts_are_left_out
    (env : Env) (videos : list Path) (res : Z * Z)
    (source_path log_dir : Path) (w : World) :
  uniform env res videos →
  ∃ evs,
    metadata_check env videos source_path log_dir w
    = (Return (match kept env videos with
               | [] => None
               | _ :: _ => Some (kept env videos, sum_durations env 0 videos)
               end),
       mkWorld (fs w) (trace w ++ evs))
    ∧ probe_calls evs = videos
    ∧ ffmpeg_calls evs = []
    ∧ (∀ p m, ffprobe env p = ProbeOk m → (duration m <=? 0)%float = true →
              p ∉ kept env videos)
    ∧ match kept env videos with
      | [] => last evs = Some (Log ERROR (NoValidParts (name source_path)))
      | _ :: _ =>
          Forall no_error evs
          ∧ ∀ v rest output_dir,
              videos = v :: rest →
              path_exists (fs w) (output_path_of v source_path output_dir)
              = false →
              merge_video env videos source_path output_dir log_dir w
              = merge_process env (kept env videos)
                  (sum_durations env 0 videos) (name source_path)
                  (output_path_of v source_path output_dir) log_dir
                  (mkWorld (fs w) (trace w ++ evs))
      end.
Proof.
  intros Hu.
  destruct (metadata_check_uniform env videos source_path log_dir res w Hu)
    as (evs & Heq & Hpc & Hfc & Hlast).
  exists evs. split; [exact Heq|]. split; [exact Hpc|]. split; [exact Hfc|].
  split; [intros p m; apply kept_not_skipped|].
  destruct (kept env videos) as [|k ks]; [exact Hlast|].
  split; [exact Hlast|].
  intros v rest output_dir -> Hfresh.
  by rewrite (merge_video_fresh _ _ _ _ _ _ _ Hfresh), Heq.
Qed.

Lemma sample_C_uniform :
  uniform (Sample.env FfOk true) (1920, 1080)%Z Sample.parts_C.
Proof.
  unfold uniform, Sample.parts_C.
  repeat (constructor;
          [eexists; split;
           [vm_compute; reflexivity
           | vm_compute; intros; first [discriminate | reflexivity]] |]).
  constructor.
Defined.

Lemma nonpositive_parts_are_left_out_witness :
  ∃ evs,
    metadata_check (Sample.env FfOk true) Sample.parts_C Sample.folder_C
      Sample.logs Sample.world
    = (Return (Some ([Sample.folder_C // "1.mp4"], 12.5%float)),
       mkWorld (fs Sample.world) (trace Sample.world ++ evs))
    ∧ probe_calls evs = Sample.parts_C.
Proof.
  destruct (nonpositive_parts_are_left_out (Sample.env FfOk true) Sample.parts_C
              (1920, 1080)%Z Sample.folder_C Sample.logs Sample.world
              sample_C_uniform) as (evs & H1 & H2 & _).
  exists evs. split; [exact H1 | exact H2].
Defined.

(** C10. The test [current_duration <= 0] comes before any look at the
    resolution: an iteration on a part of duration [<= 0] ends in
    [continue] with the loop variables as they were, whatever the width and
    height of the part and whatever the reference; so the loop ends in the
    same way, with the same variables, as it does on the list without that
    part. *)
Theorem nonpositive_part_never_reaches_resolution_check
    (env : Env) (videos : list Path) (source_path log_dir : Path)
    (v : Path) (m : Metadata) :
  ffprobe env v = ProbeOk m →
  (duration m <=? 0)%float = true →
  (∀ st w,
     check_part env videos source_path log_dir v st w
     = (Return (Continue st),
        mkWorld (fs w)
          (trace w ++ [Probe v; Log WARNING (SkippingZeroDuration (name v))])))
  ∧ (∀ pre post st w1 w2,
       (check_parts env videos source_path log_dir (pre ++ v :: post) st w1).1
       = (check_parts env videos source_path log_dir (pre ++ post) st w2).1).
Proof.
  intros Hp Hd. split.
  - intros st w. by apply check_part_skip with (m := m).
  - intros pre post. by apply check_parts_insert_skipped with (m := m).
Qed.

Lemma nonpositive_part_never_reaches_resolution_check_witness :
  (∀ st w,
     check_part (Sample.env FfOk true) Sample.parts_C Sample.folder_C Sample.logs
       (Sample.folder_C // "0.mp4") st w
     = (Return (Continue st),
        mkWorld (fs w)
          (trace w ++ [Probe (Sample.folder_C // "0.mp4");
                       Log WARNING (SkippingZeroDuration "0.mp4")])))
  ∧ (∀ pre post st w1 w2,
       (check_parts (Sample.env FfOk true) Sample.parts_C Sample.folder_C
          Sample.logs (pre ++ (Sample.folder_C // "0.mp4") :: post) st w1).1
       = (check_parts (Sample.env FfOk true) Sample.parts_C Sample.folder_C
            Sample.logs (pre ++ post) st w2).1).
Proof.
  apply (nonpositive_part_never_reaches_resolution_check (Sample.env FfOk true)
           Sample.parts_C Sample.folder_C Sample.logs
           (Sample.folder_C // "0.mp4") (mkMetadata 0 640 480)).
  - vm_compute. reflexivity.
  - vm_compute. reflexivity.
Defined.

(** ** Resolution mismatch *)

Lemma usable_Some (env : Env) (p : Path) (m : Metadata) :
  usable env p = Some m ↔
  ffprobe env p = ProbeOk m ∧ (duration m <=? 0)%float = false.
Proof.
  unfold usable, resolve. split.
  - destruct (ffprobe env p) as [m'| | | | | |]; try discriminate.
    destruct (duration m' <=? 0)%float eqn:Hd; [discriminate|].
    by intros [= ->].
  - intros [-> ->]. reflexivity.
Qed.

Lemma metadata_check_mismatch (env : Env) (videos : list Path)
    (source_path log_dir : Path) (pre : list Path) (v : Path)
    (post : list Path) (m ref : Metadata) (w : World) :
  videos = pre ++ v :: post →
  uniform env (resolution ref) pre →
  head (omap (usable env) pre) = Some ref →
  usable env v = Some m →
  resolution m ≠ resolution ref →
  ∃ evs,
    metadata_check env videos source_path log_dir w
    = (Return None,
       mkWorld (mismatch_fs env videos source_path log_dir v m ref
                  (state_after env pre loop_init) (fs w))
               (trace w ++ evs))
    ∧ probe_calls evs = pre ++ [v]
    ∧ ffmpeg_calls evs = []
    ∧ Log ERROR (ResolutionMismatch (name source_path)) ∈ evs.
Proof.
  intros Hv Hu Href Hm Hr. apply usable_Some in Hm as [Hp Hd].
  destruct (check_parts_uniform env videos source_path log_dir
              (resolution ref) pre (v :: post) Hu loop_init
              (mkWorld (fs w)
                 (trace w ++ [Log INFO (CheckingResolution (length videos)
                                          (name source_path))])))
    as (evs & Heq & Hpc & Hfc & _); [simpl; congruence|].
  rewrite <- Hv in Heq.
  rewrite check_parts_cons in Heq.
  rewrite (check_part_mismatch env videos source_path log_dir v m ref) in Heq;
    [|done|done|by (simpl; rewrite Href)|done].
  simpl in Heq.
  unfold metadata_check. mrun. rewrite Heq. mrun. simpl.
  exists ([Log INFO (CheckingResolution (length videos) (name source_path))]
          ++ evs
          ++ mismatch_events env videos source_path log_dir v m ref
               (state_after env pre loop_init)).
  rewrite <- !app_assoc. split; [done|].
  rewrite !probe_calls_app, !ffmpeg_calls_app, Hpc, Hfc.
  unfold mismatch_events.
  rewrite !probe_calls_app, !ffmpeg_calls_app.
  repeat split.
  - simpl. destruct (can_write env _); simpl; by rewrite ?app_nil_r.
  - simpl. destruct (can_write env _); reflexivity.
  - rewrite !elem_of_app. right. right. left.
    apply list_elem_of_further, list_elem_of_here.
Qed.

Lemma first_mismatch (env : Env) (ref : Metadata) (videos : list Path) :
  Forall (fun p => ∃ m, ffprobe env p = ProbeOk m) videos →
  Exists (fun p => ∃ m, usable env p = Some m ∧
                        resolution m ≠ resolution ref) videos →
  ∃ pre v post m,
    videos = pre ++ v :: post ∧ uniform env (resolution ref) pre
    ∧ usable env v = Some m ∧ resolution m ≠ resolution ref.
Proof.
  induction 1 as [|p videos [mp Hp] Hall IH]; intros Hex.
  - by apply Exists_nil in Hex.
  - destruct (duration mp <=? 0)%float eqn:Hd.
    + (* skipped: the mismatch is further on *)
      apply Exists_cons in Hex as [(m & Hm & _)|Hex].
      { apply usable_Some in Hm as [Hm1 Hm2]. congruence. }
      destruct (IH Hex) as (pre & v & post & m & -> & Hu & Hm & Hr).
      exists (p :: pre), v, post, m. repeat split; [|done|done].
      constructor; [|done]. exists mp. split; [done|congruence].
    + destruct (decide (resolution mp = resolution ref)) as [Heq|Hne].
      * apply Exists_cons in Hex as [(m & Hm & Hr)|Hex].
        { apply usable_Some in Hm as [Hm1 Hm2]. congruence. }
        destruct (IH Hex) as (pre & v & post & m & -> & Hu & Hm & Hr).
        exists (p :: pre), v, post, m. repeat split; [|done|done].
        constructor; [|done]. by exists mp.
      * exists [], p, videos, mp. repeat split; [constructor| |done].
        by apply usable_Some.
Qed.

Lemma reference_in_prefix (env : Env) (pre : list Path) (v : Path)
    (post : list Path) (m ref : Metadata) :
  head (omap (usable env) (pre ++ v :: post)) = Some ref →
  usable env v = Some m →
  resolution m ≠ resolution ref →
  head (omap (usable env) pre) = Some ref.
Proof.
  rewrite omap_app. simpl. intros Href Hm Hr. rewrite Hm in Href.
  destruct (omap (usable env) pre) as [|x l]; [|exact Href].
  simpl in Href. congruence.
Qed.

(** C4. Take a folder whose output is not there yet and in which some
    part [v] of positive duration has a width or a height other than the
    reference's - the resolution [ref] of the first part of positive
    duration - all the parts before [v] being probed. Then [merge_video]
    returns [False] on a resolution mismatch: the loop stops at the first
    such part [v'] (the parts after it are not probed), the mismatch is
    logged, the mismatch log is written when the system lets it, and
    ffmpeg is not run. *)
Theorem resolution_mismatch_stops_before_merge
    (env : Env) (v0 : Path) (rest : list Path) (ref : Metadata)
    (source_path output_dir log_dir : Path) (w : World)
    (pre : list Path) (v : Path) (post : list Path) (m : Metadata) :
  path_exists (fs w) (output_path_of v0 source_path output_dir) = false →
  v0 :: rest = pre ++ v :: post →
  Forall (fun p => ∃ mp, ffprobe env p = ProbeOk mp) pre →
  head (omap (usable env) (v0 :: rest)) = Some ref →
  usable env v = Some m →
  resolution m ≠ resolution ref →
  ∃ pre' v' post' m' evs w',
    v0 :: rest = pre' ++ v' :: post'
    ∧ uniform env (resolution ref) pre'
    ∧ usable env v' = Some m' ∧ resolution m' ≠ resolution ref
    ∧ merge_video env (v0 :: rest) source_path output_dir log_dir w
      = (Return false, w')
    ∧ trace w' = trace w ++ evs
    ∧ probe_calls evs = pre' ++ [v']
    ∧ ffmpeg_calls evs = []
    ∧ Log ERROR (ResolutionMismatch (name source_path)) ∈ evs
    ∧ (can_write env (mismatch_log_path source_path log_dir) = true →
       fs w' !! mismatch_log_path source_path log_dir
       = Some (NFile (mismatch_log (v0 :: rest) source_path v' m' ref
                        (state_after env pre' loop_init)))).
Proof.
  intros Hfresh Hsplit Hall Href Hm Hr.
  assert (Hall' : Forall (fun p => ∃ mp, ffprobe env p = ProbeOk mp)
                    (pre ++ [v])).
  { apply Forall_app. split; [done|]. constructor; [|constructor].
    apply usable_Some in Hm as [Hm _]. by exists m. }
  assert (Hex : Exists (fun p => ∃ m, usable env p = Some m ∧
                                      resolution m ≠ resolution ref)
                  (pre ++ [v])).
  { apply Exists_app. right. apply Exists_cons_hd. by exists m. }
  destruct (first_mismatch env ref _ Hall' Hex)
    as (pre' & v' & post' & m' & Hv & Hu & Hm' & Hr').
  assert (Hsplit' : v0 :: rest = pre' ++ v' :: (post' ++ post)).
  { rewrite Hsplit.
    transitivity ((pre ++ [v]) ++ post); [by rewrite <- app_assoc|].
    rewrite Hv. by rewrite <- app_assoc. }
  assert (Hpre : head (omap (usable env) pre') = Some ref).
  { rewrite Hsplit' in Href. by eapply reference_in_prefix. }
  destruct (metadata_check_mismatch env (v0 :: rest) source_path log_dir
              pre' v' (post' ++ post) m' ref w Hsplit' Hu Hpre Hm' Hr')
    as (evs & Heq & Hpc & Hfc & Hin).
  exists pre', v', (post' ++ post), m', evs. eexists.
  split; [exact Hsplit'|]. split; [exact Hu|].
  split; [exact Hm'|]. split; [exact Hr'|].
  rewrite (merge_video_fresh _ _ _ _ _ _ _ Hfresh), Heq.
  split; [reflexivity|]. simpl.
  split; [reflexivity|]. split; [exact Hpc|]. split; [exact Hfc|].
  split; [exact Hin|].
  intros Hw. unfold mismatch_fs. rewrite Hw. apply lookup_insert_eq.
Qed.

Lemma resolution_mismatch_stops_before_merge_witness :
  ∃ pre' v' post' m' evs w',
    Sample.parts_B = pre' ++ v' :: post'
    ∧ uniform (Sample.env FfOk true)
        (resolution (mkMetadata 10 1280 720)) pre'
    ∧ usable (Sample.env FfOk true) v' = Some m'
    ∧ resolution m' ≠ resolution (mkMetadata 10 1280 720)
    ∧ merge_video (Sample.env FfOk true) Sample.parts_B Sample.folder_B
        Sample.out_dir Sample.logs Sample.world
      = (Return false, w')
    ∧ trace w' = trace Sample.world ++ evs
    ∧ probe_calls evs = pre' ++ [v']
    ∧ ffmpeg_calls evs = []
    ∧ Log ERROR (ResolutionMismatch "B") ∈ evs
    ∧ (can_write (Sample.env FfOk true)
         (mismatch_log_path Sample.folder_B Sample.logs) = true →
       fs w' !! mismatch_log_path Sample.folder_B Sample.logs
       = Some (NFile (mismatch_log Sample.parts_B Sample.folder_B v' m'
                        (mkMetadata 10 1280 720)
                        (state_after (Sample.env FfOk true) pre'
                           loop_init)))).
Proof.
  apply (resolution_mismatch_stops_before_merge (Sample.env FfOk true)
           (Sample.folder_B // "1.mp4") [Sample.folder_B // "2.mp4"]
           (mkMetadata 10 1280 720) Sample.folder_B Sample.out_dir
           Sample.logs Sample.world
           [Sample.folder_B // "1.mp4"] (Sample.folder_B // "2.mp4") []
           (Sample.full_hd 10)).
  - vm_compute. reflexivity.
  - reflexivity.
  - repeat (constructor; [eexists; vm_compute; reflexivity|]). constructor.
  - vm_compute. reflexivity.
  - vm_compute. reflexivity.
  - vm_compute. discriminate.
Defined.

(** ** The merge *)

Ltac mstep := mrun; cbn [fs trace fst snd].

Lemma path_exists_false (f : FS) (p : Path) :
  path_exists f p = false ↔ f !! p = None.
Proof.
  unfold path_exists. rewrite bool_decide_eq_false.
  by rewrite eq_None_not_Some.
Qed.

Lemma map_resolve (l : list Path) : map resolve l = l.
Proof. induction l as [|p l IH]; simpl; [done|]. by rewrite IH. Qed.

Section Merge.

Variable env : Env.
Variables (valid : list Path) (total : float) (folder_name : string).
Variables (out log_dir : Path).

Lemma merge_handler_returns (e : Exn) (w : World) :
  ∃ b w', merge_handler env folder_name out log_dir e w = (Return b, w').
Proof.
  unfold merge_handler, write_error_log.
  destruct e; mstep; repeat (case_match; simplify_eq); eauto.
Qed.

(** The [finally] clause never raises. *)
Lemma cleanup_returns (w : World) :
  ∃ w', cleanup env folder_name w = (Return (), w').
Proof.
  unfold cleanup. destruct (list_file_path env folder_name) as [lf|]; [|eauto].
  mstep. destruct (path_exists (fs w) lf); [|eauto].
  destruct (can_unlink env lf); eauto.
Qed.

(** The [finally] clause once the list file was made: the file is gone,
    or its removal was refused and a warning is the last record. *)
Lemma cleanup_spec (lf : Path) (w : World) :
  list_file_path env folder_name = Some lf →
  ∃ evs f',
    cleanup env folder_name w = (Return (), mkWorld f' (trace w ++ evs))
    ∧ (f' = fs w ∨ f' = delete lf (fs w))
    ∧ (f' !! lf = None
       ∨ (can_unlink env lf = false
          ∧ evs = [Log WARNING (CouldNotDeleteTemp lf)]))
    ∧ probe_calls evs = [] ∧ ffmpeg_calls evs = [] ∧ Forall no_error evs.
Proof.
  intros Hl. unfold cleanup. rewrite Hl. mstep.
  destruct (path_exists (fs w) lf) eqn:He;
    [destruct (can_unlink env lf) eqn:Hu|].
  - exists [], (delete lf (fs w)). rewrite app_nil_r.
    repeat split; [by right|left; apply lookup_delete_eq|constructor].
  - exists [Log WARNING (CouldNotDeleteTemp lf)], (fs w).
    repeat split; [by left|by right|repeat constructor].
  - exists [], (fs w). rewrite app_nil_r. destruct w.
    repeat split; [by left|left; by apply path_exists_false|constructor].
Qed.

(** The second [try] block never lets an exception out. *)
Lemma merge_process_returns (w : World) :
  ∃ b w', merge_process env valid total folder_name out log_dir w
          = (Return b, w').
Proof.
  unfold merge_process, try_finally, try_except.
  destruct (merge_steps env valid total folder_name out w) as [[b|e] w1].
  - destruct (cleanup_returns w1) as (w' & ->). eauto.
  - destruct (merge_handler_returns e w1) as (b & w2 & ->).
    destruct (cleanup_returns w2) as (w' & ->). eauto.
Qed.

End Merge.

Section MergePaths.

Variable env : Env.
Variables (valid : list Path) (total : float) (folder_name : string).
Variables (out log_dir : Path).
Variables (dir : Path) (unique : string).
Hypothesis Hmk :
  mktemp env (list_prefix folder_name) = TmpCreated dir unique true.

Local Abbreviation lf := (temp_path dir (list_prefix folder_name) unique).

Lemma list_file_path_created : list_file_path env folder_name = Some lf.
Proof using Hmk. unfold list_file_path. by rewrite Hmk. Qed.

Lemma merge_steps_exit (stderr : string) (partial : bool) (w : World) :
  ffmpeg env valid out = FfExit stderr partial →
  merge_steps env valid total folder_name out w
  = (Raise (CalledProcessError stderr),
     mkWorld (if partial
              then <[out := NFile (Merged valid false)]>
                     (with_list_file lf valid (fs w))
              else with_list_file lf valid (fs w))
             (trace w ++ [Log INFO (StartingMerge folder_name);
                          Ffmpeg lf out;
                          Log ERROR (CommandFailed "ffmpeg");
                          Log ERROR (CommandStderr "ffmpeg")])).
Proof using Hmk.
  intros Hff. unfold merge_steps, create_list_file, run_ffmpeg.
  rewrite Hmk. mstep. unfold manifest_of.
  rewrite lookup_insert_eq, map_resolve, Hff.
  unfold _run_command, run_of_ffmpeg, with_list_file, resolve.
  destruct partial; mstep; by rewrite <- !app_assoc.
Qed.

Lemma merge_steps_missing (w : World) :
  ffmpeg env valid out = FfToolMissing →
  merge_steps env valid total folder_name out w
  = (Raise FileNotFoundError,
     mkWorld (with_list_file lf valid (fs w))
             (trace w ++ [Log INFO (StartingMerge folder_name);
                          Ffmpeg lf out;
                          Log ERROR (CommandNotFound "ffmpeg")])).
Proof using Hmk.
  intros Hff. unfold merge_steps, create_list_file, run_ffmpeg.
  rewrite Hmk. mstep. unfold manifest_of.
  rewrite lookup_insert_eq, map_resolve, Hff.
  unfold _run_command, run_of_ffmpeg, with_list_file, resolve.
  mstep. by rewrite <- !app_assoc.
Qed.

Lemma merge_steps_ok (w : World) :
  ffmpeg env valid out = FfOk →
  ffprobe env out ≠ ProbeToolMissing →
  ffprobe env out ≠ ProbeCrash →
  ∃ evs,
    merge_steps env valid total folder_name out w
    = (Return true,
       mkWorld (<[out := NFile (Merged valid true)]>
                  (with_list_file lf valid (fs w)))
               (trace w ++ [Log INFO (StartingMerge folder_name);
                            Ffmpeg lf out;
                            Log INFO (MergedSaved (name out));
                            Probe out] ++ evs))
    ∧ probe_calls evs = [] ∧ ffmpeg_calls evs = []
    ∧ match ffprobe env out with
      | ProbeOk m =>
          evs = [if (max_allowed_diff total
                     <? duration_diff total (duration m))%float
                 then Log WARNING
                        (DurationMismatch folder_name total (duration m)
                           (duration_diff total (duration m))
                           (max_allowed_diff total))
                 else Log INFO (DurationPassed folder_name)]
      | _ => last evs = Some (Log WARNING (MergedProbeFailed (name out)))
      end.
Proof using Hmk.
  intros Hff Hn1 Hn2.
  unfold merge_steps, create_list_file, run_ffmpeg.
  rewrite Hmk. mstep. unfold manifest_of.
  rewrite lookup_insert_eq, map_resolve, Hff.
  unfold _run_command, run_of_ffmpeg, with_list_file, verify_duration,
    _get_video_metadata_ffprobe, run_of_probe, resolve.
  unfold max_allowed_diff, duration_diff.
  destruct (ffprobe env out) as [m| | | | | |]; [| | | | |done|done];
    mstep; unfold _run_command; mstep.
  - destruct (_ <? _)%float; mstep; eexists;
      (split; [by rewrite <- !app_assoc|done]).
  - eexists. split; [by rewrite <- !app_assoc|done].
  - eexists. split; [by rewrite <- !app_assoc|done].
  - eexists. split; [by rewrite <- !app_assoc|done].
  - eexists. split; [by rewrite <- !app_assoc|done].
Qed.

End MergePaths.

(** ** The output, the list file and the error log are three files *)

Lemma rfind_from_spec (c : ascii) (s : string) :
  ∀ i acc j,
    Str.rfind_from c s i acc = Some j →
    acc = Some j ∨ (i ≤ j ∧ String.get (j - i) s = Some c).
Proof.
  induction s as [|a s IH]; intros i acc j H; simpl in H; [by left|].
  apply IH in H as [H|[Hle Hget]].
  - destruct (Ascii.eqb a c) eqn:Ha; [|by left].
    apply Ascii.eqb_eq in Ha. injection H as ->. subst a. right.
    split; [done|]. by rewrite Nat.sub_diag.
  - right. split; [lia|].
    replace (j - i) with (S (j - S i)) by lia. exact Hget.
Qed.

Lemma from_get (s : string) :
  ∀ i c, String.get i s = Some c → ∃ r, Str.from i s = String c r.
Proof.
  unfold Str.from.
  induction s as [|a s IH]; intros i c H; [by destruct i|].
  destruct i as [|i]; simpl in H.
  - injection H as ->. simpl. eauto.
  - apply IH in H as [r Hr]. exists r. simpl. exact Hr.
Qed.

Lemma suffix_shape (p : Path) :
  suffix p = EmptyString ∨ ∃ r, suffix p = String "." r.
Proof.
  unfold suffix. destruct (Str.rfind "." (name p)) as [i|] eqn:Hr; [|by left].
  destruct (_ && _) eqn:Hc; [|by left]. right.
  apply rfind_from_spec in Hr as [Hr|[_ Hget]]; [done|].
  rewrite Nat.sub_0_r in Hget. by apply from_get.
Qed.

Lemma append_assoc (a b c : string) : (a +:+ b) +:+ c = a +:+ (b +:+ c).
Proof.
  induction a as [|x a IH]; [reflexivity|].
  change (String x ((a +:+ b) +:+ c) = String x (a +:+ (b +:+ c))).
  by rewrite IH.
Qed.

Lemma output_is_no_error_log (v source_path output_dir log_dir : Path) :
  output_path_of v source_path output_dir
  ≠ ffmpeg_error_log (name source_path) log_dir.
Proof.
  unfold output_path_of, ffmpeg_error_log, joinpath. intros H.
  apply app_inj_tail in H as [_ H]. apply (inj (String.app _)) in H.
  destruct (suffix_shape v) as [Hs|[r Hs]]; rewrite Hs in H; discriminate.
Qed.

Lemma list_file_is_no_error_log (dir log_dir : Path)
    (folder_name unique : string) :
  temp_path dir (list_prefix folder_name) unique
  ≠ ffmpeg_error_log folder_name log_dir.
Proof.
  unfold temp_path, list_prefix, ffmpeg_error_log, joinpath. intros H.
  apply app_inj_tail in H as [_ H]. rewrite append_assoc in H.
  apply (inj (String.app _)) in H. discriminate.
Qed.

Lemma list_file_is_no_output (dir v source_path output_dir : Path)
    (unique : string) :
  temp_path dir (list_prefix (name source_path)) unique
  ≠ output_path_of v source_path output_dir.
Proof.
  unfold temp_path, list_prefix, output_path_of, joinpath. intros H.
  apply app_inj_tail in H as [_ H]. rewrite append_assoc in H.
  apply (inj (String.app _)) in H.
  destruct (suffix_shape v) as [Hs|[r Hs]]; rewrite Hs in H; discriminate.
Qed.

(** ** Claims on the merge *)

(** C6, as amended. Once the list file is made, the second [try] block of
    [merge_video] returns - it lets no exception out - and its [finally]
    clause has run, whatever ffmpeg, the probe of the merged file and the
    writing of logs came to: the list file is gone from the file system,
    unless the system refused its removal, and then the warning that says
    so is the last record of the trace. *)
Theorem list_file_is_removed_unless_unlink_fails
    (env : Env) (valid : list Path) (total : float) (folder_name : string)
    (out log_dir dir : Path) (unique : string) (written : bool) (w : World) :
  mktemp env (list_prefix folder_name) = TmpCreated dir unique written →
  ∃ b w',
    merge_process env valid total folder_name out log_dir w = (Return b, w')
    ∧ (fs w' !! temp_path dir (list_prefix folder_name) unique = None
       ∨ (can_unlink env (temp_path dir (list_prefix folder_name) unique)
          = false
          ∧ last (trace w')
            = Some (Log WARNING
                      (CouldNotDeleteTemp
                         (temp_path dir (list_prefix folder_name) unique))))).
Proof.
  intros Hmk.
  assert (Hl : list_file_path env folder_name
               = Some (temp_path dir (list_prefix folder_name) unique))
    by (unfold list_file_path; by rewrite Hmk).
  assert (Hc : ∀ (b : bool) w1, ∃ w',
             try_finally (fun w0 => (Return b, w0)) (cleanup env folder_name) w1
             = (Return b, w')
             ∧ (fs w' !! temp_path dir (list_prefix folder_name) unique = None
                ∨ (can_unlink env
                     (temp_path dir (list_prefix folder_name) unique) = false
                   ∧ last (trace w')
                     = Some (Log WARNING
                               (CouldNotDeleteTemp
                                  (temp_path dir (list_prefix folder_name)
                                     unique)))))).
  { intros b w1. unfold try_finally.
    destruct (cleanup_spec env folder_name _ w1 Hl)
      as (evs & f' & -> & _ & Hgone & _).
    eexists. split; [reflexivity|]. cbn [fs trace].
    destruct Hgone as [Hgone|[Hu ->]]; [by left|right].
    split; [done|]. apply last_snoc. }
  unfold merge_process, try_finally, try_except.
  destruct (merge_steps env valid total folder_name out w) as [[b|e] w1].
  - destruct (Hc b w1) as (w' & Heq & H). unfold try_finally in Heq.
    exists b, w'. by split.
  - destruct (merge_handler_returns env folder_name out log_dir e w1)
      as (b & w2 & ->).
    destruct (Hc b w2) as (w' & Heq & H). unfold try_finally in Heq.
    exists b, w'. by split.
Qed.

Lemma list_file_is_removed_unless_unlink_fails_witness :
  ∃ b w',
    merge_process (Sample.env (FfCrash true) true) Sample.parts_A 75%float
      "A" (Sample.out_dir // "A.mp4") Sample.logs Sample.world
    = (Return b, w')
    ∧ (fs w' !! Sample.temp_file (list_prefix "A") = None
       ∨ (can_unlink (Sample.env (FfCrash true) true)
            (Sample.temp_file (list_prefix "A")) = false
          ∧ last (trace w')
            = Some (Log WARNING
                      (CouldNotDeleteTemp
                         (Sample.temp_file (list_prefix "A")))))).
Proof.
  apply (list_file_is_removed_unless_unlink_fails
           (Sample.env (FfCrash true) true) Sample.parts_A 75%float "A"
           (Sample.out_dir // "A.mp4") Sample.logs ["tmp"]%string "k3x9" true
           Sample.world).
  vm_compute. reflexivity.
Defined.

(** C6 as stated fails when the system refuses the removal: folder [A] of
    the sample is merged, [merge_video]'s second block returns [True], and
    the list file is still there. *)
Lemma list_file_stays_when_unlink_is_refused :
  (merge_process (Sample.env FfOk false) Sample.parts_A 75%float "A"
     (Sample.out_dir // "A.mp4") Sample.logs Sample.world).1
  = Return true
  ∧ fs (merge_process (Sample.env FfOk false) Sample.parts_A 75%float "A"
          (Sample.out_dir // "A.mp4") Sample.logs Sample.world).2
    !! Sample.temp_file (list_prefix "A")
    = Some (NFile (ListFile Sample.parts_A)).
Proof. split; vm_compute; reflexivity. Qed.

(** C7, as amended. When ffmpeg ends with a non-zero exit status, the
    second [try] block of [merge_video] returns [False] and logs the
    failure. Before it returns it writes ffmpeg's stderr (or a fixed line
    when stderr is empty) to [<folder>_ffmpeg_error.log], and removes what
    is at the output path: the log is there afterwards unless the system
    refused the write, no file is left at the output path unless the
    system refused the removal, and either refusal is logged as an
    error. *)
Theorem ffmpeg_failure_is_logged_and_output_removed
    (env : Env) (valid : list Path) (total : float)
    (v source_path output_dir log_dir dir : Path) (unique : string)
    (stderr : string) (partial : bool) (w : World) :
  mktemp env (list_prefix (name source_path)) = TmpCreated dir unique true →
  ffmpeg env valid (output_path_of v source_path output_dir)
  = FfExit stderr partial →
  ∃ evs w',
    merge_process env valid total (name source_path)
      (output_path_of v source_path output_dir) log_dir w
    = (Return false, w')
    ∧ trace w' = trace w ++ evs
    ∧ ffmpeg_calls evs
      = [(temp_path dir (list_prefix (name source_path)) unique,
          output_path_of v source_path output_dir)]
    ∧ Log ERROR (FfmpegFailed (name source_path)) ∈ evs
    ∧ (if can_write env (ffmpeg_error_log (name source_path) log_dir)
       then fs w' !! ffmpeg_error_log (name source_path) log_dir
            = Some (NFile (Text (error_content stderr)))
       else Log ERROR (CouldNotWriteLog
                         (ffmpeg_error_log (name source_path) log_dir)) ∈ evs)
    ∧ (fs w' !! output_path_of v source_path output_dir = None
       ∨ (can_unlink env (output_path_of v source_path output_dir) = false
          ∧ Log ERROR (CouldNotDelete
                         (name (output_path_of v source_path output_dir)))
            ∈ evs)).
Proof.
  intros Hmk Hff.
  pose proof (output_is_no_error_log v source_path output_dir log_dir) as Hne.
  pose proof (list_file_is_no_error_log dir log_dir (name source_path) unique)
    as Hlf.
  pose proof (list_file_path_created env (name source_path) dir unique Hmk)
    as Hl.
  set (out := output_path_of v source_path output_dir) in *.
  set (lf := temp_path dir (list_prefix (name source_path)) unique) in *.
  unfold merge_process, try_finally, try_except.
  rewrite (merge_steps_exit env valid total _ out dir unique Hmk stderr
             partial w Hff).
  unfold merge_handler, write_error_log.
  unfold ffmpeg_error_log in *.
  set (elog := log_dir // (name source_path +:+ "_ffmpeg_error.log")) in *.
  destruct (can_write env elog) eqn:Hcw; mstep.
  - (* the log is written *)
    match goal with
    | |- context [path_exists ?f out] => set (F := f)
    end.
    assert (HF : F !! elog = Some (NFile (Text (error_content stderr))))
      by apply lookup_insert_eq.
    clearbody F.
    destruct (path_exists F out) eqn:He;
      [destruct (can_unlink env out) eqn:Hcu|]; mstep;
      match goal with
      | |- context [cleanup env _ ?W] =>
          destruct (cleanup_spec env (name source_path) lf W Hl)
            as (evs & f' & -> & Hf & _ & Hpc & Hfc & _)
      end;
      cbn [fs trace] in *; eexists; eexists; (split; [reflexivity|]);
      cbn [fs trace]; rewrite <- !app_assoc;
      (split; [reflexivity|]);
      (split; [rewrite !ffmpeg_calls_app, Hfc; reflexivity|]);
      (split; [rewrite !elem_of_app; right; left; apply list_elem_of_here|]).
    + split.
      * destruct Hf as [->| ->]; rewrite ?lookup_delete_ne by done; exact HF.
      * left. destruct Hf as [->| ->]; [apply lookup_delete_eq|].
        apply lookup_delete_None. right. apply lookup_delete_eq.
    + split.
      * destruct Hf as [->| ->]; rewrite ?lookup_delete_ne by done; exact HF.
      * right. split; [done|]. cbn [app].
        repeat first [apply list_elem_of_here | apply list_elem_of_further].
    + apply path_exists_false in He. split.
      * destruct Hf as [->| ->]; rewrite ?lookup_delete_ne by done; exact HF.
      * left. destruct Hf as [->| ->]; [exact He|].
        apply lookup_delete_None. by right.
  - (* the write of the log is refused *)
    match goal with
    | |- context [path_exists ?f out] => set (F := f)
    end.
    clearbody F.
    destruct (path_exists F out) eqn:He;
      [destruct (can_unlink env out) eqn:Hcu|]; mstep;
      match goal with
      | |- context [cleanup env _ ?W] =>
          destruct (cleanup_spec env (name source_path) lf W Hl)
            as (evs & f' & -> & Hf & _ & Hpc & Hfc & _)
      end;
      cbn [fs trace] in *; eexists; eexists; (split; [reflexivity|]);
      cbn [fs trace]; rewrite <- !app_assoc;
      (split; [reflexivity|]);
      (split; [rewrite !ffmpeg_calls_app, Hfc; reflexivity|]);
      (split; [rewrite !elem_of_app; right; left; apply list_elem_of_here|]);
      (split; [cbn [app];
               repeat first [apply list_elem_of_here
                            | apply list_elem_of_further]|]).
    + left. destruct Hf as [->| ->]; [apply lookup_delete_eq|].
      apply lookup_delete_None. right. apply lookup_delete_eq.
    + right. split; [done|]. cbn [app].
      repeat first [apply list_elem_of_here | apply list_elem_of_further].
    + apply path_exists_false in He.
      left. destruct Hf as [->| ->]; [exact He|].
      apply lookup_delete_None. by right.
Qed.

Lemma ffmpeg_failure_is_logged_and_output_removed_witness :
  ∃ evs w',
    merge_process (Sample.env (FfExit "moov atom not found" true) true)
      Sample.parts_A 75%float (name Sample.folder_A)
      (output_path_of (Sample.folder_A // "1.mp4") Sample.folder_A
         Sample.out_dir)
      Sample.logs Sample.world
    = (Return false, w')
    ∧ trace w' = trace Sample.world ++ evs
    ∧ ffmpeg_calls evs
      = [(Sample.temp_file (list_prefix "A"), Sample.out_dir // "A.mp4")]
    ∧ Log ERROR (FfmpegFailed "A") ∈ evs
    ∧ fs w' !! (Sample.logs // "A_ffmpeg_error.log")
      = Some (NFile (Text "moov atom not found"))
    ∧ (fs w' !! (Sample.out_dir // "A.mp4") = None
       ∨ (can_unlink (Sample.env (FfExit "moov atom not found" true) true)
            (Sample.out_dir // "A.mp4") = false
          ∧ Log ERROR (CouldNotDelete "A.mp4") ∈ evs)).
Proof.
  apply (ffmpeg_failure_is_logged_and_output_removed
           (Sample.env (FfExit "moov atom not found" true) true)
           Sample.parts_A 75%float (Sample.folder_A // "1.mp4")
           Sample.folder_A Sample.out_dir Sample.logs ["tmp"]%string "k3x9"
           "moov atom not found" true Sample.world).
  - vm_compute. reflexivity.
  - vm_compute. reflexivity.
Defined.

(** C7 as stated fails when the system refuses the write and the removal:
    ffmpeg fails on folder [A] of the sample and leaves a partial output;
    the block returns [False], the partial output is still there and no
    error log was written. *)
Lemma partial_output_stays_when_unlink_is_refused :
  (merge_process (Sample.env (FfExit "moov atom not found" true) false)
     Sample.parts_A 75%float "A" (Sample.out_dir // "A.mp4") Sample.logs
     Sample.world).1
  = Return false
  ∧ fs (merge_process (Sample.env (FfExit "moov atom not found" true) false)
          Sample.parts_A 75%float "A" (Sample.out_dir // "A.mp4")
          Sample.logs Sample.world).2
    !! (Sample.out_dir // "A.mp4")
    = Some (NFile (Merged Sample.parts_A false))
  ∧ fs (merge_process (Sample.env (FfExit "moov atom not found" true) false)
          Sample.parts_A 75%float "A" (Sample.out_dir // "A.mp4")
          Sample.logs Sample.world).2
    !! (Sample.logs // "A_ffmpeg_error.log")
    = None.
Proof. repeat split; vm_compute; reflexivity. Qed.

(** The two cases of the duration check worked out: 100 s expected and
    102.5 s merged pass, 10 s expected and 16 s merged do not. *)
Example drift_within_tolerance :
  max_allowed_diff 100 = 5%float ∧ duration_diff 100 102.5 = 2.5%float
  ∧ (max_allowed_diff 100 <? duration_diff 100 102.5)%float = false.
Proof. vm_compute. done. Qed.

Example drift_beyond_tolerance :
  max_allowed_diff 10 = 5%float ∧ duration_diff 10 16 = 6%float
  ∧ (max_allowed_diff 10 <? duration_diff 10 16)%float = true.
Proof. vm_compute. done. Qed.

(** ** The batch *)

Lemma process_folders_step (env : Env) (path : Path) (rest : list Path)
    (output_path log_dir : Path) (c : Counters) (w : World)
    (v : Path) (vs : list Path) (w1 : World) (b : bool) (w2 : World) :
  Str.startswith ["_"; "."]%string (name path) = false →
  get_videos env path
    (mkWorld (fs w) (trace w ++ [Log INFO (ProcessingFolder (name path))]))
  = (Return (v :: vs), w1) →
  merge_video env (v :: vs) path output_path log_dir w1 = (Return b, w2) →
  process_folders env (path :: rest) output_path log_dir c w
  = process_folders env rest output_path log_dir
      (if b then succeeded (processed c) else failed (processed c))
      (mkWorld (fs w2) (trace w2 ++ [Log INFO (FinishedFolder (name path))])).
Proof.
  intros Hn Hg Hm. cbn [process_folders]. rewrite Hn. mstep. rewrite Hg.
  mstep. rewrite Hm. reflexivity.
Qed.

(** C1, as amended, for ffmpeg. When the folder [path] comes to the merge
    and ffmpeg is found missing there, [merge_video] catches the error and
    returns [False]: the folder is counted as failed, and the loop of
    [main] goes on with the folders that follow. *)
Theorem missing_ffmpeg_fails_the_folder_and_the_batch_goes_on
    (env : Env) (path : Path) (rest : list Path)
    (output_path log_dir : Path) (c : Counters) (w : World)
    (v : Path) (vs : list Path) (w1 : World)
    (valid : list Path) (total : float) (w2 : World)
    (dir : Path) (unique : string) :
  Str.startswith ["_"; "."]%string (name path) = false →
  get_videos env path
    (mkWorld (fs w) (trace w ++ [Log INFO (ProcessingFolder (name path))]))
  = (Return (v :: vs), w1) →
  path_exists (fs w1) (output_path_of v path output_path) = false →
  metadata_check env (v :: vs) path log_dir w1
  = (Return (Some (valid, total)), w2) →
  mktemp env (list_prefix (name path)) = TmpCreated dir unique true →
  ffmpeg env valid (output_path_of v path output_path) = FfToolMissing →
  ∃ w3,
    merge_video env (v :: vs) path output_path log_dir w1 = (Return false, w3)
    ∧ Log CRITICAL FfmpegNotFound ∈ trace w3
    ∧ process_folders env (path :: rest) output_path log_dir c w
      = process_folders env rest output_path log_dir (failed (processed c))
          (mkWorld (fs w3)
                   (trace w3 ++ [Log INFO (FinishedFolder (name path))])).
Proof.
  intros Hn Hg Hfresh Hcheck Hmk Hff.
  pose proof (list_file_path_created env (name path) dir unique Hmk) as Hl.
  assert (Hm : ∃ w3,
             merge_video env (v :: vs) path output_path log_dir w1
             = (Return false, w3)
             ∧ Log CRITICAL FfmpegNotFound ∈ trace w3).
  { rewrite (merge_video_fresh _ _ _ _ _ _ _ Hfresh), Hcheck.
    unfold merge_process, try_finally, try_except.
    rewrite (merge_steps_missing env valid total _ _ dir unique Hmk w2 Hff).
    unfold merge_handler. mstep.
    match goal with
    | |- context [cleanup env _ ?W] =>
        destruct (cleanup_spec env (name path) _ W Hl)
          as (evs & f' & -> & _)
    end.
    eexists. split; [reflexivity|]. cbn [trace].
    rewrite !elem_of_app. left. right. apply list_elem_of_here. }
  destruct Hm as (w3 & Hm & Hin). exists w3.
  split; [exact Hm|]. split; [exact Hin|].
  by rewrite (process_folders_step env path rest output_path log_dir c w
                v vs w1 false w3 Hn Hg Hm).
Qed.

Lemma missing_ffmpeg_fails_the_folder_and_the_batch_goes_on_witness :
  ∃ w3,
    merge_video (Sample.env FfToolMissing true) Sample.parts_A Sample.folder_A
      Sample.out_dir Sample.logs Sample.world_A_listed
    = (Return false, w3)
    ∧ Log CRITICAL FfmpegNotFound ∈ trace w3
    ∧ process_folders (Sample.env FfToolMissing true)
        [Sample.folder_A; Sample.folder_B] Sample.out_dir Sample.logs
        counters_init Sample.world
      = process_folders (Sample.env FfToolMissing true) [Sample.folder_B]
          Sample.out_dir Sample.logs (failed (processed counters_init))
          (mkWorld (fs w3) (trace w3 ++ [Log INFO (FinishedFolder "A")])).
Proof.
  apply (missing_ffmpeg_fails_the_folder_and_the_batch_goes_on
           (Sample.env FfToolMissing true) Sample.folder_A [Sample.folder_B]
           Sample.out_dir Sample.logs counters_init Sample.world
           (Sample.folder_A // "1.mp4") [Sample.folder_A // "2.mp4"]
           Sample.world_A_listed Sample.parts_A 75%float
           Sample.world_A_checked ["tmp"]%string "k3x9").
  - vm_compute. reflexivity.
  - vm_compute. reflexivity.
  - vm_compute. reflexivity.
  - vm_compute. reflexivity.
  - vm_compute. reflexivity.
  - vm_compute. reflexivity.
Defined.

(** C1 as stated fails. In the sample tree, with ffmpeg found missing when
    folder [A] is merged, the batch does not halt: after the critical
    record of the missing tool, folder [B] and the others are processed,
    and the run ends with five folders attempted, four of them failed. *)
Lemma batch_goes_on_after_missing_ffmpeg :
  ∃ t1 t2,
    trace (main (Sample.env FfToolMissing true) Sample.root Sample.out_dir
             Sample.logs Sample.world).2
    = t1 ++ Log CRITICAL FfmpegNotFound :: t2
    ∧ Log INFO (ProcessingFolder "A") ∈ t1
    ∧ Log INFO (ProcessingFolder "B") ∈ t2
    ∧ (main (Sample.env FfToolMissing true) Sample.root Sample.out_dir
         Sample.logs Sample.world).1
      = Return (Some (mkCounters 5 1 4)).
Proof.
  exists (take 12 (trace (main (Sample.env FfToolMissing true) Sample.root
                            Sample.out_dir Sample.logs Sample.world).2)),
         (drop 13 (trace (main (Sample.env FfToolMissing true) Sample.root
                            Sample.out_dir Sample.logs Sample.world).2)).
  split; [vm_compute; reflexivity|].
  split; [|split; [|vm_compute; reflexivity]].
  - vm_compute.
    repeat first [apply list_elem_of_here | apply list_elem_of_further].
  - vm_compute.
    repeat first [apply list_elem_of_here | apply list_elem_of_further].
Qed.

(** [merge_video] hands every exception of its two [try] blocks over to
    its own handlers: it returns. *)
Lemma metadata_check_returns (env : Env) (videos : list Path)
    (source_path log_dir : Path) (w : World) :
  ∃ r w', metadata_check env videos source_path log_dir w = (Return r, w').
Proof.
  unfold metadata_check. unfold mbind at 1. unfold M_bind.
  unfold bind at 1. unfold log, emit. unfold try_except.
  match goal with
  | |- context [match ?b ?w0 with _ => _ end] =>
      destruct (b w0) as [[r|e] w']
  end.
  - eauto.
  - destruct e; mstep; eauto.
Qed.

Lemma merge_video_returns (env : Env) (videos : list Path)
    (source_path output_dir log_dir : Path) (w : World) :
  ∃ b w',
    merge_video env videos source_path output_dir log_dir w = (Return b, w').
Proof.
  destruct videos as [|v rest]; [unfold merge_video; mstep; eauto|].
  destruct (path_exists (fs w) (output_path_of v source_path output_dir))
    eqn:He.
  - unfold merge_video. mstep. rewrite He. mstep. eauto.
  - rewrite (merge_video_fresh _ _ _ _ _ _ _ He).
    destruct (metadata_check_returns env (v :: rest) source_path log_dir w)
      as ([[valid total]|] & w' & ->); [|eauto].
    apply merge_process_returns.
Qed.

(** * Further properties *)

(** ** The order of the scans *)

Lemma string_lt_trans (a b c : string) :
  String.compare a b = Lt → String.compare b c = Lt → String.compare a c = Lt.
Proof.
  apply (@StrictOrder_Transitive _ _ OrdersEx.String_as_OT.lt_strorder).
Qed.

#[global] Instance path_le_total : Total path_le.
Proof.
  unfold Total, path_le. intros p.
  induction p as [|a p IH]; intros [|b q]; simpl; auto.
  rewrite (String.compare_antisym b a).
  destruct (String.compare a b); simpl; auto.
Qed.

#[global] Instance path_le_trans : Transitive path_le.
Proof.
  unfold Transitive, path_le. intros p.
  induction p as [|a p IH]; intros [|b q] [|c r]; simpl; try done.
  destruct (String.compare a b) eqn:Hab; [| |done].
  - apply String.compare_eq_iff in Hab as ->.
    destruct (String.compare b c); [apply IH|done|done].
  - destruct (String.compare b c) eqn:Hbc; [| |done].
    + apply String.compare_eq_iff in Hbc as <-. by rewrite Hab.
    + by rewrite (string_lt_trans _ _ _ Hab Hbc).
Qed.

Lemma entries_NoDup (f : FS) (d : Path) : NoDup (entries f d).
Proof. unfold entries. apply NoDup_filter, NoDup_fst_map_to_list. Qed.

Lemma sort_paths_ascending (l : list Path) :
  NoDup l →
  StronglySorted path_le (sort_paths l) ∧ NoDup (sort_paths l).
Proof.
  intros Hl. unfold sort_paths. split.
  - apply StronglySorted_merge_sort; apply _.
  - by rewrite merge_sort_Permutation.
Qed.

(** X1. The lists of [get_dirs] and of [get_videos] are ascending in the
    order of paths and hold no path twice, in whatever order the system
    lists the directory. *)
Theorem scans_return_ascending_lists (env : Env) (d : Path) (w : World) :
  (StronglySorted path_le (returned (get_dirs env d w))
   ∧ NoDup (returned (get_dirs env d w)))
  ∧ (StronglySorted path_le (returned (get_videos env d w))
     ∧ NoDup (returned (get_videos env d w))).
Proof.
  split.
  - unfold returned, get_dirs. mrun.
    destruct (is_dir (fs w) d); simpl; [|split; constructor].
    destruct (can_list env d); simpl; [|split; constructor].
    apply sort_paths_ascending, NoDup_filter, entries_NoDup.
  - unfold returned, get_videos. mrun.
    destruct (is_dir (fs w) d); simpl; [|split; constructor].
    destruct (can_list env d); simpl; [|split; constructor].
    apply sort_paths_ascending, NoDup_filter, entries_NoDup.
Qed.


(** ** A part that cannot be probed *)

Section Failures.

Variable env : Env.
Variables (videos : list Path) (source_path log_dir : Path).

Lemma check_part_unreadable (v : Path) (st : LoopState) (w : World) :
  unreadable env v →
  ∃ evs,
    check_part env videos source_path log_dir v st w
    = (Return (Break (mismatch_found st)),
       mkWorld (metadata_fs env source_path log_dir v (fs w))
               (trace w ++ evs))
    ∧ probe_calls evs = [v] ∧ ffmpeg_calls evs = []
    ∧ Log ERROR (MetadataFailed (name v)) ∈ evs
    ∧ (can_write env (metadata_log_path source_path log_dir) = false →
       Log ERROR (CouldNotWriteLog (metadata_log_path source_path log_dir))
       ∈ evs).
Proof.
  unfold unreadable, check_part, _get_video_metadata_ffprobe, run_of_probe,
    _run_command, write_error_log, metadata_fs, metadata_log_path, resolve.
  intros H.
  destruct (ffprobe env v); try done; mstep;
    destruct (can_write env _); mstep; rewrite <- ?app_assoc; simpl;
    eexists; (split; [reflexivity|]); (split; [reflexivity|]);
    (split; [reflexivity|]);
    (split; [|try discriminate; intros _]);
    repeat first [apply list_elem_of_here | apply list_elem_of_further].
Qed.

Lemma check_part_tool_missing (v : Path) (st : LoopState) (w : World) :
  ffprobe env v = ProbeToolMissing →
  check_part env videos source_path log_dir v st w
  = (Raise FileNotFoundError,
     mkWorld (fs w)
       (trace w ++ [Probe v; Log ERROR (CommandNotFound "ffprobe")])).
Proof.
  intros H.
  unfold check_part, _get_video_metadata_ffprobe, run_of_probe, _run_command,
    resolve.
  rewrite H. mstep. by rewrite <- app_assoc.
Qed.

Lemma check_part_crash (v : Path) (st : LoopState) (w : World) :
  ffprobe env v = ProbeCrash →
  check_part env videos source_path log_dir v st w
  = (Raise OtherException, mkWorld (fs w) (trace w ++ [Probe v])).
Proof.
  intros H.
  unfold check_part, _get_video_metadata_ffprobe, run_of_probe, _run_command,
    resolve.
  rewrite H. mstep. reflexivity.
Qed.

End Failures.

Section FailedValidation.

Variable env : Env.
Variables (videos : list Path) (source_path log_dir : Path).

(** The first [try] block on a folder in which the part [v] gives no
    metadata and the parts before it pass. *)
Lemma metadata_check_unreadable (pre : list Path) (v : Path)
    (post : list Path) (res : Z * Z) (w : World) :
  videos = pre ++ v :: post →
  uniform env res pre →
  unreadable env v →
  ∃ evs,
    metadata_check env videos source_path log_dir w
    = (Return None,
       mkWorld (metadata_fs env source_path log_dir v (fs w))
               (trace w ++ evs))
    ∧ probe_calls evs = pre ++ [v]
    ∧ ffmpeg_calls evs = []
    ∧ Log ERROR (MetadataFailed (name v)) ∈ evs
    ∧ (can_write env (metadata_log_path source_path log_dir) = false →
       Log ERROR (CouldNotWriteLog (metadata_log_path source_path log_dir))
       ∈ evs).
Proof.
  intros Hv Hu Hbad.
  destruct (check_parts_uniform env videos source_path log_dir
              res pre (v :: post) Hu loop_init
              (mkWorld (fs w)
                 (trace w ++ [Log INFO (CheckingResolution (length videos)
                                          (name source_path))])))
    as (evs & Heq & Hpc & Hfc & _); [simpl; congruence|].
  rewrite <- Hv in Heq. rewrite check_parts_cons in Heq.
  match type of Heq with
  | context [check_part env videos source_path log_dir v ?ST ?W] =>
      destruct (check_part_unreadable env videos source_path log_dir v ST W
                  Hbad) as (evs' & Hcp & Hpc' & Hfc' & Hin & Hcw)
  end.
  rewrite Hcp in Heq. simpl in Heq.
  unfold metadata_check. mrun. rewrite Heq. mrun. simpl.
  exists ([Log INFO (CheckingResolution (length videos) (name source_path))]
          ++ evs ++ evs').
  rewrite <- !app_assoc. split; [done|].
  rewrite !probe_calls_app, !ffmpeg_calls_app, Hpc, Hfc, Hpc', Hfc'.
  repeat split.
  - rewrite !elem_of_app. by right; right.
  - intros Hw. rewrite !elem_of_app. right. right. by apply Hcw.
Qed.

(** The first [try] block on a folder in which ffprobe raises on the part
    [v] and the parts before it pass. *)
Lemma metadata_check_raise (pre : list Path) (v : Path)
    (post : list Path) (res : Z * Z) (w : World) :
  videos = pre ++ v :: post →
  uniform env res pre →
  ffprobe env v = ProbeToolMissing ∨ ffprobe env v = ProbeCrash →
  ∃ evs,
    metadata_check env videos source_path log_dir w
    = (Return None, mkWorld (fs w) (trace w ++ evs))
    ∧ probe_calls evs = pre ++ [v]
    ∧ ffmpeg_calls evs = []
    ∧ last evs
      = Some (match ffprobe env v with
              | ProbeToolMissing => Log CRITICAL FfprobeNotFound
              | _ => Log ERROR (UnexpectedMetadataError (name source_path))
              end).
Proof.
  intros Hv Hu Hbad.
  destruct (check_parts_uniform env videos source_path log_dir
              res pre (v :: post) Hu loop_init
              (mkWorld (fs w)
                 (trace w ++ [Log INFO (CheckingResolution (length videos)
                                          (name source_path))])))
    as (evs & Heq & Hpc & Hfc & _); [simpl; congruence|].
  rewrite <- Hv in Heq. rewrite check_parts_cons in Heq.
  destruct Hbad as [Hbad|Hbad]; rewrite Hbad.
  - rewrite (check_part_tool_missing _ _ _ _ _ _ _ Hbad) in Heq.
    simpl in Heq.
    unfold metadata_check. mrun. rewrite Heq. mrun. simpl.
    exists ([Log INFO (CheckingResolution (length videos) (name source_path))]
            ++ evs
            ++ [Probe v; Log ERROR (CommandNotFound "ffprobe");
                Log CRITICAL FfprobeNotFound]).
    rewrite <- !app_assoc. split; [done|].
    rewrite !probe_calls_app, !ffmpeg_calls_app, Hpc, Hfc.
    repeat split.
    by rewrite !last_app.
  - rewrite (check_part_crash _ _ _ _ _ _ _ Hbad) in Heq.
    simpl in Heq.
    unfold metadata_check. mrun. rewrite Heq. mrun. simpl.
    exists ([Log INFO (CheckingResolution (length videos) (name source_path))]
            ++ evs
            ++ [Probe v;
                Log ERROR (UnexpectedMetadataError (name source_path))]).
    rewrite <- !app_assoc. split; [done|].
    rewrite !probe_calls_app, !ffmpeg_calls_app, Hpc, Hfc.
    repeat split.
    by rewrite !last_app.
Qed.

End FailedValidation.

(** X2. When a part gives no metadata - ffprobe ends with an error, or
    its output cannot be read, has no video stream or lacks a field - and
    the parts before it have passed, [merge_video] returns [False] on a
    folder whose output is not there: the loop stops at that part (the
    parts after it are not probed), the failure is logged and ffmpeg is
    not run. The metadata error log names the part when the system lets
    the log be written; when it does not, the refusal is logged as an
    error. *)
Theorem unreadable_part_fails_the_folder
    (env : Env) (v0 : Path) (rest : list Path)
    (source_path output_dir log_dir : Path) (w : World)
    (pre : list Path) (v : Path) (post : list Path) (res : Z * Z) :
  path_exists (fs w) (output_path_of v0 source_path output_dir) = false →
  v0 :: rest = pre ++ v :: post →
  uniform env res pre →
  unreadable env v →
  ∃ evs w',
    merge_video env (v0 :: rest) source_path output_dir log_dir w
    = (Return false, w')
    ∧ trace w' = trace w ++ evs
    ∧ probe_calls evs = pre ++ [v]
    ∧ ffmpeg_calls evs = []
    ∧ Log ERROR (MetadataFailed (name v)) ∈ evs
    ∧ if can_write env (metadata_log_path source_path log_dir)
      then fs w' !! metadata_log_path source_path log_dir
           = Some (NFile (MetadataErrorLog v))
      else Log ERROR
             (CouldNotWriteLog (metadata_log_path source_path log_dir))
           ∈ evs.
Proof.
  intros Hfresh Hv Hu Hbad.
  destruct (metadata_check_unreadable env (v0 :: rest) source_path log_dir
              pre v post res w Hv Hu Hbad)
    as (evs & Heq & Hpc & Hfc & Hin & Hcw).
  exists evs. eexists.
  rewrite (merge_video_fresh _ _ _ _ _ _ _ Hfresh), Heq.
  split; [reflexivity|]. cbn [fs trace].
  repeat (split; [done|]). unfold metadata_fs.
  destruct (can_write env (metadata_log_path source_path log_dir));
    [apply lookup_insert_eq|by apply Hcw].
Qed.

Lemma unreadable_part_fails_the_folder_witness :
  ∃ evs w',
    merge_video (Sample.env FfOk true)
      [Sample.folder_A // "1.mp4"; Sample.folder_A // "1b.mp4";
       Sample.folder_A // "2.mp4"]
      Sample.folder_A Sample.out_dir Sample.logs Sample.world
    = (Return false, w')
    ∧ trace w' = trace Sample.world ++ evs
    ∧ probe_calls evs
      = [Sample.folder_A // "1.mp4"] ++ [Sample.folder_A // "1b.mp4"]
    ∧ ffmpeg_calls evs = []
    ∧ Log ERROR (MetadataFailed (name (Sample.folder_A // "1b.mp4"))) ∈ evs
    ∧ fs w' !! metadata_log_path Sample.folder_A Sample.logs
      = Some (NFile (MetadataErrorLog (Sample.folder_A // "1b.mp4"))).
Proof.
  apply (unreadable_part_fails_the_folder (Sample.env FfOk true)
           (Sample.folder_A // "1.mp4")
           [Sample.folder_A // "1b.mp4"; Sample.folder_A // "2.mp4"]
           Sample.folder_A Sample.out_dir Sample.logs Sample.world
           [Sample.folder_A // "1.mp4"] (Sample.folder_A // "1b.mp4")
           [Sample.folder_A // "2.mp4"] (1920, 1080)%Z).
  - vm_compute. reflexivity.
  - reflexivity.
  - repeat (constructor;
          [eexists; split;
           [vm_compute; reflexivity
           | vm_compute; intros; first [discriminate | reflexivity]] |]).
    constructor.
  - vm_compute. exact I.
Defined.

(** X3. When ffprobe raises on a part during the validation - because
    it is not found, or by an exception that no handler names - and the
    parts before it have passed, [merge_video] catches the exception and
    returns [False], with a critical record for the missing tool and an
    error record otherwise; no file is touched, the parts after it are
    not probed and ffmpeg is not run. The folder is counted as failed and
    the loop of [main] goes on with the folders that follow. *)
Theorem ffprobe_exception_fails_the_folder_and_the_batch_goes_on
    (env : Env) (path : Path) (rest : list Path)
    (output_path log_dir : Path) (c : Counters) (w : World)
    (v0 : Path) (vs : list Path) (w1 : World)
    (pre : list Path) (v : Path) (post : list Path) (res : Z * Z) :
  Str.startswith ["_"; "."]%string (name path) = false →
  get_videos env path
    (mkWorld (fs w) (trace w ++ [Log INFO (ProcessingFolder (name path))]))
  = (Return (v0 :: vs), w1) →
  path_exists (fs w1) (output_path_of v0 path output_path) = false →
  v0 :: vs = pre ++ v :: post →
  uniform env res pre →
  ffprobe env v = ProbeToolMissing ∨ ffprobe env v = ProbeCrash →
  ∃ evs w2,
    merge_video env (v0 :: vs) path output_path log_dir w1 = (Return false, w2)
    ∧ fs w2 = fs w1
    ∧ trace w2 = trace w1 ++ evs
    ∧ probe_calls evs = pre ++ [v]
    ∧ ffmpeg_calls evs = []
    ∧ last evs
      = Some (match ffprobe env v with
              | ProbeToolMissing => Log CRITICAL FfprobeNotFound
              | _ => Log ERROR (UnexpectedMetadataError (name path))
              end)
    ∧ process_folders env (path :: rest) output_path log_dir c w
      = process_folders env rest output_path log_dir (failed (processed c))
          (mkWorld (fs w2)
                   (trace w2 ++ [Log INFO (FinishedFolder (name path))])).
Proof.
  intros Hn Hg Hfresh Hv Hu Hbad.
  destruct (metadata_check_raise env (v0 :: vs) path log_dir
              pre v post res w1 Hv Hu Hbad) as (evs & Heq & Hpc & Hfc & Hl).
  assert (Hm : merge_video env (v0 :: vs) path output_path log_dir w1
               = (Return false, mkWorld (fs w1) (trace w1 ++ evs)))
    by (by rewrite (merge_video_fresh _ _ _ _ _ _ _ Hfresh), Heq).
  exists evs. eexists. split; [exact Hm|].
  repeat (split; [done|]).
  by rewrite (process_folders_step env path rest output_path log_dir c w
                v0 vs w1 false _ Hn Hg Hm).
Qed.

Lemma ffprobe_exception_fails_the_folder_and_the_batch_goes_on_witness :
  ∃ evs w2,
    merge_video (env_probe_fails (Sample.folder_A // "2.mp4") ProbeToolMissing) Sample.parts_A
      Sample.folder_A Sample.out_dir Sample.logs Sample.world_A_listed
    = (Return false, w2)
    ∧ fs w2 = fs Sample.world_A_listed
    ∧ trace w2 = trace Sample.world_A_listed ++ evs
    ∧ probe_calls evs = Sample.parts_A
    ∧ ffmpeg_calls evs = []
    ∧ last evs = Some (Log CRITICAL FfprobeNotFound)
    ∧ process_folders (env_probe_fails (Sample.folder_A // "2.mp4") ProbeToolMissing)
        [Sample.folder_A; Sample.folder_B] Sample.out_dir Sample.logs
        counters_init Sample.world
      = process_folders (env_probe_fails (Sample.folder_A // "2.mp4") ProbeToolMissing) [Sample.folder_B]
          Sample.out_dir Sample.logs (failed (processed counters_init))
          (mkWorld (fs w2) (trace w2 ++ [Log INFO (FinishedFolder "A")])).
Proof.
  apply (ffprobe_exception_fails_the_folder_and_the_batch_goes_on
           (env_probe_fails (Sample.folder_A // "2.mp4") ProbeToolMissing) Sample.folder_A
           [Sample.folder_B] Sample.out_dir Sample.logs counters_init
           Sample.world (Sample.folder_A // "1.mp4")
           [Sample.folder_A // "2.mp4"] Sample.world_A_listed
           [Sample.folder_A // "1.mp4"] (Sample.folder_A // "2.mp4") []
           (1920, 1080)%Z).
  - vm_compute. reflexivity.
  - vm_compute. reflexivity.
  - vm_compute. reflexivity.
  - reflexivity.
  - repeat (constructor;
          [eexists; split;
           [vm_compute; reflexivity
           | vm_compute; intros; first [discriminate | reflexivity]] |]).
    constructor.
  - left. vm_compute. reflexivity.
Defined.


(** ** What a passed validation tells *)

Section Inversion.

Variable env : Env.
Variables (videos : list Path) (source_path log_dir : Path).

(** The loop goes on to the next part only from a part that was probed. *)
Lemma check_part_continue (v : Path) (st st1 : LoopState) (w w1 : World) :
  check_part env videos source_path log_dir v st w
  = (Return (Continue st1), w1) →
  ∃ m, ffprobe env v = ProbeOk m ∧
       if (duration m <=? 0)%float then st1 = st
       else match first_video_metadata st with
            | None => st1 = accept v (duration m) (set_reference m st)
            | Some f => resolution m = resolution f
                        ∧ st1 = accept v (duration m) st
            end.
Proof.
  intros H.
  destruct (ffprobe env v) as [m| | | | | |] eqn:Hp.
  - exists m. split; [done|].
    destruct (duration m <=? 0)%float eqn:Hd.
    + rewrite (check_part_skip _ _ _ _ _ _ _ _ Hp Hd) in H. congruence.
    + destruct (first_video_metadata st) as [f|] eqn:Hf.
      * destruct (decide (resolution m = resolution f)) as [Hr|Hr].
        -- rewrite (check_part_match _ _ _ _ _ _ _ _ _ Hp Hd Hf Hr) in H.
           split; [done|congruence].
        -- rewrite (check_part_mismatch _ _ _ _ _ _ _ _ _ Hp Hd Hf Hr) in H.
           discriminate.
      * rewrite (check_part_first _ _ _ _ _ _ _ _ Hp Hd Hf) in H. congruence.
  - destruct (check_part_unreadable env videos source_path log_dir v st w)
      as (evs & Heq & _); [unfold unreadable, resolve; by rewrite Hp|].
    congruence.
  - destruct (check_part_unreadable env videos source_path log_dir v st w)
      as (evs & Heq & _); [unfold unreadable, resolve; by rewrite Hp|].
    congruence.
  - destruct (check_part_unreadable env videos source_path log_dir v st w)
      as (evs & Heq & _); [unfold unreadable, resolve; by rewrite Hp|].
    congruence.
  - destruct (check_part_unreadable env videos source_path log_dir v st w)
      as (evs & Heq & _); [unfold unreadable, resolve; by rewrite Hp|].
    congruence.
  - rewrite (check_part_tool_missing _ _ _ _ _ _ _ Hp) in H. discriminate.
  - rewrite (check_part_crash _ _ _ _ _ _ _ Hp) in H. discriminate.
Qed.

(** A [break] comes with [resolutions_match = False]. *)
Lemma check_part_break (v : Path) (st st1 : LoopState) (w w1 : World) :
  check_part env videos source_path log_dir v st w
  = (Return (Break st1), w1) →
  resolutions_match st1 = false.
Proof.
  unfold check_part, _get_video_metadata_ffprobe, _run_command, run_of_probe,
    write_error_log, resolve.
  mrun.
  destruct (ffprobe env v); cbn;
    repeat (case_match; simplify_eq; cbn; try discriminate);
    intros [= <- _]; reflexivity.
Qed.

(** When the loop ends with [resolutions_match] still set, every part was
    probed and the kept ones have the resolution of the reference. *)
Lemma check_parts_passed (todo : list Path) :
  ∀ (st st' : LoopState) (w w' : World) (res : Z * Z),
    check_parts env videos source_path log_dir todo st w = (Return st', w') →
    resolutions_match st' = true →
    (∀ f, first_video_metadata st = Some f → resolution f = res) →
    (first_video_metadata st = None →
     ∀ m, head (omap (usable env) todo) = Some m → resolution m = res) →
    uniform env res todo.
Proof.
  induction todo as [|v todo IH]; intros st st' w w' res Hrun Hok Hsome Hnone;
    [constructor|].
  rewrite check_parts_cons in Hrun.
  destruct (check_part env videos source_path log_dir v st w)
    as [[[st1|st1]|e] w1] eqn:Hcp; [| |discriminate].
  - apply check_part_continue in Hcp as (m & Hp & Hst1).
    assert (Hu : usable env v
                 = if (duration m <=? 0)%float then None else Some m)
      by (unfold usable, resolve; by rewrite Hp).
    simpl in Hnone. rewrite Hu in Hnone.
    destruct (duration m <=? 0)%float eqn:Hd.
    + subst st1. constructor; [exists m; split; [done|congruence]|].
      by apply (IH st st' w1 w' res).
    + destruct (first_video_metadata st) as [f|] eqn:Hf.
      * destruct Hst1 as [Hr ->]. constructor.
        -- exists m. split; [done|]. intros _. rewrite Hr. by apply Hsome.
        -- apply (IH _ st' w1 w' res Hrun Hok); simpl; rewrite Hf; [done|].
           discriminate.
      * subst st1. constructor.
        -- exists m. split; [done|]. intros _. by apply Hnone.
        -- apply (IH _ st' w1 w' res Hrun Hok); simpl; [|discriminate].
           intros f [= <-]. by apply Hnone.
  - apply check_part_break in Hcp. congruence.
Qed.

(** The validation lets a folder through only when every part was probed
    and the kept parts share one resolution; it hands over the kept parts
    and the sum of their durations, and writes nothing. *)
Lemma metadata_check_passed (valid : list Path) (total : float)
    (w w' : World) :
  metadata_check env videos source_path log_dir w
  = (Return (Some (valid, total)), w') →
  ∃ res evs,
    uniform env res videos
    ∧ valid = kept env videos ∧ valid ≠ []
    ∧ total = sum_durations env 0 videos
    ∧ w' = mkWorld (fs w) (trace w ++ evs)
    ∧ probe_calls evs = videos ∧ ffmpeg_calls evs = []
    ∧ Forall no_error evs.
Proof.
  intros H.
  set (res := match head (omap (usable env) videos) with
              | Some m => resolution m
              | None => (0, 0)%Z
              end).
  assert (Hu : uniform env res videos).
  { revert H. unfold metadata_check. mrun.
    destruct (check_parts env videos source_path log_dir videos loop_init _)
      as [[st|e] w1] eqn:Hrun; [|destruct e; discriminate].
    destruct (resolutions_match st) eqn:Hok; [|discriminate]. intros _.
    apply (check_parts_passed videos loop_init st _ w1 res Hrun Hok);
      [discriminate|].
    intros _ m Hm. unfold res. by rewrite Hm. }
  destruct (metadata_check_uniform env videos source_path log_dir res w Hu)
    as (evs & Heq & Hpc & Hfc & Hlast).
  rewrite Heq in H. exists res, evs.
  destruct (kept env videos) as [|k ks]; [discriminate|].
  injection H as <- <- <-. done.
Qed.

End Inversion.

(** ** What a successful merge tells *)

Section MergeInversion.

Variable env : Env.
Variables (valid : list Path) (total : float) (folder_name : string).
Variables (out log_dir : Path).

(** Every [except] clause of the second [try] block ends in
    [return False]. *)
Lemma merge_handler_false (e : Exn) (w : World) :
  (merge_handler env folder_name out log_dir e w).1 = Return false.
Proof.
  unfold merge_handler, write_error_log.
  destruct e; mstep; repeat (case_match; simplify_eq); reflexivity.
Qed.

(** The suite of the second [try] block comes to its end only when the
    list file was written and ffmpeg ended well. *)
Lemma merge_steps_return (b : bool) (w w1 : World) :
  merge_steps env valid total folder_name out w = (Return b, w1) →
  b = true
  ∧ ∃ dir unique,
      mktemp env (list_prefix folder_name) = TmpCreated dir unique true
      ∧ ffmpeg env valid out = FfOk
      ∧ fs w1 = <[out := NFile (Merged valid true)]>
                  (with_list_file
                     (temp_path dir (list_prefix folder_name) unique)
                     valid (fs w)).
Proof.
  unfold merge_steps, create_list_file, run_ffmpeg.
  destruct (mktemp env (list_prefix folder_name)) as [dir unique [|]| |] eqn:Hmk;
    mstep; try discriminate.
  unfold manifest_of. rewrite lookup_insert_eq, map_resolve.
  destruct (ffmpeg env valid out) as [|stderr [|]| |[|]] eqn:Hff;
    unfold _run_command, run_of_ffmpeg; mstep; try discriminate.
  unfold verify_duration, _get_video_metadata_ffprobe, run_of_probe,
    _run_command, resolve.
  destruct (ffprobe env out); mstep; try discriminate;
    repeat (case_match; simplify_eq); mstep;
    intros [= <- <-]; (split; [reflexivity|]);
    exists dir, unique; repeat split.
Qed.

Lemma merge_process_true (w w' : World) :
  (∀ dir unique, temp_path dir (list_prefix folder_name) unique ≠ out) →
  merge_process env valid total folder_name out log_dir w
  = (Return true, w') →
  ffmpeg env valid out = FfOk
  ∧ fs w' !! out = Some (NFile (Merged valid true)).
Proof.
  intros Hne. unfold merge_process, try_finally, try_except.
  destruct (merge_steps env valid total folder_name out w)
    as [[b|e] w1] eqn:Hs.
  - apply merge_steps_return in Hs as (-> & dir & unique & Hmk & Hff & Hfs).
    destruct (cleanup_spec env folder_name _ w1
                (list_file_path_created env folder_name dir unique Hmk))
      as (evs & f' & -> & Hf' & _).
    intros [= <-]. split; [done|]. cbn [fs].
    assert (Hout : fs w1 !! out = Some (NFile (Merged valid true)))
      by (rewrite Hfs; apply lookup_insert_eq).
    destruct Hf' as [->| ->]; [done|].
    by rewrite lookup_delete_ne.
  - pose proof (merge_handler_false e w1) as Hh.
    destruct (merge_handler env folder_name out log_dir e w1) as [r w2].
    simpl in Hh. subst r.
    destruct (cleanup_returns env folder_name w2) as (w3 & ->).
    discriminate.
Qed.

End MergeInversion.

Lemma merge_video_true (env : Env) (v0 : Path) (rest : list Path)
    (source_path output_dir log_dir : Path) (w w' : World) :
  path_exists (fs w) (output_path_of v0 source_path output_dir) = false →
  merge_video env (v0 :: rest) source_path output_dir log_dir w
  = (Return true, w') →
  ∃ res,
    uniform env res (v0 :: rest)
    ∧ kept env (v0 :: rest) ≠ []
    ∧ ffmpeg env (kept env (v0 :: rest))
        (output_path_of v0 source_path output_dir) = FfOk
    ∧ fs w' !! output_path_of v0 source_path output_dir
      = Some (NFile (Merged (kept env (v0 :: rest)) true)).
Proof.
  intros Hfresh. rewrite (merge_video_fresh _ _ _ _ _ _ _ Hfresh).
  destruct (metadata_check env (v0 :: rest) source_path log_dir w)
    as [[[[valid total]|]|e] w1] eqn:Hc; [|discriminate|discriminate].
  apply metadata_check_passed in Hc
    as (res & evs & Hu & -> & Hk & _). intros Hm.
  apply merge_process_true in Hm as [Hff Hout];
    [|intros; apply list_file_is_no_output].
  exists res. done.
Qed.

Section MergeEvents.

Variable env : Env.
Variables (valid : list Path) (total : float) (folder_name : string).
Variables (out log_dir : Path).



End MergeEvents.



(** X5. A folder that [merge_video] has merged is not merged again: once it
    has returned [True], a further call on the same folder finds the output
    and returns [True] at once, running neither ffprobe nor ffmpeg and
    leaving the files as they are. *)
Theorem merged_folder_is_skipped_afterwards
    (env : Env) (videos : list Path)
    (source_path output_dir log_dir : Path) (w w' : World) (t : list Event) :
  merge_video env videos source_path output_dir log_dir w = (Return true, w') →
  ∃ out,
    path_exists (fs w') out = true
    ∧ merge_video env videos source_path output_dir log_dir
        (mkWorld (fs w') t)
      = (Return true, mkWorld (fs w') (t ++ [Log INFO (AlreadyExists (name out))])).
Proof.
  destruct videos as [|v0 rest]; [unfold merge_video; mstep; discriminate|].
  intros Hm. exists (output_path_of v0 source_path output_dir).
  assert (He : path_exists (fs w') (output_path_of v0 source_path output_dir)
               = true).
  { destruct (path_exists (fs w) (output_path_of v0 source_path output_dir))
      eqn:He.
    - revert Hm. unfold merge_video. mstep. rewrite He. mstep.
      by intros [= <-].
    - apply (merge_video_true _ _ _ _ _ _ _ _ He) in Hm
        as (res & _ & _ & _ & Hout).
      unfold path_exists. apply bool_decide_eq_true. by rewrite Hout. }
  split; [exact He|].
  unfold merge_video. mstep. rewrite He. reflexivity.
Qed.

Lemma merged_folder_is_skipped_afterwards_witness :
  ∃ out,
    path_exists
      (fs (merge_video (Sample.env FfOk true) Sample.parts_A Sample.folder_A
             Sample.out_dir Sample.logs Sample.world).2) out = true
    ∧ merge_video (Sample.env FfOk true) Sample.parts_A Sample.folder_A
        Sample.out_dir Sample.logs
        (mkWorld
           (fs (merge_video (Sample.env FfOk true) Sample.parts_A
                  Sample.folder_A Sample.out_dir Sample.logs Sample.world).2)
           [])
      = (Return true,
         mkWorld
           (fs (merge_video (Sample.env FfOk true) Sample.parts_A
                  Sample.folder_A Sample.out_dir Sample.logs Sample.world).2)
           ([] ++ [Log INFO (AlreadyExists (name out))])).
Proof.
  apply (merged_folder_is_skipped_afterwards (Sample.env FfOk true)
           Sample.parts_A Sample.folder_A Sample.out_dir Sample.logs
           Sample.world).
  vm_compute. reflexivity.
Defined.

(** ** Relations that every step respects *)

#[global] Instance frame_preorder (X Y : Path → Prop) : PreOrder (frame X Y).
Proof.
  split.
  - intros w p _. by left.
  - intros w1 w2 w3 H12 H23 p Hp.
    destruct (H12 p Hp) as [H1|(Hy & H1 & H2)],
             (H23 p Hp) as [H3|(Hy' & H3 & H4)].
    + left. congruence.
    + right. rewrite <- H1. done.
    + right. rewrite H3. done.
    + congruence.
Qed.

#[global] Instance keeps_preorder (X : Path → Prop) : PreOrder (keeps X).
Proof.
  split.
  - intros w p n _ H. exact H.
  - intros w1 w2 w3 H12 H23 p n Hp H. by apply (H23 p n Hp), (H12 p n Hp).
Qed.

#[global] Instance emits_preorder (P : Event → Prop) : PreOrder (emits P).
Proof.
  split.
  - intros w. exists []. by rewrite app_nil_r.
  - intros w1 w2 w3 (e1 & H1 & Hp1) (e2 & H2 & Hp2). exists (e1 ++ e2).
    split; [by rewrite H2, H1, app_assoc|]. by apply Forall_app.
Qed.

Section Respects.

Context (R : relation World) `{!PreOrder R}.

Lemma respects_ret {A} (a : A) : respects R (ret a).
Proof using Type*. intros w r w' [= _ <-]. reflexivity. Qed.

Lemma respects_raise {A} (e : Exn) : respects R (raise (A := A) e).
Proof using Type*. intros w r w' [= _ <-]. reflexivity. Qed.

Lemma respects_read_fs : respects R read_fs.
Proof using Type*. intros w r w' [= _ <-]. reflexivity. Qed.

Lemma respects_bind {A B} (m : M A) (k : A → M B) :
  respects R m → (∀ a, respects R (k a)) → respects R (bind m k).
Proof using Type*.
  intros Hm Hk w r w'. unfold bind.
  destruct (m w) as [[a|e] w1] eqn:H1.
  - intros H2. transitivity w1; [by eapply Hm|by eapply Hk].
  - intros [= _ <-]. by eapply Hm.
Qed.

Lemma respects_try_except {A} (m : M A) (h : Exn → M A) :
  respects R m → (∀ e, respects R (h e)) → respects R (try_except m h).
Proof using Type*.
  intros Hm Hh w r w'. unfold try_except.
  destruct (m w) as [[a|e] w1] eqn:H1.
  - intros [= _ <-]. by eapply Hm.
  - intros H2. transitivity w1; [by eapply Hm|by eapply Hh].
Qed.

Lemma respects_try_finally {A} (m : M A) (f : M unit) :
  respects R m → respects R f → respects R (try_finally m f).
Proof using Type*.
  intros Hm Hf w r w'. unfold try_finally.
  destruct (m w) as [r1 w1] eqn:H1. destruct (f w1) as [[[]|e] w2] eqn:H2;
    intros [= _ <-]; (transitivity w1; [by eapply Hm|by eapply Hf]).
Qed.

Lemma respects_attempt {A} (m : M A) : respects R m → respects R (attempt m).
Proof using Type*.
  intros Hm w r w'. unfold attempt.
  destruct (m w) as [r1 w1] eqn:H1. intros [= _ <-]. by eapply Hm.
Qed.

Lemma respects_when (b : bool) (m : M unit) :
  respects R m → respects R (when b m).
Proof using Type*. intros Hm. destruct b; [exact Hm|apply respects_ret]. Qed.

End Respects.

(** One step of a proof that a block respects a relation. *)
Ltac respects_step :=
  lazymatch goal with
  | |- respects ?R (mbind ?k ?m) =>
      change (respects R (bind m k));
      apply respects_bind; [exact _| |intros ?]
  | |- respects _ (bind _ _) => apply respects_bind; [exact _| |intros ?]
  | |- respects ?R (mret ?a) =>
      change (respects R (ret a)); apply respects_ret; exact _
  | |- respects _ (ret _) => apply respects_ret; exact _
  | |- respects _ (raise _) => apply respects_raise; exact _
  | |- respects _ read_fs => apply respects_read_fs; exact _
  | |- respects _ (try_except _ _) =>
      apply respects_try_except; [exact _| |intros ?]
  | |- respects _ (try_finally _ _) =>
      apply respects_try_finally; [exact _| |]
  | |- respects _ (attempt _) => apply respects_attempt; [exact _|]
  | |- respects _ (when _ _) => apply respects_when; [exact _|]
  | |- respects _ (match ?x with _ => _ end) => destruct x
  end.

Ltac respects_steps := cbv zeta; repeat (respects_step; cbv zeta).

(** The blocks of the program respect a relation that their steps
    respect. *)
Section RespectsProgram.

Variable env : Env.
Context (R : relation World) `{!PreOrder R}.

Hypothesis Hlog : ∀ lvl m, respects R (log lvl m).

Lemma respects_iterdir (d : Path) : respects R (iterdir env d).
Proof using Type*. unfold iterdir. respects_steps. Qed.

Lemma respects_get_dirs (d : Path) : respects R (get_dirs env d).
Proof using Type*.
  unfold get_dirs. respects_steps; auto using respects_iterdir.
Qed.

Lemma respects_get_videos (d : Path) : respects R (get_videos env d).
Proof using Type*.
  unfold get_videos. respects_steps; auto using respects_iterdir.
Qed.

Lemma respects_merge_video_nil (source_path output_dir log_dir : Path) :
  respects R (merge_video env [] source_path output_dir log_dir).
Proof using Type*. unfold merge_video. respects_steps; auto. Qed.

Hypothesis Hprobe : ∀ p, respects R (emit (Probe p)).

Lemma respects_run_command (cmd : string) (r : RunResult) :
  respects R (_run_command cmd r).
Proof using Type*. unfold _run_command. respects_steps; auto. Qed.

Lemma respects_get_video_metadata_ffprobe (p : Path) :
  respects R (_get_video_metadata_ffprobe env p).
Proof using Type*.
  unfold _get_video_metadata_ffprobe, resolve. respects_steps;
    auto using respects_run_command.
Qed.

Lemma respects_verify_duration (folder_name : string) (out : Path)
    (total : float) :
  respects R (verify_duration env folder_name out total).
Proof using Type*.
  unfold verify_duration. respects_steps;
    auto using respects_get_video_metadata_ffprobe.
Qed.

Section RespectsFolder.

Variables (source_path log_dir : Path).

Hypothesis Hwrite :
  ∀ p c, p ∈ error_logs source_path log_dir →
         respects R (set_fs (fun fs => <[p := NFile c]> (mkdir_p log_dir fs))).

Lemma respects_write_error_log (p : Path) (c : Content) (then_ : M unit) :
  p ∈ error_logs source_path log_dir →
  respects R then_ →
  respects R (write_error_log env log_dir p c then_).
Proof using Type*.
  intros Hp Ht. unfold write_error_log. respects_steps; auto.
Qed.

Lemma respects_check_part (videos : list Path) (v : Path) (st : LoopState) :
  respects R (check_part env videos source_path log_dir v st).
Proof using Type*.
  unfold check_part. respects_steps;
    auto using respects_get_video_metadata_ffprobe;
    apply respects_write_error_log; try respects_steps;
    unfold error_logs, metadata_log_path, mismatch_log_path;
    repeat first [apply list_elem_of_here | apply list_elem_of_further].
Qed.

Lemma respects_check_parts (videos todo : list Path) :
  ∀ st, respects R (check_parts env videos source_path log_dir todo st).
Proof using Type*.
  induction todo as [|v todo IH]; intros st; simpl.
  - respects_steps.
  - respects_steps; auto using respects_check_part.
Qed.

Lemma respects_metadata_check (videos : list Path) :
  respects R (metadata_check env videos source_path log_dir).
Proof using Type*.
  unfold metadata_check. respects_steps;
    auto using respects_check_parts, respects_get_video_metadata_ffprobe.
Qed.

Section RespectsMerge.

Variable out : Path.

Hypothesis Hunlist :
  ∀ lf, list_file_path env (name source_path) = Some lf →
        respects R (set_fs (delete lf)).

Lemma respects_cleanup : respects R (cleanup env (name source_path)).
Proof using Type*.
  unfold cleanup.
  destruct (list_file_path env (name source_path)) as [lf|] eqn:Hl;
    respects_steps; auto.
Qed.

Hypothesis Hunout : respects R (set_fs (delete out)).

Lemma respects_merge_handler (e : Exn) :
  respects R (merge_handler env (name source_path) out log_dir e).
Proof using Type*.
  unfold merge_handler. respects_steps; auto;
    apply respects_write_error_log; auto;
    unfold error_logs, ffmpeg_error_log;
    repeat first [apply list_elem_of_here | apply list_elem_of_further].
Qed.

Hypothesis Hlist :
  ∀ lf c, list_file_path env (name source_path) = Some lf →
          respects R (set_fs (<[lf := c]>)).

Lemma respects_create_list_file (valid : list Path) :
  respects R (create_list_file env (name source_path) valid).
Proof using Type*.
  unfold create_list_file.
  destruct (mktemp env (list_prefix (name source_path)))
    as [dir unique b| |] eqn:Hmk; [|apply respects_raise; exact _..].
  pose proof (Hlist (temp_path dir (list_prefix (name source_path)) unique))
    as Hl.
  unfold list_file_path in Hl. rewrite Hmk in Hl.
  destruct b; respects_steps; auto.
Qed.

Hypothesis Hout : ∀ c, respects R (set_fs (<[out := c]>)).
Hypothesis Hffmpeg : ∀ lf, respects R (emit (Ffmpeg lf out)).

Lemma respects_run_ffmpeg (lf : Path) : respects R (run_ffmpeg env lf out).
Proof using Type*.
  unfold run_ffmpeg, resolve. respects_steps;
    auto using respects_run_command.
Qed.

Lemma respects_merge_steps (valid : list Path) (total : float) :
  respects R (merge_steps env valid total (name source_path) out).
Proof using Type*.
  unfold merge_steps. respects_steps;
    auto using respects_create_list_file, respects_run_ffmpeg,
      respects_verify_duration.
Qed.

Lemma respects_merge_process (valid : list Path) (total : float) :
  respects R (merge_process env valid total (name source_path) out log_dir).
Proof using Type*.
  unfold merge_process. respects_steps;
    auto using respects_merge_steps, respects_merge_handler, respects_cleanup.
Qed.

Lemma respects_merge_video (v0 : Path) (rest : list Path) (output_dir : Path) :
  out = output_path_of v0 source_path output_dir →
  respects R (merge_video env (v0 :: rest) source_path output_dir log_dir).
Proof using Type*.
  intros Ho. unfold merge_video. rewrite <- Ho. respects_steps;
    auto using respects_metadata_check, respects_merge_process.
Qed.

End RespectsMerge.

End RespectsFolder.

End RespectsProgram.

Section RespectsMain.

Variable env : Env.
Context (R : relation World) `{!PreOrder R}.
Variables (output_path log_dir : Path).

Hypothesis Hlog : ∀ lvl m, respects R (log lvl m).
Hypothesis Hmerge :
  ∀ videos path, respects R (merge_video env videos path output_path log_dir).

Lemma respects_process_folders (folder_paths : list Path) :
  ∀ c, respects R (process_folders env folder_paths output_path log_dir c).
Proof using Type*.
  induction folder_paths as [|path rest IH]; intros c;
    cbn [process_folders]; respects_steps; auto using respects_get_videos.
Qed.

Hypothesis Hmkdir : respects R (set_fs (mkdir_p output_path)).

Lemma respects_main (main_path : Path) :
  respects R (main env main_path output_path log_dir).
Proof using Type*.
  unfold main. respects_steps;
    auto using respects_get_dirs, respects_process_folders.
Qed.

End RespectsMain.

(** ** What [merge_video] and [main] leave alone *)

Lemma mkdir_p_lookup (d : Path) (f : FS) (p : Path) :
  mkdir_p d f !! p = f !! p
  ∨ (p ∈ ancestors d ∧ f !! p = None ∧ mkdir_p d f !! p = Some NDir).
Proof.
  unfold mkdir_p. induction (ancestors d) as [|q l IH]; simpl; [by left|].
  destruct (foldr _ f l !! q) eqn:Hq.
  - destruct IH as [IH|(Hin & Hn & Hs)]; [by left|right].
    split; [by apply list_elem_of_further|done].
  - destruct (decide (p = q)) as [->|Hne].
    + rewrite lookup_insert_eq. right. split; [apply list_elem_of_here|].
      split; [|done].
      destruct IH as [IH|(_ & _ & Hs)]; congruence.
    + rewrite lookup_insert_ne by done.
      destruct IH as [IH|(Hin & Hn & Hs)]; [by left|right].
      split; [by apply list_elem_of_further|done].
Qed.

Lemma frame_emit (X Y : Path → Prop) (e : Event) :
  respects (frame X Y) (emit e).
Proof. intros w r w' [= _ <-] p _. by left. Qed.

Lemma frame_set_fs (X Y : Path → Prop) (g : FS → FS) :
  (∀ f p, ¬ X p →
          g f !! p = f !! p ∨ (Y p ∧ f !! p = None ∧ g f !! p = Some NDir)) →
  respects (frame X Y) (set_fs g).
Proof. intros Hg w r w' [= _ <-] p Hp. by apply Hg. Qed.

(** The paths that [merge_video] may write or remove for a folder: the
    output, the list file and the three logs. *)
Lemma merge_video_frame (env : Env) (v0 : Path) (rest : list Path)
    (source_path output_dir log_dir : Path) :
  respects
    (frame (fun p => p = output_path_of v0 source_path output_dir
                     ∨ list_file_path env (name source_path) = Some p
                     ∨ p ∈ error_logs source_path log_dir)
           (fun p => p ∈ ancestors log_dir))
    (merge_video env (v0 :: rest) source_path output_dir log_dir).
Proof.
  apply (respects_merge_video env _
           (fun _ _ => frame_emit _ _ _) (fun _ => frame_emit _ _ _)
           source_path log_dir)
    with (out := output_path_of v0 source_path output_dir);
    [| | | | |intros; apply frame_emit|reflexivity].
  - intros p c Hp. apply frame_set_fs. intros f q Hq.
    rewrite lookup_insert_ne by (intros ->; tauto).
    apply mkdir_p_lookup.
  - intros lf Hlf. apply frame_set_fs. intros f q Hq. left.
    apply lookup_delete_ne. intros ->. tauto.
  - apply frame_set_fs. intros f q Hq. left.
    apply lookup_delete_ne. intros <-. tauto.
  - intros lf c Hlf. apply frame_set_fs. intros f q Hq. left.
    apply lookup_insert_ne. intros ->. tauto.
  - intros c. apply frame_set_fs. intros f q Hq. left.
    apply lookup_insert_ne. intros <-. tauto.
Qed.

(** X6. However a call of [merge_video] ends, the only paths it can have
    changed are the output, the list file and the three error logs of the
    folder; any other path holds what it held before, but for the
    directories made on the way to the log directory where nothing
    was. *)
Theorem merge_video_changes_only_its_own_files
    (env : Env) (v0 : Path) (rest : list Path)
    (source_path output_dir log_dir : Path) (w : World)
    (r : Outcome bool) (w' : World) (p : Path) :
  merge_video env (v0 :: rest) source_path output_dir log_dir w = (r, w') →
  p ≠ output_path_of v0 source_path output_dir →
  list_file_path env (name source_path) ≠ Some p →
  p ∉ error_logs source_path log_dir →
  fs w' !! p = fs w !! p
  ∨ (p ∈ ancestors log_dir ∧ fs w !! p = None ∧ fs w' !! p = Some NDir).
Proof.
  intros Hm H1 H2 H3.
  apply (merge_video_frame env v0 rest source_path output_dir log_dir
           w r w' Hm p).
  tauto.
Qed.

Lemma merge_video_changes_only_its_own_files_witness :
  fs (merge_video (Sample.env FfOk true) Sample.parts_A Sample.folder_A
        Sample.out_dir Sample.logs Sample.world).2
    !! (Sample.folder_A // "1.mp4")
  = fs Sample.world !! (Sample.folder_A // "1.mp4")
  ∨ (Sample.folder_A // "1.mp4" ∈ ancestors Sample.logs
     ∧ fs Sample.world !! (Sample.folder_A // "1.mp4") = None
     ∧ fs (merge_video (Sample.env FfOk true) Sample.parts_A Sample.folder_A
             Sample.out_dir Sample.logs Sample.world).2
         !! (Sample.folder_A // "1.mp4") = Some NDir).
Proof.
  apply (merge_video_changes_only_its_own_files (Sample.env FfOk true)
           (Sample.folder_A // "1.mp4") [Sample.folder_A // "2.mp4"]
           Sample.folder_A Sample.out_dir Sample.logs Sample.world
           (merge_video (Sample.env FfOk true) Sample.parts_A Sample.folder_A
              Sample.out_dir Sample.logs Sample.world).1).
  - vm_compute. reflexivity.
  - vm_compute. discriminate.
  - vm_compute. discriminate.
  - unfold error_logs. rewrite !not_elem_of_cons.
    repeat split; try (vm_compute; discriminate). apply not_elem_of_nil.
Defined.

Lemma keeps_emit (X : Path → Prop) (e : Event) : respects (keeps X) (emit e).
Proof. intros w r w' [= _ <-] p n _ H. exact H. Qed.

Lemma error_logs_in_log_dir (source_path log_dir p : Path) :
  p ∈ error_logs source_path log_dir → ∃ s, p = log_dir // s.
Proof.
  unfold error_logs, metadata_log_path, mismatch_log_path, ffmpeg_error_log.
  rewrite !elem_of_cons, elem_of_nil. intros [->|[->|[->|[]]]]; eauto.
Qed.

(** What was there before a call of [merge_video] is there after it, but
    for the entries of the log directory and the files of [tempfile]. *)
Lemma merge_video_keeps (env : Env) (videos : list Path)
    (path output_path log_dir : Path) :
  respects (keeps (log_or_temp env log_dir))
    (merge_video env videos path output_path log_dir).
Proof.
  destruct videos as [|v0 rest].
  { apply respects_merge_video_nil; [exact _|]. intros. apply keeps_emit. }
  intros w r w' Hm p n Hp Hn.
  destruct (decide (p = output_path_of v0 path output_path)) as [->|Hne].
  - assert (He : path_exists (fs w) (output_path_of v0 path output_path)
                 = true)
      by (unfold path_exists; apply bool_decide_eq_true; by rewrite Hn).
    revert Hm. unfold merge_video. mstep. rewrite He. mstep.
    by intros [= _ <-].
  - destruct (merge_video_frame env v0 rest path output_path log_dir
                w r w' Hm p) as [H|(_ & H & _)]; [|congruence..].
    intros [?|[Hl|Hl]]; [done| |].
    + apply Hp. right. unfold list_file_path in Hl.
      destruct (mktemp env (list_prefix (name path)))
        as [dir unique written| |] eqn:Hmk; [|done..].
      injection Hl as <-. eauto 6.
    + apply Hp. left. by eapply error_logs_in_log_dir.
Qed.

Lemma main_keeps (env : Env) (main_path output_path log_dir : Path) :
  respects (keeps (log_or_temp env log_dir))
    (main env main_path output_path log_dir).
Proof.
  apply respects_main; [exact _|intros; apply keeps_emit| |].
  - intros. apply merge_video_keeps.
  - intros w r w' [= _ <-] p n _ Hn. cbn [fs].
    destruct (mkdir_p_lookup output_path (fs w) p) as [->|(_ & H & _)];
      congruence.
Qed.

(** X7. However [main] ends, every file and directory that was there
    when it started is still there with the same content, but for the
    entries of the log directory and the files that [tempfile] names: no
    part of a folder and no output of an earlier run is removed or
    written over. *)
Theorem main_keeps_what_was_there
    (env : Env) (main_path output_path log_dir : Path) (w : World)
    (r : Outcome (option Counters)) (w' : World) (p : Path) (n : Node) :
  main env main_path output_path log_dir w = (r, w') →
  fs w !! p = Some n →
  (∀ s, p ≠ log_dir // s) →
  (∀ prefix dir unique written,
     mktemp env prefix = TmpCreated dir unique written →
     p ≠ temp_path dir prefix unique) →
  fs w' !! p = Some n.
Proof.
  intros Hm Hn Hlog Htmp.
  apply (main_keeps env main_path output_path log_dir w r w' Hm p n);
    [|exact Hn].
  intros [[s ->]|(prefix & dir & unique & written & Hmk & ->)].
  - by apply (Hlog s).
  - by apply (Htmp prefix dir unique written).
Qed.

Lemma main_keeps_what_was_there_witness :
  fs (main (Sample.env FfOk true) Sample.root Sample.out_dir Sample.logs
        Sample.world).2 !! (Sample.folder_B // "2.mp4")
  = Some (NFile Media).
Proof.
  apply (main_keeps_what_was_there (Sample.env FfOk true) Sample.root
           Sample.out_dir Sample.logs Sample.world
           (main (Sample.env FfOk true) Sample.root Sample.out_dir
              Sample.logs Sample.world).1).
  - vm_compute. reflexivity.
  - vm_compute. reflexivity.
  - intros s. vm_compute. discriminate.
  - intros prefix dir unique written [= <- <- <-]. vm_compute. discriminate.
Defined.

Lemma frame_weaken (X X' Y Y' : Path → Prop) (w w' : World) :
  (∀ p, X p → X' p) → (∀ p, Y p → Y' p) →
  frame X Y w w' → frame X' Y' w w'.
Proof.
  intros HX HY H p Hp.
  destruct (H p) as [Heq|(Hy & Hn & Hs)]; [by intros ?%HX|by left|].
  right. split; [by apply HY|done].
Qed.

Lemma main_frame (env : Env) (main_path output_path log_dir : Path) :
  respects
    (frame (fun p => (∃ s, p = output_path // s) ∨ log_or_temp env log_dir p)
           (fun p => p ∈ ancestors log_dir ∨ p ∈ ancestors output_path))
    (main env main_path output_path log_dir).
Proof.
  apply respects_main; [exact _|intros; apply frame_emit| |].
  - intros [|v0 rest] path.
    { apply respects_merge_video_nil; [exact _|]. intros. apply frame_emit. }
    intros w r w' Hm.
    eapply frame_weaken;
      [| |exact (merge_video_frame env v0 rest path output_path log_dir
                   w r w' Hm)].
    + intros p [->|[Hl|Hl]].
      * left. unfold output_path_of. eauto.
      * right. right. unfold list_file_path in Hl.
        destruct (mktemp env (list_prefix (name path)))
          as [dir unique written| |] eqn:Hmk; [|done..].
        injection Hl as <-. eauto 6.
      * right. left. by eapply error_logs_in_log_dir.
    + intros p Hp. by left.
  - apply frame_set_fs. intros f p _.
    destruct (mkdir_p_lookup output_path f p) as [H|(H1 & H2 & H3)];
      [by left|right]. split; [by right|done].
Qed.

(** X8. However [main] ends, it has changed nothing but entries of the
    output directory, entries of the log directory, the files that
    [tempfile] names and the directories on the way to the output and
    log directories: at any other path there is what there was, or
    nothing as before. *)
Theorem main_changes_only_the_output_the_logs_and_temporary_files
    (env : Env) (main_path output_path log_dir : Path) (w : World)
    (r : Outcome (option Counters)) (w' : World) (p : Path) :
  main env main_path output_path log_dir w = (r, w') →
  (∀ s, p ≠ output_path // s) →
  (∀ s, p ≠ log_dir // s) →
  (∀ prefix dir unique written,
     mktemp env prefix = TmpCreated dir unique written →
     p ≠ temp_path dir prefix unique) →
  p ∉ ancestors output_path →
  p ∉ ancestors log_dir →
  fs w' !! p = fs w !! p.
Proof.
  intros Hm Hout Hlog Htmp Ha1 Ha2.
  destruct (main_frame env main_path output_path log_dir w r w' Hm p)
    as [H|([H|H] & _)]; [|done..].
  intros [[s ->]|[[s ->]|(prefix & dir & unique & written & Hmk & ->)]].
  - by apply (Hout s).
  - by apply (Hlog s).
  - by apply (Htmp prefix dir unique written).
Qed.

Lemma main_changes_only_the_output_the_logs_and_temporary_files_witness :
  fs (main (Sample.env FfOk true) Sample.root Sample.out_dir Sample.logs
        Sample.world).2 !! (Sample.folder_B // "merged.mp4")
  = fs Sample.world !! (Sample.folder_B // "merged.mp4").
Proof.
  apply (main_changes_only_the_output_the_logs_and_temporary_files
           (Sample.env FfOk true) Sample.root
           Sample.out_dir Sample.logs Sample.world
           (main (Sample.env FfOk true) Sample.root Sample.out_dir
              Sample.logs Sample.world).1).
  - vm_compute. reflexivity.
  - intros s. vm_compute. discriminate.
  - intros s. vm_compute. discriminate.
  - intros prefix dir unique written [= <- <- <-]. vm_compute. discriminate.
  - change (ancestors Sample.out_dir) with [Sample.out_dir].
    intros H%list_elem_of_singleton. vm_compute in H. discriminate.
  - change (ancestors Sample.logs) with [Sample.logs].
    intros H%list_elem_of_singleton. vm_compute in H. discriminate.
Defined.

(** ** The counters of [main] *)

Lemma get_videos_returns (env : Env) (d : Path) (w : World) :
  ∃ l w', get_videos env d w = (Return l, w').
Proof.
  unfold get_videos. mstep.
  destruct (is_dir (fs w) d); simpl; [|eauto].
  destruct (can_list env d); simpl; eauto.
Qed.

Lemma attempted_all (l : list Path) :
  Forall (fun p => Str.startswith ["_"; "."]%string (name p) = false) l →
  attempted l = l.
Proof.
  unfold attempted. induction 1 as [|p l Hp _ IH]; [done|].
  rewrite filter_cons_True by done. by rewrite IH.
Qed.

Lemma get_dirs_returns (env : Env) (d : Path) (w : World) :
  ∃ l w', get_dirs env d w = (Return l, w') ∧ attempted l = l.
Proof.
  pose proof (get_dirs_elem env d w) as Hel. revert Hel.
  unfold returned, get_dirs. mstep.
  destruct (is_dir (fs w) d); simpl; [|eauto].
  destruct (can_list env d); simpl; [|eauto]. intros Hel.
  eexists _, _. split; [reflexivity|].
  apply attempted_all, Forall_forall.
  intros p Hp. by apply Hel in Hp as (_ & _ & _ & _ & Hp).
Qed.

(** The loop comes to the end of the list: each folder that it does not
    pass over is counted once as attempted, and once as succeeded or as
    failed. *)
Lemma process_folders_counts (env : Env) (output_path log_dir : Path)
    (folder_paths : list Path) :
  ∀ (c : Counters) (w : World),
    ∃ c' w',
      process_folders env folder_paths output_path log_dir c w
      = (Return c', w')
      ∧ processed_count c'
        = processed_count c + length (attempted folder_paths)
      ∧ success_count c' + fail_count c'
        = success_count c + fail_count c + length (attempted folder_paths).
Proof.
  induction folder_paths as [|path rest IH]; intros c w.
  - exists c, w. unfold attempted. simpl. repeat split; lia.
  - cbn [process_folders]. unfold attempted.
    destruct (Str.startswith ["_"; "."]%string (name path)) eqn:Hn.
    + rewrite filter_cons_False by congruence. apply IH.
    + rewrite filter_cons_True by done. fold (attempted rest).
      cbn [length]. mstep.
      destruct (get_videos_returns env path
                  (mkWorld (fs w)
                     (trace w ++ [Log INFO (ProcessingFolder (name path))])))
        as ([|v vs] & w1 & ->).
      * mstep.
        match goal with
        | |- context [process_folders env rest output_path log_dir ?C ?W] =>
            destruct (IH C W) as (c' & w' & -> & H1 & H2)
        end.
        exists c', w'. split; [done|].
        cbn [processed failed processed_count success_count fail_count] in *.
        lia.
      * destruct (merge_video_returns env (v :: vs) path output_path log_dir
                    w1) as (b & w2 & ->).
        mstep.
        match goal with
        | |- context [process_folders env rest output_path log_dir ?C ?W] =>
            destruct (IH C W) as (c' & w' & -> & H1 & H2)
        end.
        exists c', w'. split; [done|].
        destruct b;
          cbn [processed failed succeeded processed_count success_count
               fail_count] in *; lia.
Qed.

(** X10. The loop of [main] comes to the end of its list, whatever happens
    to a folder: each folder whose name does not start with an underscore
    or a dot is counted as attempted, and as succeeded or as failed, once. *)
Theorem every_folder_is_attempted_and_counted
    (env : Env) (output_path log_dir : Path) (folder_paths : list Path)
    (c : Counters) (w : World) :
  ∃ c' w',
    process_folders env folder_paths output_path log_dir c w = (Return c', w')
    ∧ processed_count c' = processed_count c + length (attempted folder_paths)
    ∧ success_count c' + fail_count c'
      = success_count c + fail_count c + length (attempted folder_paths).
Proof. apply process_folders_counts. Qed.

(** ** When ffmpeg is run *)

Lemma emits_emit (P : Event → Prop) (e : Event) :
  P e → respects (emits P) (emit e).
Proof.
  intros He w r w' [= _ <-]. exists [e]. split; [done|]. by constructor.
Qed.

Lemma emits_set_fs (P : Event → Prop) (g : FS → FS) :
  respects (emits P) (set_fs g).
Proof. intros w r w' [= _ <-]. exists []. by rewrite app_nil_r. Qed.

Lemma not_ffmpeg_calls (evs : list Event) :
  Forall not_ffmpeg evs → ffmpeg_calls evs = [].
Proof.
  induction 1 as [|e evs He _ IH]; [done|].
  destruct e; simpl; done.
Qed.

Ltac quiet_leaf :=
  first [exact _ | by (intros; apply emits_emit)
         | intros; apply emits_set_fs].

Section Tools.

Variable env : Env.
Variables (source_path log_dir out : Path).

Lemma quiet_log (lvl : Level) (m : Msg) :
  respects (emits not_ffmpeg) (log lvl m).
Proof. by apply emits_emit. Qed.

Lemma quiet_probe (p : Path) : respects (emits not_ffmpeg) (emit (Probe p)).
Proof. by apply emits_emit. Qed.

Lemma quiet_write (p : Path) (c : Content) :
  p ∈ error_logs source_path log_dir →
  respects (emits not_ffmpeg)
    (set_fs (fun fs => <[p := NFile c]> (mkdir_p log_dir fs))).
Proof. intros _. apply emits_set_fs. Qed.

(** The validation does not run ffmpeg, however it ends. *)
Lemma metadata_check_quiet (videos : list Path) :
  respects (emits not_ffmpeg)
    (metadata_check env videos source_path log_dir).
Proof.
  apply respects_metadata_check; quiet_leaf.
Qed.

Lemma merge_handler_quiet (e : Exn) :
  respects (emits not_ffmpeg)
    (merge_handler env (name source_path) out log_dir e).
Proof.
  apply respects_merge_handler; quiet_leaf.
Qed.

Lemma cleanup_quiet :
  respects (emits not_ffmpeg) (cleanup env (name source_path)).
Proof.
  apply respects_cleanup with (log_dir := []); quiet_leaf.
Qed.

Lemma verify_duration_quiet (total : float) :
  respects (emits not_ffmpeg)
    (verify_duration env (name source_path) out total).
Proof.
  apply respects_verify_duration; quiet_leaf.
Qed.

Lemma run_ffmpeg_once (lf : Path) (w : World) (r : Outcome unit)
    (w' : World) :
  run_ffmpeg env lf out w = (r, w') →
  ∃ evs, trace w' = trace w ++ Ffmpeg lf out :: evs
         ∧ Forall not_ffmpeg evs.
Proof.
  unfold run_ffmpeg, _run_command, run_of_ffmpeg, resolve. mstep.
  destruct (ffmpeg env _ out) as [|stderr [|]| |[|]]; mstep;
    intros [= _ <-]; cbn [trace]; rewrite <- ?app_assoc;
    eexists; (split; [reflexivity|]); repeat constructor.
Qed.

(** The second [try] block runs ffmpeg once at most, on the list file and
    the output. *)
Lemma merge_process_once (valid : list Path) (total : float) (w : World)
    (r : Outcome bool) (w' : World) :
  merge_process env valid total (name source_path) out log_dir w = (r, w') →
  ∃ evs,
    trace w' = trace w ++ evs
    ∧ (ffmpeg_calls evs = []
       ∨ ∃ lf, list_file_path env (name source_path) = Some lf
               ∧ ffmpeg_calls evs = [(lf, out)]).
Proof.
  unfold merge_process, try_finally, try_except.
  destruct (merge_steps env valid total (name source_path) out w)
    as [r1 w1] eqn:Hs.
  assert (H1 : ∃ evs,
             trace w1 = trace w ++ evs
             ∧ (ffmpeg_calls evs = []
                ∨ ∃ lf, list_file_path env (name source_path) = Some lf
                        ∧ ffmpeg_calls evs = [(lf, out)])).
  { revert Hs. unfold merge_steps, create_list_file, list_file_path.
    destruct (mktemp env (list_prefix (name source_path)))
      as [dir unique [|]| |]; mstep;
      try (intros [= _ <-]; exists []; rewrite app_nil_r; split; [done|by left]).
    destruct (run_ffmpeg env _ out _) as [[[]|e] w2] eqn:Hr;
      apply run_ffmpeg_once in Hr as (evs & Hr & Hq); cbn [trace] in Hr.
    - destruct (verify_duration env (name source_path) out total _)
        as [[[]|e] w3] eqn:Hv;
        apply verify_duration_quiet in Hv as (evs' & Hv & Hq');
        cbn [trace] in Hv; intros [= _ <-]; cbn [trace];
        rewrite ?Hv, Hr, <- !app_assoc; eexists; (split; [reflexivity|]);
        right; eexists; (split; [reflexivity|]);
        rewrite !ffmpeg_calls_app; simpl;
        rewrite !not_ffmpeg_calls by done; reflexivity.
    - intros [= _ <-]. rewrite Hr, <- !app_assoc.
      eexists. split; [reflexivity|]. right. eexists. split; [reflexivity|].
      rewrite !ffmpeg_calls_app. simpl. by rewrite not_ffmpeg_calls. }
  destruct H1 as (evs1 & Ht1 & Hf1).
  assert (H2 : ∀ w2 r2 w3 evs2,
             trace w2 = trace w1 ++ evs2 → Forall not_ffmpeg evs2 →
             cleanup env (name source_path) w2 = (r2, w3) →
             ∃ evs,
               trace w3 = trace w ++ evs
               ∧ (ffmpeg_calls evs = []
                  ∨ ∃ lf, list_file_path env (name source_path) = Some lf
                          ∧ ffmpeg_calls evs = [(lf, out)])).
  { intros w2 r2 w3 evs2 Ht2 Hq2 Hc.
    apply cleanup_quiet in Hc as (evs3 & Ht3 & Hq3).
    exists (evs1 ++ evs2 ++ evs3).
    split; [by rewrite Ht3, Ht2, Ht1, <- !app_assoc|].
    rewrite !ffmpeg_calls_app, (not_ffmpeg_calls evs2),
      (not_ffmpeg_calls evs3), !app_nil_r by done.
    exact Hf1. }
  destruct r1 as [b|e].
  - destruct (cleanup env (name source_path) w1) as [[[]|e] w3] eqn:Hc;
      intros [= _ <-];
      apply (H2 w1 _ w3 [] (eq_sym (app_nil_r _)) (Forall_nil_2 _) Hc).
  - destruct (merge_handler env (name source_path) out log_dir e w1)
      as [r2 w2] eqn:Hh.
    apply merge_handler_quiet in Hh as (evs2 & Ht2 & Hq2).
    destruct (cleanup env (name source_path) w2) as [[[]|e'] w3] eqn:Hc;
      intros [= _ <-]; apply (H2 w2 _ w3 evs2 Ht2 Hq2 Hc).
Qed.

End Tools.

(** X12. However a call of [merge_video] ends, it has run ffmpeg once at
    most, on the list file and the output path; and it has run it only
    for a folder whose output was not there, whose parts were all probed
    and whose kept parts - there is one at least - share one resolution. *)
Theorem ffmpeg_runs_once_and_only_after_validation
    (env : Env) (v0 : Path) (rest : list Path)
    (source_path output_dir log_dir : Path) (w : World)
    (r : Outcome bool) (w' : World) :
  merge_video env (v0 :: rest) source_path output_dir log_dir w = (r, w') →
  ∃ evs,
    trace w' = trace w ++ evs
    ∧ (ffmpeg_calls evs = []
       ∨ ∃ res lf,
           path_exists (fs w) (output_path_of v0 source_path output_dir)
           = false
           ∧ uniform env res (v0 :: rest)
           ∧ kept env (v0 :: rest) ≠ []
           ∧ list_file_path env (name source_path) = Some lf
           ∧ ffmpeg_calls evs
             = [(lf, output_path_of v0 source_path output_dir)]).
Proof.
  destruct (path_exists (fs w) (output_path_of v0 source_path output_dir))
    eqn:He.
  { unfold merge_video. mstep. rewrite He. mstep. intros [= _ <-].
    eexists. split; [reflexivity|]. by left. }
  rewrite (merge_video_fresh _ _ _ _ _ _ _ He).
  destruct (metadata_check env (v0 :: rest) source_path log_dir w)
    as [[[[valid total]|]|e] w1] eqn:Hc.
  - apply metadata_check_passed in Hc
      as (res & evs1 & Hu & -> & Hk & _ & -> & _ & Hf1 & _).
    intros Hm. apply merge_process_once in Hm as (evs2 & Ht & Hf2).
    cbn [trace] in Ht. exists (evs1 ++ evs2).
    split; [by rewrite Ht, app_assoc|].
    rewrite ffmpeg_calls_app, Hf1. simpl.
    destruct Hf2 as [Hf2|(lf & Hl & Hf2)]; [by left|].
    right. exists res, lf. done.
  - apply metadata_check_quiet in Hc as (evs & Ht & Hq).
    intros [= _ <-]. exists evs. split; [done|]. left.
    by apply not_ffmpeg_calls.
  - apply metadata_check_quiet in Hc as (evs & Ht & Hq).
    intros [= _ <-]. exists evs. split; [done|]. left.
    by apply not_ffmpeg_calls.
Qed.

Lemma ffmpeg_runs_once_and_only_after_validation_witness :
  ∃ evs,
    trace (merge_video (Sample.env (FfExit "bad" true) true) Sample.parts_A
             Sample.folder_A Sample.out_dir Sample.logs Sample.world).2
    = trace Sample.world ++ evs
    ∧ (ffmpeg_calls evs = []
       ∨ ∃ res lf,
           path_exists (fs Sample.world)
             (output_path_of (Sample.folder_A // "1.mp4") Sample.folder_A
                Sample.out_dir) = false
           ∧ uniform (Sample.env (FfExit "bad" true) true) res Sample.parts_A
           ∧ kept (Sample.env (FfExit "bad" true) true) Sample.parts_A ≠ []
           ∧ list_file_path (Sample.env (FfExit "bad" true) true)
               (name Sample.folder_A) = Some lf
           ∧ ffmpeg_calls evs
             = [(lf, output_path_of (Sample.folder_A // "1.mp4")
                       Sample.folder_A Sample.out_dir)]).
Proof.
  apply (ffmpeg_runs_once_and_only_after_validation
           (Sample.env (FfExit "bad" true) true)
           (Sample.folder_A // "1.mp4") [Sample.folder_A // "2.mp4"]
           Sample.folder_A Sample.out_dir Sample.logs Sample.world
           (merge_video (Sample.env (FfExit "bad" true) true) Sample.parts_A
              Sample.folder_A Sample.out_dir Sample.logs Sample.world).1).
  vm_compute. reflexivity.
Defined.

(** ** Exceptions of the validation, and the summary of [main] *)

(** X9. The first [try] block of [merge_video], the validation, lets no
    exception out, whatever ffprobe and the system do: its handlers turn
    the absence of ffprobe and every other exception into [return False],
    and a refused write of an error log is only logged. Whatever its
    result, it has not run ffmpeg. *)
Theorem validation_lets_no_exception_out
    (env : Env) (videos : list Path) (source_path log_dir : Path)
    (w : World) :
  ∃ r w' evs,
    metadata_check env videos source_path log_dir w = (Return r, w')
    ∧ trace w' = trace w ++ evs
    ∧ ffmpeg_calls evs = [].
Proof.
  destruct (metadata_check_returns env videos source_path log_dir w)
    as (r & w' & Heq).
  destruct (metadata_check_quiet env source_path log_dir videos w _ w' Heq)
    as (evs & Ht & Hq).
  exists r, w', evs. repeat split; [done..|]. by apply not_ffmpeg_calls.
Qed.

(** Every block only adds to the trace. *)
Lemma merge_video_grows_trace (env : Env) (videos : list Path)
    (path output_path log_dir : Path) :
  respects (emits (fun _ => True))
    (merge_video env videos path output_path log_dir).
Proof.
  destruct videos as [|v0 rest].
  - apply respects_merge_video_nil; quiet_leaf.
  - apply (respects_merge_video env (emits (fun _ => True)))
      with (out := output_path_of v0 path output_path);
      first [reflexivity | quiet_leaf].
Qed.

(** The run of [main], from the dependency check to the summary. *)
Lemma main_runs (env : Env) (main_path output_path log_dir : Path)
    (w : World) :
  ∃ o w' evs,
    main env main_path output_path log_dir w = (Return o, w')
    ∧ trace w' = trace w ++ evs
    ∧ (o = None ↔
       which env "ffmpeg" && which env "ffprobe"
       && is_dir (fs w) main_path && can_mkdir env output_path = false)
    ∧ match o with
      | Some c =>
          success_count c + fail_count c = processed_count c
          ∧ last evs
            = Some (Log INFO (Finished (processed_count c) (processed_count c)
                                (success_count c) (fail_count c)))
      | None => ∃ m, evs = [Log CRITICAL m]
      end.
Proof.
  unfold main.
  destruct (which env "ffmpeg"); cbn [negb andb];
    [|mstep; eexists None, _, _; split; [reflexivity|];
      split; [reflexivity|]; split; [done|eauto]].
  destruct (which env "ffprobe"); cbn [negb andb];
    [|mstep; eexists None, _, _; split; [reflexivity|];
      split; [reflexivity|]; split; [done|eauto]].
  mstep.
  destruct (is_dir (fs w) main_path); cbn [negb andb];
    [|eexists None, _, _; split; [reflexivity|];
      split; [reflexivity|]; split; [done|eauto]].
  destruct (can_mkdir env output_path); cbn [negb andb];
    [|eexists None, _, _; split; [reflexivity|];
      split; [reflexivity|]; split; [done|eauto]].
  match goal with
  | |- context [get_dirs env main_path ?W] =>
      destruct (get_dirs_returns env main_path W) as (l & w1 & Hg & Hl);
      pose proof (respects_get_dirs env (emits (fun _ => True))
                    (fun _ _ => emits_emit _ _ I) main_path W _ w1 Hg)
        as (e1 & Ht1 & _)
  end.
  rewrite Hg.
  destruct (process_folders_counts env output_path log_dir l counters_init w1)
    as (c & w2 & Hp & H1 & H2).
  pose proof (respects_process_folders env (emits (fun _ => True))
                output_path log_dir (fun _ _ => emits_emit _ _ I)
                (fun videos path =>
                   merge_video_grows_trace env videos path output_path
                     log_dir)
                l counters_init w1 _ w2 Hp) as (e2 & Ht2 & _).
  rewrite Hp. rewrite Hl in H1, H2. simpl in H1, H2. cbn [trace] in Ht1.
  eexists (Some c), _, ([Log INFO Started] ++ e1 ++ e2 ++ [_]).
  split; [reflexivity|]. cbn [trace].
  split; [by rewrite Ht2, Ht1, <- !app_assoc|]. split; [done|].
  split; [lia|]. rewrite !app_assoc, last_snoc, H1. reflexivity.
Qed.

(** X11. A run of [main] that returns has stopped before the batch exactly
    when ffmpeg or ffprobe was not found, the source was no directory or
    the output directory could not be made: then one critical record is
    all it logged. Otherwise it has logged the summary, in which the
    folders attempted are the folders found, and the folders succeeded and
    failed add up to them. *)
Theorem main_summary_adds_up
    (env : Env) (main_path output_path log_dir : Path) (w : World)
    (o : option Counters) (w' : World) :
  main env main_path output_path log_dir w = (Return o, w') →
  (o = None ↔
   which env "ffmpeg" && which env "ffprobe"
   && is_dir (fs w) main_path && can_mkdir env output_path = false)
  ∧ ∃ evs,
      trace w' = trace w ++ evs
      ∧ match o with
        | Some c =>
            success_count c + fail_count c = processed_count c
            ∧ Log INFO (Finished (processed_count c) (processed_count c)
                          (success_count c) (fail_count c)) ∈ evs
        | None => ∃ m, evs = [Log CRITICAL m]
        end.
Proof.
  intros Hm.
  destruct (main_runs env main_path output_path log_dir w)
    as (o0 & w0 & evs & Heq & Ht & Hiff & Hcase).
  rewrite Heq in Hm. injection Hm as <- <-.
  split; [exact Hiff|]. exists evs. split; [exact Ht|].
  destruct o0 as [c|]; [|exact Hcase].
  destruct Hcase as [Hc Hl]. split; [exact Hc|].
  by apply last_Some_elem_of.
Qed.

Lemma main_summary_adds_up_witness :
  ∃ evs,
    trace (main (Sample.env FfOk true) Sample.root Sample.out_dir Sample.logs
             Sample.world).2
    = trace Sample.world ++ evs
    ∧ Log INFO (Finished 5 5 4 1) ∈ evs.
Proof.
  destruct (main_summary_adds_up (Sample.env FfOk true) Sample.root
              Sample.out_dir Sample.logs Sample.world
              (Some (mkCounters 5 4 1))
              (main (Sample.env FfOk true) Sample.root Sample.out_dir
                 Sample.logs Sample.world).2)
    as [_ (evs & Ht & _ & Hin)]; [vm_compute; reflexivity|].
  exists evs. split; [exact Ht|exact Hin].
Defined.

(** ** The reference of the loop *)

Section Reference.

Variable env : Env.
Variables (videos : list Path) (source_path log_dir : Path).

Lemma check_part_break_state (v : Path) (st st1 : LoopState) (w w1 : World) :
  check_part env videos source_path log_dir v st w
  = (Return (Break st1), w1) →
  st1 = mismatch_found st.
Proof.
  unfold check_part, _get_video_metadata_ffprobe, _run_command, run_of_probe,
    write_error_log, resolve.
  mrun.
  destruct (ffprobe env v); cbn;
    repeat (case_match; simplify_eq; cbn; try discriminate);
    intros [= <- _]; reflexivity.
Qed.

Lemma check_parts_reference (todo : list Path) :
  ∀ (st st' : LoopState) (w w' : World),
    check_parts env videos source_path log_dir todo st w = (Return st', w') →
    reference_set env st → reference_set env st'.
Proof.
  induction todo as [|v todo IH]; intros st st' w w' Hrun Hst.
  { simpl in Hrun. by injection Hrun as <- _. }
  rewrite check_parts_cons in Hrun.
  destruct (check_part env videos source_path log_dir v st w)
    as [[[st1|st1]|e] w1] eqn:Hcp; [| |discriminate].
  - apply (IH st1 st' w1 w' Hrun).
    apply check_part_continue in Hcp as (m & Hp & Hst1).
    destruct (duration m <=? 0)%float eqn:Hd; [by subst|].
    unfold reference_set in *.
    destruct (first_video_metadata st) as [f|] eqn:Hf.
    + destruct Hst1 as [_ ->]. simpl. rewrite Hf.
      destruct (valid_videos_for_merge st) as [|v0 l]; [done|]. exact Hst.
    + subst st1. simpl.
      destruct (valid_videos_for_merge st) as [|v0 l];
        [|by destruct Hst as (? & ? & _)].
      simpl. exists m. split; [done|]. by apply usable_Some.
  - apply check_part_break_state in Hcp as ->. injection Hrun as <- _.
    exact Hst.
Qed.

End Reference.

(** X13. Whenever the loop of the validation ends without an exception, by
    its end or by [break], its reference is set exactly when a part has
    been kept, and it is then the metadata of the first part kept: the
    second probe of that part, after the loop, is never needed. *)
Theorem reference_is_the_metadata_of_the_first_kept_part
    (env : Env) (videos : list Path) (source_path log_dir : Path)
    (w : World) (st : LoopState) (w' : World) :
  check_parts env videos source_path log_dir videos loop_init w
  = (Return st, w') →
  match valid_videos_for_merge st with
  | [] => first_video_metadata st = None
  | v0 :: _ =>
      ∃ m, first_video_metadata st = Some m
           ∧ ffprobe env v0 = ProbeOk m
           ∧ (duration m <=? 0)%float = false
  end.
Proof.
  intros Hrun.
  pose proof (check_parts_reference env videos source_path log_dir videos
                loop_init st w w' Hrun eq_refl) as H.
  unfold reference_set in H.
  destruct (valid_videos_for_merge st) as [|v0 l]; [done|].
  destruct H as (m & Hf & Hu). apply usable_Some in Hu. eauto.
Qed.

Lemma reference_is_the_metadata_of_the_first_kept_part_witness :
  ∃ m,
    first_video_metadata
      (mkLoop 12.5 (Some (Sample.full_hd 12.5)) [Sample.folder_C // "1.mp4"]
         true) = Some m
    ∧ ffprobe (Sample.env FfOk true) (Sample.folder_C // "1.mp4") = ProbeOk m
    ∧ (duration m <=? 0)%float = false.
Proof.
  apply (reference_is_the_metadata_of_the_first_kept_part
           (Sample.env FfOk true) Sample.parts_C Sample.folder_C Sample.logs
           Sample.world
           (mkLoop 12.5 (Some (Sample.full_hd 12.5))
              [Sample.folder_C // "1.mp4"] true)
           (check_parts (Sample.env FfOk true) Sample.parts_C Sample.folder_C
              Sample.logs Sample.parts_C loop_init Sample.world).2).
  vm_compute. reflexivity.
Defined.

(** ** The probe and the scans *)

(** X14. A run of ffprobe that fails, or whose output is of no use, raises
    nothing out of [_get_video_metadata_ffprobe]: the result is [None]
    and the last record a warning. Metadata come from a good run only,
    and the only exceptions that get out are the one of a missing ffprobe
    and those that no handler names. The files are left as they are, and
    the first event is the run of ffprobe. *)
Theorem probe_failures_become_none (env : Env) (p : Path) (w : World) :
  ∃ evs,
    (_get_video_metadata_ffprobe env p w).2
    = mkWorld (fs w) (trace w ++ Probe p :: evs)
    ∧ match (_get_video_metadata_ffprobe env p w).1 with
      | Return (Some m) => ffprobe env p = ProbeOk m ∧ evs = []
      | Return None =>
          unreadable env p ∧ ∃ msg, last evs = Some (Log WARNING msg)
      | Raise e =>
          (e = FileNotFoundError ∧ ffprobe env p = ProbeToolMissing)
          ∨ (e = OtherException ∧ ffprobe env p = ProbeCrash)
      end.
Proof.
  unfold _get_video_metadata_ffprobe, _run_command, run_of_probe, unreadable,
    resolve.
  destruct (ffprobe env p); mstep; rewrite <- ?app_assoc;
    eexists; (split; [reflexivity|]); simpl; eauto.
Qed.

(** X15. [get_dirs] lists exactly the entries of the directory that are
    directories and whose names start neither with an underscore nor with
    a dot; it lists nothing when the path is no directory or cannot be
    read. *)
Theorem get_dirs_lists_the_visible_subdirectories
    (env : Env) (main_path : Path) (w : World) (p : Path) :
  p ∈ returned (get_dirs env main_path w) ↔
  is_dir (fs w) main_path = true ∧ can_list env main_path = true ∧
  p ∈ entries (fs w) main_path ∧ is_dir (fs w) p = true ∧
  Str.startswith ["_"; "."]%string (name p) = false.
Proof. apply get_dirs_elem. Qed.

(** ** The tolerance of the duration check *)

Lemma SFcompare_le_lt (d a x : spec_float) :
  SFleb d a = true → SFltb a x = true → SFltb x d = false.
Proof.
  unfold SFleb, SFltb.
  destruct d as [[|]|[|]| |[|] md ed], a as [[|]|[|]| |[|] ma ea],
    x as [[|]|[|]| |[|] mx ex]; simpl; try congruence;
    change (PosDef.Pos.compare_cont Eq) with Pos.compare;
    destruct (Z.compare_spec ed ea), (Z.compare_spec ea ex),
      (Z.compare_spec ex ed); simpl; try congruence; try lia;
    destruct (Pos.compare_spec md ma), (Pos.compare_spec ma mx),
      (Pos.compare_spec mx md); simpl; try congruence; try lia.
Qed.

Lemma SFcompare_le_not_lt (d a : spec_float) :
  SFleb d a = true → SFltb a d = false.
Proof.
  unfold SFleb, SFltb.
  destruct d as [[|]|[|]| |[|] md ed], a as [[|]|[|]| |[|] ma ea];
    simpl; try congruence;
    change (PosDef.Pos.compare_cont Eq) with Pos.compare;
    destruct (Z.compare_spec ed ea), (Z.compare_spec ea ed);
    simpl; try congruence; try lia;
    destruct (Pos.compare_spec md ma), (Pos.compare_spec ma md);
    simpl; try congruence; try lia.
Qed.

Lemma tolerance_at_least_five (total d : float) :
  (d <=? duration_tolerance_abs)%float = true →
  (max_allowed_diff total <? d)%float = false.
Proof.
  intros Hd. unfold max_allowed_diff, py_max.
  destruct (duration_tolerance_abs <? total * duration_tolerance_rel)%float
    eqn:Hx.
  - rewrite ltb_spec in *. rewrite leb_spec in Hd.
    by eapply SFcompare_le_lt.
  - rewrite ltb_spec. rewrite leb_spec in Hd. by apply SFcompare_le_not_lt.
Qed.

(** X16. The tolerance of the duration check is never below five seconds.
    When the merged file is probed and its duration is within five seconds
    of the sum of the parts, the check passes without a warning, whatever
    the sum is - a negative number, an infinity or no number at all. *)
Theorem five_seconds_of_drift_pass
    (env : Env) (folder_name : string) (out : Path) (total : float)
    (m : Metadata) (w : World) :
  ffprobe env out = ProbeOk m →
  (duration_diff total (duration m) <=? 5)%float = true →
  verify_duration env folder_name out total w
  = (Return (),
     mkWorld (fs w)
       (trace w ++ [Probe out; Log INFO (DurationPassed folder_name)])).
Proof.
  intros Hp Hd. unfold verify_duration. unfold mbind at 1, M_bind, bind.
  rewrite (probe_ok _ _ _ _ Hp).
  pose proof (tolerance_at_least_five total _ Hd) as Ht.
  unfold max_allowed_diff, duration_diff in Ht. rewrite Ht.
  mstep. by rewrite <- app_assoc.
Qed.

Lemma five_seconds_of_drift_pass_witness :
  verify_duration (Sample.env FfOk true) "A" (Sample.out_dir // "A.mp4")
    72.5%float Sample.world
  = (Return (),
     mkWorld (fs Sample.world)
       (trace Sample.world
        ++ [Probe (Sample.out_dir // "A.mp4");
            Log INFO (DurationPassed "A")])).
Proof.
  apply (five_seconds_of_drift_pass (Sample.env FfOk true) "A"
           (Sample.out_dir // "A.mp4") 72.5%float (Sample.full_hd 75)).
  - vm_compute. reflexivity.
  - vm_compute. reflexivity.
Defined.

(** ** The closing scan *)

Lemma name_joinpath (d : Path) (s : string) : name (d // s) = s.
Proof. unfold name, joinpath. apply last_last. Qed.

Lemma rfind_from_app (c : ascii) (s t : string) :
  ∀ i acc,
    Str.rfind_from c (s +:+ t) i acc
    = Str.rfind_from c t (i + String.length s) (Str.rfind_from c s i acc).
Proof.
  induction s as [|a s IH]; intros i acc.
  - simpl. by rewrite Nat.add_0_r.
  - change (String a s +:+ t) with (String a (s +:+ t)). simpl.
    rewrite IH. f_equal. lia.
Qed.

Lemma length_app_string (s t : string) :
  String.length (s +:+ t) = String.length s + String.length t.
Proof.
  induction s as [|a s IH]; [done|].
  change (String a s +:+ t) with (String a (s +:+ t)). simpl. by rewrite IH.
Qed.

Lemma substring_app (s t : string) (k n : nat) :
  String.substring (String.length s + k) n (s +:+ t) = String.substring k n t.
Proof.
  induction s as [|a s IH]; [done|].
  change (String a s +:+ t) with (String a (s +:+ t)). simpl. exact IH.
Qed.

(** The extension of a name that ends in a tail [t] with a dot in it. *)
Lemma suffix_of_tail (d : Path) (s t e : string) (k : nat) :
  (∀ j acc, Str.rfind_from "." t j acc = Some (k + j)) →
  0 < k → k + 1 < String.length t →
  String.substring k (String.length t - k) t = e →
  suffix (d // (s +:+ t)) = e.
Proof.
  intros Hr H0 H1 He. unfold suffix, Str.rfind.
  rewrite name_joinpath, rfind_from_app, Hr, length_app_string.
  replace (0 <? _)%nat with true by (symmetry; apply Nat.ltb_lt; lia).
  replace (_ <? _)%nat with true by (symmetry; apply Nat.ltb_lt; lia).
  cbn [andb]. unfold Str.from. rewrite length_app_string.
  replace (k + (0 + String.length s)) with (String.length s + k) by lia.
  rewrite substring_app.
  replace (String.length s + String.length t - (String.length s + k))
    with (String.length t - k) by lia.
  exact He.
Qed.

Lemma error_log_suffix (source_path log_dir p : Path) :
  p ∈ error_logs source_path log_dir → suffix p = ".log"%string.
Proof.
  unfold error_logs, metadata_log_path, mismatch_log_path, ffmpeg_error_log.
  rewrite !elem_of_cons, elem_of_nil. intros [->|[->|[->|[]]]].
  - by apply suffix_of_tail with (k := 15); [intros; reflexivity|lia|simpl; lia|].
  - by apply suffix_of_tail with (k := 20); [intros; reflexivity|lia|simpl; lia|].
  - by apply suffix_of_tail with (k := 13); [intros; reflexivity|lia|simpl; lia|].
Qed.

Lemma entries_joinpath (f : FS) (d : Path) (s : string) (n : Node) :
  f !! (d // s) = Some n → d // s ∈ entries f d.
Proof.
  intros H. unfold entries. apply list_elem_of_filter. split.
  - unfold child_of, joinpath. apply bool_decide_eq_true.
    rewrite take_app_length, length_app. simpl. split; [done|lia].
  - apply list_elem_of_fmap. exists (d // s, n). split; [done|].
    by apply elem_of_map_to_list.
Qed.

(** X17. The closing scan of [main] counts the error logs of [merge_video]:
    when the log of a folder's failure - of its metadata, of its
    resolutions or of ffmpeg - is in the log directory, the scan reports
    a number of error logs above zero, unless the name of the log starts
    with the prefix of the main log, [video_merger_], which hides it. *)
Theorem closing_scan_counts_the_error_logs
    (env : Env) (source_path log_dir : Path) (w : World) (p : Path) :
  p ∈ error_logs source_path log_dir →
  is_file (fs w) p = true →
  is_dir (fs w) log_dir = true →
  can_list env log_dir = true →
  Str.startswith ["video_merger_"]%string (name p) = false →
  ∃ n, check_error_logs env log_dir w = (Return (ErrorLogsFound (S n)), w).
Proof.
  intros Hp Hf Hd Hl Hn.
  assert (He : path_exists (fs w) log_dir = true).
  { unfold path_exists, is_dir in *. apply bool_decide_eq_true.
    destruct (fs w !! log_dir); [eauto|done]. }
  unfold check_error_logs. mstep. rewrite He, Hd, Hl. cbn [negb].
  match goal with
  | |- context [length (filter ?P ?l)] =>
      assert (Hin : p ∈ filter P l)
  end.
  { apply list_elem_of_filter. split.
    - split; [done|]. split; [done|].
      by rewrite (error_log_suffix _ _ _ Hp).
    - destruct (error_logs_in_log_dir _ _ _ Hp) as [s ->].
      unfold is_file in Hf.
      destruct (fs w !! (log_dir // s)) as [n|] eqn:Hs; [|done].
      by eapply entries_joinpath. }
  destruct (filter _ _) as [|x l]; [by apply elem_of_nil in Hin|].
  simpl. eauto.
Qed.

Lemma closing_scan_counts_the_error_logs_witness :
  ∃ n,
    check_error_logs (Sample.env (FfExit "bad" true) true) Sample.logs
      (merge_video (Sample.env (FfExit "bad" true) true) Sample.parts_A
         Sample.folder_A Sample.out_dir Sample.logs Sample.world).2
    = (Return (ErrorLogsFound (S n)),
       (merge_video (Sample.env (FfExit "bad" true) true) Sample.parts_A
          Sample.folder_A Sample.out_dir Sample.logs Sample.world).2).
Proof.
  apply (closing_scan_counts_the_error_logs
           (Sample.env (FfExit "bad" true) true) Sample.folder_A Sample.logs
           (merge_video (Sample.env (FfExit "bad" true) true) Sample.parts_A
              Sample.folder_A Sample.out_dir Sample.logs Sample.world).2
           (ffmpeg_error_log "A" Sample.logs)).
  - unfold error_logs.
    apply list_elem_of_further, list_elem_of_further, list_elem_of_here.
  - vm_compute. reflexivity.
  - vm_compute. reflexivity.
  - vm_compute. reflexivity.
  - vm_compute. reflexivity.
Defined.

(** ** Exceptions in the second [try] block *)

Section MergeExceptions.

Variable env : Env.
Variables (valid : list Path) (total : float).
Variables (v source_path output_dir log_dir : Path).

Local Abbreviation folder_name := (name source_path).
Local Abbreviation out := (output_path_of v source_path output_dir).

Lemma merge_process_no_list_file (w : World) :
  path_exists (fs w) out = false →
  (∀ dir unique,
     mktemp env (list_prefix folder_name) ≠ TmpCreated dir unique true) →
  ∃ evs w',
    merge_process env valid total folder_name out log_dir w
    = (Return false, w')
    ∧ trace w' = trace w ++ evs
    ∧ probe_calls evs = [] ∧ ffmpeg_calls evs = []
    ∧ head evs
      = Some (match mktemp env (list_prefix folder_name) with
              | TmpFileNotFound => Log CRITICAL FfmpegNotFound
              | _ => Log ERROR (UnexpectedMergeError folder_name)
              end)
    ∧ fs w' !! out = None
    ∧ ∀ lf, list_file_path env folder_name = Some lf →
            can_unlink env lf = true → fs w' !! lf = None.
Proof.
  intros He Hmk.
  unfold merge_process, try_finally, try_except, merge_steps,
    create_list_file.
  destruct (mktemp env (list_prefix folder_name))
    as [dir unique [|]| |] eqn:Hm; [by destruct (Hmk dir unique)| | |].
  - unfold list_file_path. rewrite Hm.
    assert (Hne : temp_path dir (list_prefix folder_name) unique ≠ out)
      by apply list_file_is_no_output.
    unfold merge_handler. mstep.
    replace (path_exists _ out) with false
      by (symmetry; apply path_exists_false;
          rewrite lookup_insert_ne by done; by apply path_exists_false).
    mstep. unfold cleanup, list_file_path. rewrite Hm. mstep.
    replace (path_exists _ (temp_path dir (list_prefix folder_name) unique))
      with true
      by (symmetry; apply bool_decide_eq_true; rewrite lookup_insert_eq;
          eauto).
    apply path_exists_false in He.
    destruct (can_unlink env _) eqn:Hu; mstep; rewrite <- ?app_assoc;
      eexists; eexists; (split; [reflexivity|]); cbn [fs trace];
      (split; [reflexivity|]); repeat (split; [reflexivity|]).
    + rewrite delete_insert_eq. split.
      * apply lookup_delete_None. by right.
      * intros lf [= <-] _. apply lookup_delete_eq.
    + split; [by rewrite lookup_insert_ne|].
      intros lf [= <-]. congruence.
  - unfold merge_handler. mstep.
    unfold cleanup, list_file_path. rewrite Hm. mstep.
    apply path_exists_false in He.
    eexists; eexists; (split; [reflexivity|]); cbn [fs trace].
    repeat (split; [reflexivity|]). split; [done|]. done.
  - unfold merge_handler. mstep. rewrite He. mstep.
    unfold cleanup, list_file_path. rewrite Hm. mstep.
    apply path_exists_false in He.
    eexists; eexists; (split; [reflexivity|]); cbn [fs trace].
    repeat (split; [reflexivity|]). split; [done|]. done.
Qed.

Variables (dir : Path) (unique : string).
Hypothesis Hmk :
  mktemp env (list_prefix folder_name) = TmpCreated dir unique true.

Local Abbreviation lf := (temp_path dir (list_prefix folder_name) unique).

(** ffmpeg ended well and the probe of the merged file raises. *)
Lemma merge_process_probe_raises (w : World) :
  ffmpeg env valid out = FfOk →
  ffprobe env out = ProbeToolMissing ∨ ffprobe env out = ProbeCrash →
  ∃ evs w',
    merge_process env valid total folder_name out log_dir w
    = (Return false, w')
    ∧ trace w' = trace w ++ evs
    ∧ ffmpeg_calls evs = [(lf, out)]
    ∧ probe_calls evs = [out]
    ∧ match ffprobe env out with
      | ProbeToolMissing =>
          Log CRITICAL FfmpegNotFound ∈ evs
          ∧ fs w' !! out = Some (NFile (Merged valid true))
      | _ =>
          Log ERROR (UnexpectedMergeError folder_name) ∈ evs
          ∧ if can_unlink env out then fs w' !! out = None
            else fs w' !! out = Some (NFile (Merged valid true))
      end.
Proof using Hmk.
  intros Hff Hp.
  pose proof (list_file_path_created env folder_name dir unique Hmk) as Hl.
  assert (Hne : lf ≠ out) by apply list_file_is_no_output.
  unfold merge_process, try_finally, try_except, merge_steps,
    create_list_file, run_ffmpeg.
  rewrite Hmk. mstep. unfold manifest_of.
  rewrite lookup_insert_eq, map_resolve, Hff.
  unfold _run_command, run_of_ffmpeg, verify_duration,
    _get_video_metadata_ffprobe, run_of_probe, resolve, merge_handler.
  destruct Hp as [Hp|Hp]; rewrite Hp; mstep; unfold _run_command; mstep.
  - match goal with
    | |- context [cleanup env _ ?W] =>
        destruct (cleanup_spec env folder_name lf W Hl)
          as (evs & f' & -> & Hf & _ & Hpc & Hfc & _)
    end.
    cbn [fs trace] in *. eexists; eexists; (split; [reflexivity|]).
    cbn [fs trace]. rewrite <- !app_assoc. split; [reflexivity|].
    split; [rewrite !ffmpeg_calls_app, Hfc; reflexivity|].
    split; [rewrite !probe_calls_app, Hpc; reflexivity|].
    split.
    + cbn [app].
      repeat first [apply list_elem_of_here | apply list_elem_of_further].
    + destruct Hf as [->| ->]; rewrite ?lookup_delete_ne by done;
        apply lookup_insert_eq.
  - replace (path_exists _ out) with true
      by (symmetry; apply bool_decide_eq_true; rewrite lookup_insert_eq;
          eauto).
    destruct (can_unlink env out) eqn:Hu; mstep;
      match goal with
      | |- context [cleanup env _ ?W] =>
          destruct (cleanup_spec env folder_name lf W Hl)
            as (evs & f' & -> & Hf & _ & Hpc & Hfc & _)
      end;
      cbn [fs trace] in *; eexists; eexists; (split; [reflexivity|]);
      cbn [fs trace]; rewrite <- !app_assoc; (split; [reflexivity|]);
      (split; [rewrite !ffmpeg_calls_app, Hfc; reflexivity|]);
      (split; [rewrite !probe_calls_app, Hpc; reflexivity|]);
      (split; [cbn [app];
               repeat first [apply list_elem_of_here
                            | apply list_elem_of_further]|]).
    + destruct Hf as [->| ->]; [apply lookup_delete_eq|].
      apply lookup_delete_None. right. apply lookup_delete_eq.
    + destruct Hf as [->| ->]; rewrite ?lookup_delete_ne by done;
        apply lookup_insert_eq.
Qed.

(** ffmpeg ends in an exception that is neither an exit status nor its
    absence. *)
Lemma merge_process_ffmpeg_crash (partial : bool) (w : World) :
  path_exists (fs w) out = false →
  ffmpeg env valid out = FfCrash partial →
  ∃ evs w',
    merge_process env valid total folder_name out log_dir w
    = (Return false, w')
    ∧ trace w' = trace w ++ evs
    ∧ ffmpeg_calls evs = [(lf, out)]
    ∧ probe_calls evs = []
    ∧ Log ERROR (UnexpectedMergeError folder_name) ∈ evs
    ∧ fs w' !! ffmpeg_error_log folder_name log_dir
      = fs w !! ffmpeg_error_log folder_name log_dir
    ∧ if partial && negb (can_unlink env out)
      then fs w' !! out = Some (NFile (Merged valid false))
           ∧ Forall (fun e => e ≠ Log ERROR (CouldNotDelete (name out))) evs
      else fs w' !! out = None.
Proof using Hmk.
  intros He Hff.
  pose proof (list_file_path_created env folder_name dir unique Hmk) as Hl.
  assert (Hne : lf ≠ out) by apply list_file_is_no_output.
  assert (Hne' : lf ≠ ffmpeg_error_log folder_name log_dir)
    by apply list_file_is_no_error_log.
  assert (Hne'' : out ≠ ffmpeg_error_log folder_name log_dir)
    by apply output_is_no_error_log.
  apply path_exists_false in He.
  unfold merge_process, try_finally, try_except, merge_steps,
    create_list_file, run_ffmpeg.
  rewrite Hmk. mstep. unfold manifest_of.
  rewrite lookup_insert_eq, map_resolve, Hff.
  unfold _run_command, run_of_ffmpeg, merge_handler.
  destruct partial; mstep.
  - replace (path_exists _ out) with true
      by (symmetry; apply bool_decide_eq_true; rewrite lookup_insert_eq;
          eauto).
    destruct (can_unlink env out) eqn:Hu; mstep;
      match goal with
      | |- context [cleanup env _ ?W] =>
          destruct (cleanup_spec env folder_name lf W Hl)
            as (evs & f' & -> & Hf & _ & Hpc & Hfc & Hok)
      end;
      cbn [fs trace] in *; eexists; eexists; (split; [reflexivity|]);
      cbn [fs trace andb negb]; rewrite <- !app_assoc;
      (split; [reflexivity|]);
      (split; [rewrite !ffmpeg_calls_app, Hfc; reflexivity|]);
      (split; [rewrite !probe_calls_app, Hpc; reflexivity|]);
      (split; [cbn [app];
               repeat first [apply list_elem_of_here
                            | apply list_elem_of_further]|]).
    + split.
      * destruct Hf as [->| ->]; rewrite ?lookup_delete_ne by done;
          rewrite !lookup_insert_ne by done; reflexivity.
      * destruct Hf as [->| ->]; [apply lookup_delete_eq|].
        apply lookup_delete_None. right. apply lookup_delete_eq.
    + split; [|split].
      * destruct Hf as [->| ->]; rewrite ?lookup_delete_ne by done;
          rewrite !lookup_insert_ne by done; reflexivity.
      * destruct Hf as [->| ->]; rewrite ?lookup_delete_ne by done;
          apply lookup_insert_eq.
      * cbn [app]. repeat (constructor; [discriminate|]).
        eapply Forall_impl; [exact Hok|]. by intros e Hn ->.
  - replace (path_exists _ out) with false
      by (symmetry; apply path_exists_false;
          by rewrite lookup_insert_ne by done).
    mstep.
    match goal with
    | |- context [cleanup env _ ?W] =>
        destruct (cleanup_spec env folder_name lf W Hl)
          as (evs & f' & -> & Hf & _ & Hpc & Hfc & Hok)
    end.
    cbn [fs trace] in *. eexists; eexists; (split; [reflexivity|]).
    cbn [fs trace andb negb]. rewrite <- !app_assoc.
    split; [reflexivity|].
    split; [rewrite !ffmpeg_calls_app, Hfc; reflexivity|].
    split; [rewrite !probe_calls_app, Hpc; reflexivity|].
    split; [cbn [app];
            repeat first [apply list_elem_of_here
                         | apply list_elem_of_further]|].
    split.
    + destruct Hf as [->| ->]; rewrite ?lookup_delete_ne by done;
        rewrite !lookup_insert_ne by done; reflexivity.
    + destruct Hf as [->| ->]; rewrite ?lookup_delete_ne by done;
        by rewrite lookup_insert_ne.
Qed.

End MergeExceptions.

(** X18. When the list file cannot be made, or cannot be written, for a
    folder whose output is not there, the second [try] block of
    [merge_video] returns [False] without running ffmpeg or ffprobe and
    without making the output, and the list file is gone when the system
    lets it be removed. The first record is the one of an unexpected
    error - or, when [tempfile] raised FileNotFoundError, the critical
    record that says that ffmpeg was not found. *)
Theorem merge_stops_when_the_list_file_cannot_be_made
    (env : Env) (valid : list Path) (total : float)
    (v source_path output_dir log_dir : Path) (w : World) :
  path_exists (fs w) (output_path_of v source_path output_dir) = false →
  (∀ dir unique,
     mktemp env (list_prefix (name source_path))
     ≠ TmpCreated dir unique true) →
  ∃ evs w',
    merge_process env valid total (name source_path)
      (output_path_of v source_path output_dir) log_dir w
    = (Return false, w')
    ∧ trace w' = trace w ++ evs
    ∧ probe_calls evs = [] ∧ ffmpeg_calls evs = []
    ∧ head evs
      = Some (match mktemp env (list_prefix (name source_path)) with
              | TmpFileNotFound => Log CRITICAL FfmpegNotFound
              | _ => Log ERROR (UnexpectedMergeError (name source_path))
              end)
    ∧ fs w' !! output_path_of v source_path output_dir = None
    ∧ ∀ lf, list_file_path env (name source_path) = Some lf →
            can_unlink env lf = true → fs w' !! lf = None.
Proof. apply merge_process_no_list_file. Qed.

Lemma merge_stops_when_the_list_file_cannot_be_made_witness :
  ∃ evs w',
    merge_process (with_mktemp TmpFileNotFound (Sample.env FfOk true))
      Sample.parts_A 75%float (name Sample.folder_A)
      (output_path_of (Sample.folder_A // "1.mp4") Sample.folder_A
         Sample.out_dir)
      Sample.logs Sample.world
    = (Return false, w')
    ∧ trace w' = trace Sample.world ++ evs
    ∧ probe_calls evs = [] ∧ ffmpeg_calls evs = []
    ∧ head evs = Some (Log CRITICAL FfmpegNotFound)
    ∧ fs w' !! output_path_of (Sample.folder_A // "1.mp4") Sample.folder_A
                 Sample.out_dir = None
    ∧ ∀ lf,
        list_file_path (with_mktemp TmpFileNotFound (Sample.env FfOk true))
          (name Sample.folder_A) = Some lf →
        can_unlink (with_mktemp TmpFileNotFound (Sample.env FfOk true)) lf
        = true →
        fs w' !! lf = None.
Proof.
  apply (merge_stops_when_the_list_file_cannot_be_made
           (with_mktemp TmpFileNotFound (Sample.env FfOk true))
           Sample.parts_A 75%float (Sample.folder_A // "1.mp4")
           Sample.folder_A Sample.out_dir Sample.logs Sample.world).
  - vm_compute. reflexivity.
  - intros dir unique. vm_compute. discriminate.
Defined.

(** X19. When ffmpeg has ended well and the probe of the merged file
    raises, the second [try] block of [merge_video] returns [False]
    although the merge is done. With ffprobe not found, the record says
    that ffmpeg was not found and the merged file stays, so that a later
    run takes the folder for merged; with any other exception the merged
    file is removed, or stays when the system refuses the removal. *)
Theorem probe_exception_after_the_merge_fails_the_folder
    (env : Env) (valid : list Path) (total : float)
    (v source_path output_dir log_dir dir : Path) (unique : string)
    (w : World) :
  mktemp env (list_prefix (name source_path)) = TmpCreated dir unique true →
  ffmpeg env valid (output_path_of v source_path output_dir) = FfOk →
  ffprobe env (output_path_of v source_path output_dir) = ProbeToolMissing
  ∨ ffprobe env (output_path_of v source_path output_dir) = ProbeCrash →
  ∃ evs w',
    merge_process env valid total (name source_path)
      (output_path_of v source_path output_dir) log_dir w
    = (Return false, w')
    ∧ trace w' = trace w ++ evs
    ∧ ffmpeg_calls evs
      = [(temp_path dir (list_prefix (name source_path)) unique,
          output_path_of v source_path output_dir)]
    ∧ probe_calls evs = [output_path_of v source_path output_dir]
    ∧ match ffprobe env (output_path_of v source_path output_dir) with
      | ProbeToolMissing =>
          Log CRITICAL FfmpegNotFound ∈ evs
          ∧ fs w' !! output_path_of v source_path output_dir
            = Some (NFile (Merged valid true))
      | _ =>
          Log ERROR (UnexpectedMergeError (name source_path)) ∈ evs
          ∧ if can_unlink env (output_path_of v source_path output_dir)
            then fs w' !! output_path_of v source_path output_dir = None
            else fs w' !! output_path_of v source_path output_dir
                 = Some (NFile (Merged valid true))
      end.
Proof. intros Hmk. by apply merge_process_probe_raises. Qed.

Lemma probe_exception_after_the_merge_fails_the_folder_witness :
  ∃ evs w',
    merge_process (env_probe_fails (Sample.out_dir // "A.mp4") ProbeCrash)
      Sample.parts_A 75%float (name Sample.folder_A)
      (output_path_of (Sample.folder_A // "1.mp4") Sample.folder_A
         Sample.out_dir)
      Sample.logs Sample.world
    = (Return false, w')
    ∧ trace w' = trace Sample.world ++ evs
    ∧ ffmpeg_calls evs
      = [(Sample.temp_file (list_prefix "A"), Sample.out_dir // "A.mp4")]
    ∧ probe_calls evs = [Sample.out_dir // "A.mp4"]
    ∧ Log ERROR (UnexpectedMergeError "A") ∈ evs
    ∧ fs w' !! (Sample.out_dir // "A.mp4") = None.
Proof.
  apply (probe_exception_after_the_merge_fails_the_folder
           (env_probe_fails (Sample.out_dir // "A.mp4") ProbeCrash)
           Sample.parts_A 75%float (Sample.folder_A // "1.mp4")
           Sample.folder_A Sample.out_dir Sample.logs ["tmp"]%string "k3x9"
           Sample.world).
  - vm_compute. reflexivity.
  - vm_compute. reflexivity.
  - right. vm_compute. reflexivity.
Defined.

(** X20. When the run of ffmpeg ends in an exception that is neither a
    non-zero exit status nor the absence of ffmpeg, the second [try] block
    of [merge_video] returns [False] and logs the error; it writes no
    ffmpeg error log, and removes what ffmpeg left at the output path.
    When the system refuses that removal the partial output stays, and no
    record tells of the refusal. *)
Theorem unexpected_ffmpeg_error_removes_the_output_silently
    (env : Env) (valid : list Path) (total : float)
    (v source_path output_dir log_dir dir : Path) (unique : string)
    (partial : bool) (w : World) :
  mktemp env (list_prefix (name source_path)) = TmpCreated dir unique true →
  path_exists (fs w) (output_path_of v source_path output_dir) = false →
  ffmpeg env valid (output_path_of v source_path output_dir)
  = FfCrash partial →
  ∃ evs w',
    merge_process env valid total (name source_path)
      (output_path_of v source_path output_dir) log_dir w
    = (Return false, w')
    ∧ trace w' = trace w ++ evs
    ∧ ffmpeg_calls evs
      = [(temp_path dir (list_prefix (name source_path)) unique,
          output_path_of v source_path output_dir)]
    ∧ probe_calls evs = []
    ∧ Log ERROR (UnexpectedMergeError (name source_path)) ∈ evs
    ∧ fs w' !! ffmpeg_error_log (name source_path) log_dir
      = fs w !! ffmpeg_error_log (name source_path) log_dir
    ∧ if partial
         && negb (can_unlink env (output_path_of v source_path output_dir))
      then fs w' !! output_path_of v source_path output_dir
           = Some (NFile (Merged valid false))
           ∧ Forall (fun e =>
                       e ≠ Log ERROR
                             (CouldNotDelete
                                (name (output_path_of v source_path
                                         output_dir))))
                    evs
      else fs w' !! output_path_of v source_path output_dir = None.
Proof. intros Hmk. by apply merge_process_ffmpeg_crash. Qed.

Lemma unexpected_ffmpeg_error_removes_the_output_silently_witness :
  ∃ evs w',
    merge_process (Sample.env (FfCrash true) false)
      Sample.parts_A 75%float (name Sample.folder_A)
      (output_path_of (Sample.folder_A // "1.mp4") Sample.folder_A
         Sample.out_dir)
      Sample.logs Sample.world
    = (Return false, w')
    ∧ trace w' = trace Sample.world ++ evs
    ∧ ffmpeg_calls evs
      = [(Sample.temp_file (list_prefix "A"), Sample.out_dir // "A.mp4")]
    ∧ probe_calls evs = []
    ∧ Log ERROR (UnexpectedMergeError "A") ∈ evs
    ∧ fs w' !! ffmpeg_error_log "A" Sample.logs
      = fs Sample.world !! ffmpeg_error_log "A" Sample.logs
    ∧ fs w' !! (Sample.out_dir // "A.mp4")
      = Some (NFile (Merged Sample.parts_A false))
    ∧ Forall (fun e => e ≠ Log ERROR (CouldNotDelete "A.mp4")) evs.
Proof.
  apply (unexpected_ffmpeg_error_removes_the_output_silently
           (Sample.env (FfCrash true) false)
           Sample.parts_A 75%float (Sample.folder_A // "1.mp4")
           Sample.folder_A Sample.out_dir Sample.logs ["tmp"]%string "k3x9"
           true Sample.world).
  - vm_compute. reflexivity.
  - vm_compute. reflexivity.
  - vm_compute. reflexivity.
Defined.

(** ** The duration check *)

Lemma SFcompare_lt_le (a d x : spec_float) :
  SFltb a d = true → SFleb d x = true → SFltb a x = true.
Proof.
  unfold SFleb, SFltb.
  destruct a as [[|]|[|]| |[|] ma ea], d as [[|]|[|]| |[|] md ed],
    x as [[|]|[|]| |[|] mx ex]; simpl; try congruence;
    change (PosDef.Pos.compare_cont Eq) with Pos.compare;
    destruct (Z.compare_spec ea ed), (Z.compare_spec ed ex),
      (Z.compare_spec ea ex); simpl; try congruence; try lia;
    destruct (Pos.compare_spec ma md), (Pos.compare_spec md mx),
      (Pos.compare_spec ma mx); simpl; try congruence; try lia.
Qed.

(** The test of the code, [duration_diff > max_allowed_diff], against the
    tolerance of the spec. *)
Lemma exceeds_spec_tolerance_warns (total d : float) :
  exceeds_spec_tolerance total d = true →
  (max_allowed_diff total <? d)%float = true.
Proof.
  unfold exceeds_spec_tolerance, max_allowed_diff, py_max,
    duration_tolerance_abs, duration_tolerance_rel.
  intros [H1 H2]%andb_true_iff. by destruct (_ <? _ * _)%float.
Qed.

Lemma within_spec_tolerance_passes (total d : float) :
  within_spec_tolerance total d = true →
  (max_allowed_diff total <? d)%float = false.
Proof.
  unfold within_spec_tolerance. intros [H|H]%orb_true_iff.
  { by apply tolerance_at_least_five. }
  unfold max_allowed_diff, py_max, duration_tolerance_abs,
    duration_tolerance_rel.
  destruct (5 <? total * _)%float eqn:Hx.
  - rewrite ltb_spec. rewrite leb_spec in H. by apply SFcompare_le_not_lt.
  - rewrite ltb_spec in *. rewrite leb_spec in H.
    destruct (SFltb (Prim2SF 5) (Prim2SF d)) eqn:Hd; [|done].
    by rewrite (SFcompare_lt_le _ _ _ Hd H) in Hx.
Qed.

(** The records of the [finally] clause. *)
Lemma cleanup_events (env : Env) (folder_name : string) (lf : Path)
    (w : World) :
  list_file_path env folder_name = Some lf →
  ∃ evs f',
    cleanup env folder_name w = (Return (), mkWorld f' (trace w ++ evs))
    ∧ (f' = fs w ∨ f' = delete lf (fs w))
    ∧ (evs = [] ∨ evs = [Log WARNING (CouldNotDeleteTemp lf)])
    ∧ probe_calls evs = [] ∧ ffmpeg_calls evs = [].
Proof.
  intros Hl. unfold cleanup. rewrite Hl. mstep.
  destruct (path_exists (fs w) lf); [destruct (can_unlink env lf)|]; mstep.
  - exists [], (delete lf (fs w)). rewrite app_nil_r. auto 10.
  - exists [Log WARNING (CouldNotDeleteTemp lf)], (fs w). auto 10.
  - exists [], (fs w). rewrite app_nil_r. destruct w. auto 10.
Qed.

(** C8, as amended. After ffmpeg succeeded, the merged file is probed,
    once. When the probe gives a duration, the difference
    [abs(total - merged)] is held against the tolerance
    [max(5.0, 2% of total)]: a difference above 5.0 and above 2% of the
    total logs a warning and not the record of a passed check; a
    difference within 5.0 or within 2% of the total logs the check as
    passed and no warning. When the probe gives nothing - ffprobe exits
    with an error, or its output cannot be used - a warning is logged. In
    all these cases the block returns [True] and a file is at the output
    path. When the probe raises, the handlers of the block take over and
    the block returns [False]: with a critical record when ffprobe is not
    found, with an error record after any other exception. *)
Theorem duration_check_only_warns_unless_the_probe_raises
    (env : Env) (valid : list Path) (total : float)
    (v source_path output_dir log_dir dir : Path) (unique : string)
    (w : World) :
  mktemp env (list_prefix (name source_path)) = TmpCreated dir unique true →
  ffmpeg env valid (output_path_of v source_path output_dir) = FfOk →
  ∃ evs w' b,
    merge_process env valid total (name source_path)
      (output_path_of v source_path output_dir) log_dir w
    = (Return b, w')
    ∧ trace w' = trace w ++ evs
    ∧ ffmpeg_calls evs
      = [(temp_path dir (list_prefix (name source_path)) unique,
          output_path_of v source_path output_dir)]
    ∧ match ffprobe env (output_path_of v source_path output_dir) with
      | ProbeOk m =>
          b = true
          ∧ is_file (fs w') (output_path_of v source_path output_dir) = true
          ∧ (exceeds_spec_tolerance total (duration_diff total (duration m))
             = true →
             (∃ allowed,
                Log WARNING
                  (DurationMismatch (name source_path) total (duration m)
                     (duration_diff total (duration m)) allowed) ∈ evs)
             ∧ Log INFO (DurationPassed (name source_path)) ∉ evs)
          ∧ (within_spec_tolerance total (duration_diff total (duration m))
             = true →
             Log INFO (DurationPassed (name source_path)) ∈ evs
             ∧ ∀ t m' d a,
                 Log WARNING (DurationMismatch (name source_path) t m' d a)
                 ∉ evs)
      | ProbeToolMissing =>
          b = false ∧ Log CRITICAL FfmpegNotFound ∈ evs
      | ProbeCrash =>
          b = false
          ∧ Log ERROR (UnexpectedMergeError (name source_path)) ∈ evs
      | _ =>
          b = true
          ∧ is_file (fs w') (output_path_of v source_path output_dir) = true
          ∧ Log WARNING
              (MergedProbeFailed
                 (name (output_path_of v source_path output_dir))) ∈ evs
      end.
Proof.
  intros Hmk Hff.
  pose proof (list_file_is_no_output dir v source_path output_dir unique)
    as Hne.
  pose proof (list_file_path_created env (name source_path) dir unique Hmk)
    as Hl.
  set (out := output_path_of v source_path output_dir) in *.
  set (lf := temp_path dir (list_prefix (name source_path)) unique) in *.
  assert (Hraise :
            ffprobe env out = ProbeToolMissing ∨ ffprobe env out = ProbeCrash →
            ∃ evs w' b,
              merge_process env valid total (name source_path) out log_dir w
              = (Return b, w')
              ∧ trace w' = trace w ++ evs
              ∧ ffmpeg_calls evs = [(lf, out)]
              ∧ match ffprobe env out with
                | ProbeToolMissing =>
                    b = false ∧ Log CRITICAL FfmpegNotFound ∈ evs
                | _ =>
                    b = false
                    ∧ Log ERROR (UnexpectedMergeError (name source_path))
                      ∈ evs
                end).
  { intros Hp.
    destruct (merge_process_probe_raises env valid total v source_path
                output_dir log_dir dir unique Hmk w Hff Hp)
      as (evs & w' & Heq & Ht & Hfc & _ & Hcase).
    fold out lf in Heq, Hfc, Hcase.
    exists evs, w', false. repeat (split; [done|]).
    destruct Hp as [Hp|Hp]; rewrite Hp in Hcase |- *; by destruct Hcase. }
  assert (Hgood :
            ffprobe env out ≠ ProbeToolMissing → ffprobe env out ≠ ProbeCrash →
            ∃ evs0 evs1 w',
              merge_process env valid total (name source_path) out log_dir w
              = (Return true, w')
              ∧ trace w'
                = trace w ++ ([Log INFO (StartingMerge (name source_path));
                               Ffmpeg lf out;
                               Log INFO (MergedSaved (name out));
                               Probe out] ++ evs0) ++ evs1
              ∧ (evs1 = [] ∨ evs1 = [Log WARNING (CouldNotDeleteTemp lf)])
              ∧ ffmpeg_calls evs0 = []
              ∧ is_file (fs w') out = true
              ∧ match ffprobe env out with
                | ProbeOk m =>
                    evs0 = [if (max_allowed_diff total
                                <? duration_diff total (duration m))%float
                            then Log WARNING
                                   (DurationMismatch (name source_path) total
                                      (duration m)
                                      (duration_diff total (duration m))
                                      (max_allowed_diff total))
                            else Log INFO (DurationPassed (name source_path))]
                | _ =>
                    last evs0
                    = Some (Log WARNING (MergedProbeFailed (name out)))
                end).
  { intros Hn1 Hn2.
    destruct (merge_steps_ok env valid total (name source_path) out dir
                unique Hmk w Hff Hn1 Hn2) as (evs0 & Heq & _ & Hfc & Hv).
    unfold merge_process, try_finally, try_except. rewrite Heq.
    match goal with
    | |- context [cleanup env _ ?W] =>
        destruct (cleanup_events env (name source_path) lf W Hl)
          as (evs1 & f' & -> & Hf & Hev & _)
    end.
    cbn [fs trace] in *. exists evs0, evs1. eexists.
    split; [reflexivity|]. cbn [fs trace].
    split; [by rewrite <- !app_assoc|].
    split; [exact Hev|]. split; [exact Hfc|]. split; [|exact Hv].
    unfold is_file.
    destruct Hf as [->| ->]; rewrite ?lookup_delete_ne by done;
      by rewrite lookup_insert_eq. }
  destruct (ffprobe env out) as [m| | | | | |] eqn:Hp;
    [| | | | |apply Hraise; by left|apply Hraise; by right];
    destruct Hgood as (evs0 & evs1 & w' & Heq & Ht & Hev & Hfc & Hf & Hv);
    try done;
    eexists _, w', true; (split; [exact Heq|]); (split; [exact Ht|]);
    (split;
     [rewrite <- !app_assoc; cbn [app]; simpl;
      rewrite ffmpeg_calls_app, Hfc;
      by destruct Hev as [->| ->]|]);
    (split; [reflexivity|]); (split; [exact Hf|]).
  - subst evs0. split.
    + intros He%exceeds_spec_tolerance_warns. rewrite He. split.
      * eexists. rewrite !elem_of_app. left. right. apply list_elem_of_here.
      * intros Hin. rewrite !elem_of_app, !elem_of_cons, !elem_of_nil in Hin.
        destruct Hev as [->| ->];
          rewrite ?elem_of_cons, elem_of_nil in Hin; intuition discriminate.
    + intros He%within_spec_tolerance_passes. rewrite He. split.
      * rewrite !elem_of_app. left. right. apply list_elem_of_here.
      * intros t m' d a Hin.
        rewrite !elem_of_app, !elem_of_cons, !elem_of_nil in Hin.
        destruct Hev as [->| ->];
          rewrite ?elem_of_cons, elem_of_nil in Hin; intuition discriminate.
  - rewrite !elem_of_app. left. right. by apply last_Some_elem_of.
  - rewrite !elem_of_app. left. right. by apply last_Some_elem_of.
  - rewrite !elem_of_app. left. right. by apply last_Some_elem_of.
  - rewrite !elem_of_app. left. right. by apply last_Some_elem_of.
Qed.

Lemma duration_check_only_warns_unless_the_probe_raises_witness :
  exceeds_spec_tolerance 12.5 (duration_diff 12.5 20) = true
  ∧ ∃ evs w',
      merge_process (Sample.env FfOk true) [Sample.folder_C // "1.mp4"]
        12.5%float (name Sample.folder_C)
        (output_path_of (Sample.folder_C // "0.mp4") Sample.folder_C
           Sample.out_dir)
        Sample.logs Sample.world
      = (Return true, w')
      ∧ trace w' = trace Sample.world ++ evs
      ∧ ffmpeg_calls evs
        = [(Sample.temp_file (list_prefix "C"), Sample.out_dir // "C.mp4")]
      ∧ is_file (fs w') (Sample.out_dir // "C.mp4") = true
      ∧ (∃ allowed,
           Log WARNING
             (DurationMismatch "C" 12.5 20 (duration_diff 12.5 20) allowed)
           ∈ evs)
      ∧ Log INFO (DurationPassed "C") ∉ evs.
Proof.
  assert (Hex : exceeds_spec_tolerance 12.5 (duration_diff 12.5 20) = true)
    by (vm_compute; reflexivity).
  split; [exact Hex|].
  assert (Hmk : mktemp (Sample.env FfOk true)
                  (list_prefix (name Sample.folder_C))
                = TmpCreated ["tmp"]%string "k3x9" true)
    by (vm_compute; reflexivity).
  assert (Hff : ffmpeg (Sample.env FfOk true) [Sample.folder_C // "1.mp4"]
                  (output_path_of (Sample.folder_C // "0.mp4")
                     Sample.folder_C Sample.out_dir) = FfOk)
    by (vm_compute; reflexivity).
  destruct (duration_check_only_warns_unless_the_probe_raises
              (Sample.env FfOk true) [Sample.folder_C // "1.mp4"] 12.5%float
              (Sample.folder_C // "0.mp4") Sample.folder_C Sample.out_dir
              Sample.logs ["tmp"]%string "k3x9" Sample.world Hmk Hff)
    as (evs & w' & b & Heq & Ht & Hfc & Hcase).
  change (b = true
          ∧ is_file (fs w') (Sample.out_dir // "C.mp4") = true
          ∧ (exceeds_spec_tolerance 12.5 (duration_diff 12.5 20) = true →
             (∃ allowed,
                Log WARNING
                  (DurationMismatch "C" 12.5 20 (duration_diff 12.5 20)
                     allowed) ∈ evs)
             ∧ Log INFO (DurationPassed "C") ∉ evs)
          ∧ (within_spec_tolerance 12.5 (duration_diff 12.5 20) = true →
             Log INFO (DurationPassed "C") ∈ evs
             ∧ ∀ t m' d a,
                 Log WARNING (DurationMismatch "C" t m' d a) ∉ evs))
    in Hcase.
  destruct Hcase as (-> & Hf & Hwarn & _).
  destruct (Hwarn Hex) as [Hin Hnot].
  exists evs, w'. repeat split; assumption.
Defined.

(** C8 as stated fails when the probe of the merged file raises: ffmpeg
    merges folder [A] of the sample and the probe of the output ends in an
    unforeseen exception; [merge_video] returns [False], although ffmpeg
    was run and succeeded, and the merged file is removed. *)
Lemma merged_folder_fails_when_its_probe_raises :
  ffmpeg (env_probe_fails (Sample.out_dir // "A.mp4") ProbeCrash)
    Sample.parts_A (Sample.out_dir // "A.mp4") = FfOk
  ∧ ffprobe (env_probe_fails (Sample.out_dir // "A.mp4") ProbeCrash)
      (Sample.out_dir // "A.mp4") = ProbeCrash
  ∧ (merge_video (env_probe_fails (Sample.out_dir // "A.mp4") ProbeCrash)
       Sample.parts_A Sample.folder_A Sample.out_dir Sample.logs
       Sample.world).1
    = Return false
  ∧ ffmpeg_calls
      (trace (merge_video
                (env_probe_fails (Sample.out_dir // "A.mp4") ProbeCrash)
                Sample.parts_A Sample.folder_A Sample.out_dir Sample.logs
                Sample.world).2)
    = [(Sample.temp_file (list_prefix "A"), Sample.out_dir // "A.mp4")]
  ∧ fs (merge_video (env_probe_fails (Sample.out_dir // "A.mp4") ProbeCrash)
          Sample.parts_A Sample.folder_A Sample.out_dir Sample.logs
          Sample.world).2
    !! (Sample.out_dir // "A.mp4")
    = None.
Proof. repeat split; vm_compute; reflexivity. Qed.
